(** * dkg.js client: operation polling, contract execution and the UAL codec

    A shallow embedding of the three source units of the repository

    - [NodeBlockchainService] (executeContractFunction, callContractFunction),
    - the utilities object (deriveUAL, resolveUAL),
    - [AbstractClient] (constructor, _getResult, _getSearchResult,
      _performValidation, _validateProof),

    followed by the properties of the specification that concern them.

    JavaScript values are a small inductive type with the language's
    truthiness, exceptions are an [Outcome], and the outside world (the chain
    RPC provider, the node's HTTP API and the timers) is an explicit state
    threaded through every call: the k-th call of a primitive receives the
    k-th answer of a script, whatever the request was.  Numbers are integers
    ([Z]) plus [NaN]; strings are sequences of 8-bit characters. *)

From Stdlib Require Import String Ascii List ZArith Lia Bool PeanoNat.
From Stdlib Require Import Decimal DecimalString DecimalNat.
From Stdlib Require Hexadecimal HexadecimalString HexadecimalNat.
Import ListNotations.
Local Open Scope string_scope.

(* ================================================================== *)
(** * JavaScript values, exceptions and the string primitives used      *)
(* ================================================================== *)

Module Js.

#[local] Unset Elimination Schemes.
Inductive JsVal : Type :=
| JUndefined
| JNull
| JBool (b : bool)
| JNum (z : Z)
| JNaN
| JStr (s : string)
| JArr (items : list JsVal)
| JObj (fields : list (string * JsVal)).
#[local] Set Elimination Schemes.

(** Thrown values: [new Error(msg)] / [Error(msg)], and the [TypeError]s the
    runtime itself raises. *)
Inductive JsError : Type :=
| Error (msg : string)
| TypeError (msg : string).

Inductive Outcome (A : Type) : Type :=
| Return (a : A)
| Throw (e : JsError).
Arguments Return {A} a.
Arguments Throw {A} e.

(** ToBoolean. *)
Definition truthy (v : JsVal) : bool :=
  match v with
  | JUndefined | JNull | JNaN => false
  | JBool b => b
  | JNum z => negb (z =? 0)%Z
  | JStr s => negb (s =? "")
  | JArr _ | JObj _ => true
  end.

(** [a || b] *)
Definition js_or (a b : JsVal) : JsVal := if truthy a then a else b.

(** Decimal rendering of an integer, as [String(n)] does. *)
Definition nat_to_string (n : nat) : string :=
  NilEmpty.string_of_uint (Nat.to_uint n).

Definition Z_to_string (z : Z) : string :=
  match z with
  | Zneg p => "-" ++ nat_to_string (Pos.to_nat p)
  | _ => nat_to_string (Z.to_nat z)
  end.

Fixpoint join (sep : string) (l : list string) : string :=
  match l with
  | [] => ""
  | [x] => x
  | x :: rest => x ++ sep ++ join sep rest
  end.

(** ToString, as a template literal applies it. *)
Fixpoint to_string (v : JsVal) : string :=
  match v with
  | JUndefined => "undefined"
  | JNull => "null"
  | JBool true => "true"
  | JBool false => "false"
  | JNum z => Z_to_string z
  | JNaN => "NaN"
  | JStr s => s
  | JArr items =>
      join "," (map (fun x => match x with
                              | JUndefined | JNull => ""
                              | _ => to_string x
                              end) items)
  | JObj _ => "[object Object]"
  end.

(** ToNumber on the primitives that have no string inside; [None] is NaN. *)
Definition to_number (v : JsVal) : option Z :=
  match v with
  | JNull => Some 0%Z
  | JBool b => Some (if b then 1 else 0)%Z
  | JNum z => Some z
  | _ => None
  end.

(** The binary [+]: concatenation as soon as one operand is (or converts
    to) a string, numeric addition otherwise. *)
Definition js_add (a b : JsVal) : JsVal :=
  match a, b with
  | (JStr _ | JArr _ | JObj _), _ | _, (JStr _ | JArr _ | JObj _) =>
      JStr (to_string a ++ to_string b)
  | _, _ =>
      match to_number a, to_number b with
      | Some x, Some y => JNum (x + y)
      | _, _ => JNaN
      end
  end.

(** [arr[i]]: [undefined] past the end. *)
Definition index (l : list string) (i : nat) : JsVal :=
  match nth_error l i with
  | Some s => JStr s
  | None => JUndefined
  end.

(** [String.prototype.split] with a one-character separator. *)
Fixpoint split (sep : ascii) (s : string) : list string :=
  match s with
  | EmptyString => [""]
  | String c rest =>
      if Ascii.eqb c sep then "" :: split sep rest
      else match split sep rest with
           | [] => [String c ""]
           | h :: t => String c h :: t
           end
  end.

(** [s.includes(c)] for a character [c]. *)
Fixpoint has_char (c : ascii) (s : string) : bool :=
  match s with
  | EmptyString => false
  | String x rest => Ascii.eqb x c || has_char c rest
  end.

(** [String.prototype.startsWith]. *)
Definition startsWith (s p : string) : bool := String.prefix p s.

Definition lower_char (c : ascii) : ascii :=
  let n := nat_of_ascii c in
  if (65 <=? n)%nat && (n <=? 90)%nat then ascii_of_nat (n + 32) else c.

(** [String.prototype.toLowerCase] on 8-bit text: A-Z are mapped, every
    other character is kept. *)
Fixpoint toLowerCase (s : string) : string :=
  match s with
  | EmptyString => EmptyString
  | String c rest => String (lower_char c) (toLowerCase rest)
  end.

(** White space skipped by [parseInt], among 8-bit characters. *)
Definition is_space (c : ascii) : bool :=
  let n := nat_of_ascii c in
  ((9 <=? n)%nat && (n <=? 13)%nat) || (n =? 32)%nat.

Definition digit_of (c : ascii) : option Z :=
  let n := nat_of_ascii c in
  if (48 <=? n)%nat && (n <=? 57)%nat then Some (Z.of_nat (n - 48)) else None.

Fixpoint skip_spaces (s : string) : string :=
  match s with
  | String c rest => if is_space c then skip_spaces rest else s
  | EmptyString => s
  end.

(** The longest run of decimal digits at the head of [s], folded into
    [acc]; [seen] records whether a digit was read. *)
Fixpoint read_digits (s : string) (acc : Z) (seen : bool) : option Z :=
  match s with
  | String c rest =>
      match digit_of c with
      | Some d => read_digits rest (acc * 10 + d) true
      | None => if seen then Some acc else None
      end
  | EmptyString => if seen then Some acc else None
  end.

(** [parseInt(s, 10)]: leading white space, an optional sign, then digits;
    [NaN] when no digit follows. *)
Definition parseInt10 (s : string) : JsVal :=
  let number (sign : Z) (digits : string) :=
    match read_digits digits 0 false with
    | Some z => JNum (sign * z)
    | None => JNaN
    end in
  match skip_spaces s with
  | EmptyString => JNaN
  | String c rest as t =>
      if Ascii.eqb c "-" then number (-1)%Z rest
      else if Ascii.eqb c "+" then number 1%Z rest
      else number 1%Z t
  end.

(** A method call [v.split(sep)] on an arbitrary value: only strings have
    the method. *)
Definition call_split (v : JsVal) (sep : ascii) : Outcome (list string) :=
  match v with
  | JStr s => Return (split sep s)
  | JUndefined =>
      Throw (TypeError "Cannot read properties of undefined (reading 'split')")
  | JNull =>
      Throw (TypeError "Cannot read properties of null (reading 'split')")
  | _ => Throw (TypeError "argsString.split is not a function")
  end.

(** ** Property access

    Own properties only: the members an object inherits from its prototype
    are not modelled. *)
Fixpoint lookup (key : string) (fields : list (string * JsVal)) : JsVal :=
  match fields with
  | [] => JUndefined
  | (k, v) :: rest => if k =? key then v else lookup key rest
  end.

(** The position an array index written as a property key denotes. *)
Fixpoint index_of_key (key : string) (n : nat) : option nat :=
  match n with
  | O => None
  | S m => if nat_to_string m =? key then Some m else index_of_key key m
  end.

Definition nullish_access (what key : string) : JsError :=
  TypeError ("Cannot read properties of " ++ what
             ++ " (reading '" ++ key ++ "')").

(** [v[key]] and [v.key] *)
Definition get_prop (v : JsVal) (key : string) : Outcome JsVal :=
  match v with
  | JUndefined => Throw (nullish_access "undefined" key)
  | JNull => Throw (nullish_access "null" key)
  | JObj fields => Return (lookup key fields)
  | JArr items =>
      if key =? "length" then Return (JNum (Z.of_nat (length items)))
      else match index_of_key key (length items) with
           | Some i => Return (nth i items JUndefined)
           | None => Return JUndefined
           end
  | JStr s =>
      if key =? "length" then Return (JNum (Z.of_nat (String.length s)))
      else match index_of_key key (String.length s) with
           | Some i => Return (match String.get i s with
                               | Some c => JStr (String c "")
                               | None => JUndefined
                               end)
           | None => Return JUndefined
           end
  | _ => Return JUndefined
  end.

(** [v[i]] for a numeric literal [i] *)
Definition get_index (v : JsVal) (i : nat) : Outcome JsVal :=
  get_prop v (nat_to_string i).

(** [v === null] *)
Definition is_null (v : JsVal) : bool :=
  match v with
  | JNull => true
  | _ => false
  end.

(** ** Computations over an explicit world

    [M W A] is a computation that reads and updates a world [W] and either
    returns or throws; the world is kept when an exception is thrown, so
    that a [catch] sees the effects of the block that failed. *)
Definition M (W A : Type) : Type := W -> Outcome A * W.

Definition ret {W A} (a : A) : M W A := fun w => (Return a, w).
Definition throw {W A} (e : JsError) : M W A := fun w => (Throw e, w).
Definition bind {W A B} (c : M W A) (k : A -> M W B) : M W B :=
  fun w => match c w with
           | (Return a, w') => k a w'
           | (Throw e, w') => (Throw e, w')
           end.

Declare Scope js_scope.
Delimit Scope js_scope with js.
Notation "x <- c ;; k" := (bind c (fun x => k))
  (at level 61, c at next level, right associativity) : js_scope.
Notation "c ;; k" := (bind c (fun _ => k))
  (at level 61, right associativity) : js_scope.

End Js.

(* ================================================================== *)
(** * utilities: the UAL codec                                          *)
(* ================================================================== *)

Module Utilities.
Import Js.

(** ** Numbers in a template literal

    A token id is a Number.  [${tokenId}] writes a non-negative integer
    with all its digits up to 2^53, where every integer is a Number; above,
    the Number is the nearest one that has 53 significant bits (ties to
    even), and what is written are the fewest digits that denote a decimal
    which is read back as that Number, followed by zeros below 10^21 and in
    exponent notation from 10^21 on. *)
Definition N_to_string (n : N) : string :=
  NilEmpty.string_of_uint (N.to_uint n).

(** The Number nearest to [x]. *)
Definition nearest_number (x : N) : N :=
  if (x <? 2 ^ 53)%N then x
  else
    let e := (N.log2 x - 52)%N in
    let q := N.shiftr x e in
    let r := (x - N.shiftl q e)%N in
    let half := N.shiftl 1 (e - 1) in
    let q' := if (r <? half)%N then q
              else if (half <? r)%N then N.succ q
              else if N.even q then q else N.succ q in
    N.shiftl q' e.

(** The digits [s] and the exponent [e] of Number::toString for the Number
    [x] of [D] decimal digits: the smallest count [k] of digits for which
    [s * 10^e] is read back as [x], and of two such [s] the one closer to
    [x] (the even one when they are as close). *)
Fixpoint shortest (fuel : nat) (k D x : N) : N * N :=
  match fuel with
  | O => (x, 0%N)
  | S fuel' =>
      if (D <=? k)%N then (x, 0%N)
      else
        let p := (10 ^ (D - k))%N in
        let lo := (x / p)%N in
        let hi := N.succ lo in
        let ok_lo := (nearest_number (lo * p) =? x)%N in
        let ok_hi := (nearest_number (hi * p) =? x)%N in
        if ok_lo && ok_hi
        then if (x - lo * p <? hi * p - x)%N then (lo, (D - k)%N)
             else if (hi * p - x <? x - lo * p)%N then (hi, (D - k)%N)
             else if N.even lo then (lo, (D - k)%N) else (hi, (D - k)%N)
        else if ok_lo then (lo, (D - k)%N)
        else if ok_hi then (hi, (D - k)%N)
        else shortest fuel' (N.succ k) D x
  end.

(** Trailing zeros of the digits move into the exponent. *)
Fixpoint strip (fuel : nat) (s e : N) : N * N :=
  match fuel with
  | O => (s, e)
  | S fuel' =>
      if (0 <? s)%N && (s mod 10 =? 0)%N then strip fuel' (s / 10)%N (N.succ e)
      else (s, e)
  end.

Fixpoint zeros (n : nat) : string :=
  match n with
  | O => ""
  | S m => String "0" (zeros m)
  end.

(** The digits followed by zeros when the number has at most 21 digits,
    [d.ddde+n] otherwise. *)
Definition format (s e : N) : string :=
  let digits := N_to_string s in
  let k := N.of_nat (String.length digits) in
  let n := (k + e)%N in
  if (n <=? 21)%N then digits ++ zeros (N.to_nat e)
  else
    match digits with
    | String d "" => String d ("e+" ++ N_to_string (n - 1))
    | String d rest => String d ("." ++ rest ++ "e+" ++ N_to_string (n - 1))
    | "" => ""
    end.

(** ToString of the Number written as the integer [n]. *)
Definition number_to_string (n : N) : string :=
  if (n <=? 2 ^ 53)%N then nat_to_string (N.to_nat n)
  else
    let x := nearest_number n in
    if (2 ^ 1024 <=? x)%N then "Infinity"
    else
      let D := N.of_nat (String.length (N_to_string x)) in
      let (s, e) := shortest 17 1 D x in
      let (s', e') := strip 400 s e in
      format s' e'.

(** deriveUAL(blockchain, contract, tokenId), for a token id that is a
    Number and a non-negative integer. *)
Definition deriveUAL (blockchain contract : string) (tokenId : N) : string :=
  "did:dkg:"
    ++ (if startsWith blockchain "otp" then "otp" else toLowerCase blockchain)
    ++ "/" ++ toLowerCase contract
    ++ "/" ++ number_to_string tokenId.

Record ResolvedUAL : Type := {
  blockchain : JsVal;
  contract : JsVal;
  tokenId : JsVal;
}.

(** The [args] of resolveUAL: the part of the locator after [did:dkg:]. *)
Definition argsString (ual : string) : JsVal :=
  let segments := split ":" ual in
  if (length segments =? 3)%nat then index segments 2
  else js_add (index segments 2) (index segments 3).

Definition format_error (ual : string) : JsError :=
  Error ("UAL doesn't have correct format: " ++ ual).

(** resolveUAL(ual) *)
Definition resolveUAL (ual : string) : Outcome ResolvedUAL :=
  match call_split (argsString ual) "/" with
  | Throw e => Throw e
  | Return args =>
      if negb (length args =? 3)%nat then Throw (format_error ual)
      else Return {| blockchain := index args 0;
                     contract := index args 1;
                     tokenId := match index args 2 with
                                | JStr s => parseInt10 s
                                | _ => JNaN
                                end |}
  end.

(** toNumber(hex) is [parseInt(hex.slice(2), 16)]; it is not needed below. *)

(** ** The codec as the specification words it

    A locator is the triple (chain, contract, token id); chain and contract
    are lower-cased, and a chain identifier beginning with the reserved
    prefix [otp] is normalized to that prefix.  Lower-casing is given by
    the table of the 26 letters, and the prefix by the first three
    characters: neither is defined through the functions of the code. *)
Fixpoint lower_of (upper lower : string) (c : ascii) : ascii :=
  match upper, lower with
  | String u upper', String l lower' =>
      if Ascii.eqb c u then l else lower_of upper' lower' c
  | _, _ => c
  end.

Definition lower_cased_letter : ascii -> ascii :=
  lower_of "ABCDEFGHIJKLMNOPQRSTUVWXYZ" "abcdefghijklmnopqrstuvwxyz".

Fixpoint lower_cased (s : string) : string :=
  match s with
  | EmptyString => EmptyString
  | String c rest => String (lower_cased_letter c) (lower_cased rest)
  end.

Definition begins_with_otp (chain : string) : bool :=
  substring 0 3 chain =? "otp".

Definition normalized_chain (chain : string) : string :=
  if begins_with_otp chain then "otp" else lower_cased chain.

Definition normalized (chain contract : string) (token : N) : ResolvedUAL :=
  {| blockchain := JStr (normalized_chain chain);
     contract := JStr (lower_cased contract);
     tokenId := JNum (Z.of_N token) |}.

(** Text of characters below 128, the ones this development lower-cases
    as the code does. *)
Fixpoint ascii_text (s : string) : bool :=
  match s with
  | EmptyString => true
  | String c rest => (nat_of_ascii c <? 128)%nat && ascii_text rest
  end.

(** A field that can be written between the separators of a locator. *)
Definition separator_free (s : string) : Prop :=
  has_char ":" s = false /\ has_char "/" s = false.

(** Valid inputs of the encoder: the contract contains no separator, and
    neither does the chain unless it begins with the reserved prefix (what
    follows the prefix is not written into the locator). *)
Definition valid_input (chain contract : string) : Prop :=
  (startsWith chain "otp" = true \/ separator_free chain)
  /\ separator_free contract.

End Utilities.

(* ================================================================== *)
(** * NodeBlockchainService: the transaction and read executors         *)
(* ================================================================== *)

Module NodeBlockchainService.
Import Js.
Local Open Scope js_scope.

(** [this.blockchain]: the fields the executors read. *)
Record Blockchain : Type := {
  wallet : string;
  privateKey : string;
}.

(** A contract instance: its address ([options.address]); its methods are
    reached through the provider. *)
Record Contract : Type := {
  address : string;
}.

(** The transaction envelope built by executeContractFunction. *)
Record Tx : Type := {
  from : string;
  to : string;
  data : JsVal;
  gasPrice : JsVal;
  gas : JsVal;
}.

(** The chain provider (web3).  Each primitive answers its k-th call with
    the k-th entry of its script: a value or a thrown exception.  Building
    the method object [contractInstance.methods[functionName](...args)] and
    calling the primitive on it are one scripted step. *)
Record Provider : Type := {
  estimateGas_script : nat -> Outcome JsVal;
  encodeABI_script : nat -> Outcome JsVal;
  signTransaction_script : nat -> Outcome JsVal;
  sendSignedTransaction_script : nat -> Outcome JsVal;
  call_script : nat -> Outcome JsVal;
}.

(** The provider together with what has happened so far. *)
Record Chain : Type := {
  provider : Provider;
  estimateGas_calls : nat;
  encodeABI_calls : nat;
  signTransaction_calls : nat;
  sendSignedTransaction_calls : nat;
  call_calls : nat;
  signed : list (Tx * string);   (* transactions handed to the signer, newest first *)
  broadcast : list JsVal;        (* raw transactions sent, newest first *)
  console : list JsError;        (* console.log(error, 'err'), newest first *)
}.

Definition estimateGas : M Chain JsVal := fun w =>
  (estimateGas_script (provider w) (estimateGas_calls w),
   {| provider := provider w;
      estimateGas_calls := S (estimateGas_calls w);
      encodeABI_calls := encodeABI_calls w;
      signTransaction_calls := signTransaction_calls w;
      sendSignedTransaction_calls := sendSignedTransaction_calls w;
      call_calls := call_calls w;
      signed := signed w; broadcast := broadcast w; console := console w |}).

Definition encodeABI : M Chain JsVal := fun w =>
  (encodeABI_script (provider w) (encodeABI_calls w),
   {| provider := provider w;
      estimateGas_calls := estimateGas_calls w;
      encodeABI_calls := S (encodeABI_calls w);
      signTransaction_calls := signTransaction_calls w;
      sendSignedTransaction_calls := sendSignedTransaction_calls w;
      call_calls := call_calls w;
      signed := signed w; broadcast := broadcast w; console := console w |}).

(** [web3.eth.accounts.signTransaction(tx, privateKey)]; the script gives
    the [rawTransaction] of the created transaction. *)
Definition signTransaction (tx : Tx) (key : string) : M Chain JsVal := fun w =>
  (signTransaction_script (provider w) (signTransaction_calls w),
   {| provider := provider w;
      estimateGas_calls := estimateGas_calls w;
      encodeABI_calls := encodeABI_calls w;
      signTransaction_calls := S (signTransaction_calls w);
      sendSignedTransaction_calls := sendSignedTransaction_calls w;
      call_calls := call_calls w;
      signed := (tx, key) :: signed w;
      broadcast := broadcast w; console := console w |}).

Definition sendSignedTransaction (raw : JsVal) : M Chain JsVal := fun w =>
  (sendSignedTransaction_script (provider w) (sendSignedTransaction_calls w),
   {| provider := provider w;
      estimateGas_calls := estimateGas_calls w;
      encodeABI_calls := encodeABI_calls w;
      signTransaction_calls := signTransaction_calls w;
      sendSignedTransaction_calls := S (sendSignedTransaction_calls w);
      call_calls := call_calls w;
      signed := signed w;
      broadcast := raw :: broadcast w; console := console w |}).

(** [contractInstance.methods[functionName](...args).call()] *)
Definition call : M Chain JsVal := fun w =>
  (call_script (provider w) (call_calls w),
   {| provider := provider w;
      estimateGas_calls := estimateGas_calls w;
      encodeABI_calls := encodeABI_calls w;
      signTransaction_calls := signTransaction_calls w;
      sendSignedTransaction_calls := sendSignedTransaction_calls w;
      call_calls := S (call_calls w);
      signed := signed w; broadcast := broadcast w; console := console w |}).

(** [console.log(error, 'err')] *)
Definition console_log (e : JsError) (w : Chain) : Chain :=
  {| provider := provider w;
     estimateGas_calls := estimateGas_calls w;
     encodeABI_calls := encodeABI_calls w;
     signTransaction_calls := signTransaction_calls w;
     sendSignedTransaction_calls := sendSignedTransaction_calls w;
     call_calls := call_calls w;
     signed := signed w; broadcast := broadcast w;
     console := e :: console w |}.

(** [web3.utils.toWei('100', 'Gwei')] and [web3.utils.toWei('900', 'Kwei')]. *)
Definition toWei_100_Gwei : JsVal := JStr "100000000000".
Definition toWei_900_Kwei : JsVal := JStr "900000".

Section Executors.
Variable this_blockchain : Blockchain.
Variable contractInstance : Contract.

(** The [try] block of executeContractFunction; its value is the value
    assigned to [result]. *)
Definition execute_try : M Chain JsVal :=
  gasLimit <- estimateGas ;;
  encodedABI <- encodeABI ;;
  let tx := {| from := wallet this_blockchain;
               to := address contractInstance;
               data := encodedABI;
               gasPrice := toWei_100_Gwei;
               gas := js_or gasLimit toWei_900_Kwei |} in
  rawTransaction <- signTransaction tx (privateKey this_blockchain) ;;
  sendSignedTransaction rawTransaction.

(** One turn of a loop body of the shape
    [try { result = await ... } catch (error) { result = true; console.log(error, 'err'); }]:
    the value assigned to [result] and the world afterwards. *)
Definition attempt (try_block : M Chain JsVal) (w : Chain) : JsVal * Chain :=
  match try_block w with
  | (Return v, w') => (v, w')
  | (Throw error, w') => (JBool true, console_log error w')
  end.

(** [let result; while (!result) { <attempt> } return result;]
    The loop has no bound of its own: [fuel] is the number of turns the
    model is allowed to take, and [None] means that [result] was still
    falsy when they were used up. *)
Fixpoint retry_loop (try_block : M Chain JsVal) (fuel : nat) (result : JsVal)
    (w : Chain) : option (JsVal * Chain) :=
  if truthy result then Some (result, w)
  else match fuel with
       | O => None
       | S fuel' =>
           let (result', w') := attempt try_block w in
           retry_loop try_block fuel' result' w'
       end.

(** executeContractFunction(contractInstance, functionName, args);
    [functionName] and [args] only travel to the provider. *)
Definition executeContractFunction (fuel : nat) (w : Chain)
  : option (JsVal * Chain) :=
  retry_loop execute_try fuel JUndefined w.

(** callContractFunction(contractInstance, functionName, args) *)
Definition callContractFunction (fuel : nat) (w : Chain)
  : option (JsVal * Chain) :=
  retry_loop call fuel JUndefined w.

(** The world after [n] turns of the loop. *)
Fixpoint turns (try_block : M Chain JsVal) (n : nat) (w : Chain) : Chain :=
  match n with
  | O => w
  | S m => turns try_block m (snd (attempt try_block w))
  end.

End Executors.

(** A chain on which nothing has happened yet. *)
Definition fresh (p : Provider) : Chain :=
  {| provider := p;
     estimateGas_calls := 0; encodeABI_calls := 0; signTransaction_calls := 0;
     sendSignedTransaction_calls := 0; call_calls := 0;
     signed := []; broadcast := []; console := [] |}.

(** A script given by its first answers, [dflt] afterwards. *)
Definition script {A} (l : list A) (dflt : A) : nat -> A :=
  fun k => nth k l dflt.

(** ** Two providers for the scenarios of the specification *)

Definition receipt : JsVal :=
  JObj [("status", JBool true); ("transactionHash", JStr "0xfeed")].

(** The gas estimate fails twice and then succeeds; signing and broadcasting
    always succeed. *)
Definition flaky_estimate_provider : Provider :=
  {| estimateGas_script :=
       script [Throw (Error "estimateGas failed");
               Throw (Error "estimateGas failed")] (Return (JNum 21000));
     encodeABI_script := fun _ => Return (JStr "0xa9059cbb");
     signTransaction_script := fun _ => Return (JStr "0xf86c");
     sendSignedTransaction_script := fun _ => Return receipt;
     call_script := fun _ => Return (JStr "0x5fbd") |}.

(** Nothing throws; the broadcast and the read yield [null] twice before
    they yield a value. *)
Definition late_value_provider : Provider :=
  {| estimateGas_script := fun _ => Return (JNum 21000);
     encodeABI_script := fun _ => Return (JStr "0xa9059cbb");
     signTransaction_script := fun _ => Return (JStr "0xf86c");
     sendSignedTransaction_script := script [Return JNull; Return JNull] (Return receipt);
     call_script := script [Return JNull; Return JNull] (Return (JStr "0x5fbd")) |}.

Definition hardhat : Blockchain :=
  {| wallet := "0xf39Fd6e51aad88F6F4ce6aB8827279cffFb92266";
     privateKey := "0xac0974bec39a17e36ba4a6b4d238ff944bacb478cbed5efcae784d7bf4f2ff80" |}.

Definition registry : Contract := {| address := "0x5fbd" |}.

End NodeBlockchainService.

(* ================================================================== *)
(** * AbstractClient: configuration, polling and proof validation       *)
(* ================================================================== *)

Module AbstractClient.
Import Js.
Local Open Scope js_scope.

(** ** Optional numeric options

    The numeric options are documented as numbers that may be left out:
    [None] is [undefined]. *)
Definition truthy_num (o : option Z) : bool :=
  match o with
  | Some n => negb (n =? 0)%Z
  | None => false
  end.

(** [o >= 0] *)
Definition ge_zero (o : option Z) : bool :=
  match o with
  | Some n => (0 <=? n)%Z
  | None => false
  end.

(** The value of [o] where the source has already tested it truthy. *)
Definition value_or (o : option Z) (dflt : Z) : Z :=
  match o with
  | Some n => n
  | None => dflt
  end.

(** [o ? o : dflt] *)
Definition or_default (o : option Z) (dflt : Z) : Z :=
  if truthy_num o then value_or o dflt else dflt.

(** [o && o >= 0 ? o : dflt] *)
Definition nonneg_or_default (o : option Z) (dflt : Z) : Z :=
  if truthy_num o && ge_zero o then value_or o dflt else dflt.

(** ** The client object *)

Definition defaultMaxNumberOfRetries : Z := 5.
Definition defaultTimeoutInSeconds : Z := 25.
Definition defaultNumberOfResults : Z := 2000.
Definition defaultFrequency : Z := 5.

Module STATUSES.
Definition pending : string := "PENDING".
Definition completed : string := "COMPLETED".
Definition failed : string := "FAILED".
End STATUSES.

Module ConstructorOptions.
Record t : Type := {
  endpoint : JsVal;
  port : JsVal;
  useSSL : JsVal;
  loglevel : JsVal;
  maxNumberOfRetries : option Z;
  timeoutInSeconds : option Z;
  numberOfResults : option Z;
  frequency : option Z;
}.
End ConstructorOptions.

Record Client : Type := {
  maxNumberOfRetries : Z;
  timeoutInSeconds : Z;
  numberOfResults : Z;
  frequency : Z;
  logger : JsVal;            (* new Logger(loglevel), kept as its level *)
  nodeBaseUrl : string;
}.

(** constructor(options) *)
Definition constructor (options : ConstructorOptions.t) : Outcome Client :=
  let loglevel :=
    if truthy (ConstructorOptions.loglevel options)
    then ConstructorOptions.loglevel options else JStr "error" in
  if negb (truthy (ConstructorOptions.endpoint options))
     || negb (truthy (ConstructorOptions.port options))
  then Throw (Error "Endpoint and port are required parameters")
  else Return
    {| maxNumberOfRetries :=
         nonneg_or_default (ConstructorOptions.maxNumberOfRetries options)
                           defaultMaxNumberOfRetries;
       timeoutInSeconds :=
         nonneg_or_default (ConstructorOptions.timeoutInSeconds options)
                           defaultTimeoutInSeconds;
       numberOfResults :=
         nonneg_or_default (ConstructorOptions.numberOfResults options)
                           defaultNumberOfResults;
       frequency :=
         nonneg_or_default (ConstructorOptions.frequency options)
                           defaultFrequency;
       logger := loglevel;
       nodeBaseUrl :=
         (if truthy (ConstructorOptions.useSSL options)
          then "https://" else "http://")
         ++ to_string (ConstructorOptions.endpoint options)
         ++ ":" ++ to_string (ConstructorOptions.port options) |}.

(** ** The node and the clock *)

(** What the node answers to a poll of an operation's result:
    [response.data] with its [status], [message] and [data]. *)
Record OperationResult : Type := {
  status : string;
  message : JsVal;
  data : JsVal;
}.

(** What the node answers to a poll of a search: [response.data] with its
    [itemListElement]. *)
Record SearchResult : Type := {
  itemListElement : list JsVal;
}.

(** [searchResponse.data.itemListElement.length] *)
Definition count (p : SearchResult) : Z := Z.of_nat (length (itemListElement p)).

(** An answer of the node: the time it took to arrive (ms) and either the
    [data] of the response or the rejection of the request. *)
Record Reply (A : Type) : Type := {
  took : Z;
  outcome : Outcome A;
}.
Arguments took {A} r.
Arguments outcome {A} r.

(** The node, one script per endpoint the client polls:
    - [/resolve?ids=...], answered by the handler id of the new operation;
    - [/<operation>/result/<handler_id>];
    - [/<resultType>:search/result/<handler_id>]. *)
Record Node : Type := {
  resolve_script : nat -> Reply JsVal;
  result_script : nat -> Reply OperationResult;
  search_result_script : nat -> Reply SearchResult;
}.

(** The node, a virtual clock in milliseconds and what has happened so far. *)
Record World : Type := {
  node : Node;
  now : Z;
  resolve_calls : nat;
  result_calls : nat;
  search_result_calls : nat;
  requested : list string;          (* urls requested, newest first *)
  delivered : list SearchResult;    (* payloads handed to the search callback, newest first *)
}.

Definition advance (ms : Z) (w : World) : World :=
  {| node := node w;
     now := now w + ms;
     resolve_calls := resolve_calls w;
     result_calls := result_calls w;
     search_result_calls := search_result_calls w;
     requested := requested w;
     delivered := delivered w |}.

(** The delay a timer really gets: [setTimeout] turns a delay below 1 or
    above 2^31-1 into 1. *)
Definition timer_delay (ms : Z) : Z :=
  if (ms <? 1)%Z || (2147483647 <? ms)%Z then 1%Z else ms.

(** sleepForMilliseconds(milliseconds) *)
Definition sleepForMilliseconds (milliseconds : Z) : M World unit :=
  fun w => (Return tt, advance (timer_delay milliseconds) w).

(** [axios({method: "get", url: `${nodeBaseUrl}/resolve?${ids}`, ...})],
    reduced to [response.data.handler_id]. *)
Definition axios_resolve (url : string) : M World JsVal := fun w =>
  let r := resolve_script (node w) (resolve_calls w) in
  (outcome r,
   {| node := node w;
      now := now w + Z.max 0 (took r);
      resolve_calls := S (resolve_calls w);
      result_calls := result_calls w;
      search_result_calls := search_result_calls w;
      requested := url :: requested w;
      delivered := delivered w |}).

(** [axios({method: "get", url: `${nodeBaseUrl}/${operation}/result/${handler_id}`})],
    reduced to [response.data]. *)
Definition axios_result (url : string) : M World OperationResult := fun w =>
  let r := result_script (node w) (result_calls w) in
  (outcome r,
   {| node := node w;
      now := now w + Z.max 0 (took r);
      resolve_calls := resolve_calls w;
      result_calls := S (result_calls w);
      search_result_calls := search_result_calls w;
      requested := url :: requested w;
      delivered := delivered w |}).

(** [axios({method: "get", url: `${nodeBaseUrl}/${resultType}:search/result/${handler_id}`})],
    reduced to [response.data]. *)
Definition axios_search_result (url : string) : M World SearchResult := fun w =>
  let r := search_result_script (node w) (search_result_calls w) in
  (outcome r,
   {| node := node w;
      now := now w + Z.max 0 (took r);
      resolve_calls := resolve_calls w;
      result_calls := result_calls w;
      search_result_calls := S (search_result_calls w);
      requested := url :: requested w;
      delivered := delivered w |}).

(** The world once the callback has been handed a payload. *)
Definition deliver (p : SearchResult) (w : World) : World :=
  {| node := node w;
     now := now w;
     resolve_calls := resolve_calls w;
     result_calls := result_calls w;
     search_result_calls := search_result_calls w;
     requested := requested w;
     delivered := p :: delivered w |}.

(** ** _getResult: the operation result resolver *)

Module ResultOptions.
Record t : Type := {
  handler_id : JsVal;
  operation : JsVal;
  maxNumberOfRetries : option Z;
  frequency : option Z;
}.
End ResultOptions.

Definition retries_exhausted : JsError :=
  Error "Unable to get results. Max number of retries reached.".

Definition operation_failed (operation : JsVal) (r : OperationResult) : JsError :=
  Error ("Get " ++ to_string operation ++ " failed. Reason: "
         ++ to_string (message r) ++ ".").

(** The [do { ... } while (response.data.status === PENDING)] loop of
    _getResult, entered with the current value of [retries]; it yields the
    last [response.data].  [fuel] is the number of turns the model may take
    ([None]: used up). *)
Fixpoint poll (fuel : nat) (maxNumberOfRetries frequency : Z) (url : string)
    (retries : Z) (w : World) : option (Outcome OperationResult * World) :=
  match fuel with
  | O => None
  | S fuel' =>
      if (retries >? maxNumberOfRetries)%Z then Some (Throw retries_exhausted, w)
      else
        let retries := (retries + 1)%Z in
        match (sleepForMilliseconds (frequency * 1000) ;; axios_result url) w with
        | (Throw e, w') => Some (Throw e, w')       (* logged and thrown again *)
        | (Return response_data, w') =>
            if status response_data =? STATUSES.pending
            then poll fuel' maxNumberOfRetries frequency url retries w'
            else Some (Return response_data, w')
        end
  end.

(** The settings of one call of _getResult:
    [options.maxNumberOfRetries ? options.maxNumberOfRetries : this.maxNumberOfRetries],
    the same for the frequency, and the url of [axios_config].  The
    settings are integers: a bound of [Infinity], which both tests of the
    code let through and which [retries] never exceeds, is not among
    them. *)
Definition result_maxNumberOfRetries (this : Client) (options : ResultOptions.t) : Z :=
  or_default (ResultOptions.maxNumberOfRetries options) (maxNumberOfRetries this).

Definition result_frequency (this : Client) (options : ResultOptions.t) : Z :=
  or_default (ResultOptions.frequency options) (frequency this).

Definition result_url (this : Client) (options : ResultOptions.t) : string :=
  nodeBaseUrl this ++ "/" ++ to_string (ResultOptions.operation options)
  ++ "/result/" ++ to_string (ResultOptions.handler_id options).

(** _getResult(options) *)
Definition _getResult (fuel : nat) (this : Client) (options : ResultOptions.t)
    (w : World) : option (Outcome OperationResult * World) :=
  let (_, w) := sleepForMilliseconds 500 w in
  if negb (truthy (ResultOptions.handler_id options))
     || negb (truthy (ResultOptions.operation options))
  then Some (Throw (Error "Unable to get results, need handler id and operation"), w)
  else
    let retries := 0%Z in
    let maxNumberOfRetries := result_maxNumberOfRetries this options in
    let frequency := result_frequency this options in
    let url := result_url this options in
    match poll fuel maxNumberOfRetries frequency url retries w with
    | None => None
    | Some (Throw e, w') => Some (Throw e, w')
    | Some (Return response_data, w') =>
        if status response_data =? STATUSES.failed
        then Some (Throw (operation_failed (ResultOptions.operation options)
                                           response_data), w')
        else Some (Return response_data, w')
    end.

(** ** _getSearchResult: the streaming search poller *)

Module SearchOptions.
Record t : Type := {
  handler_id : JsVal;
  resultType : JsVal;
  timeoutInSeconds : option Z;
  numberOfResults : option Z;
  frequency : option Z;
}.
End SearchOptions.

(** [timeoutFlag]: the one-shot timer armed for [deadline] has fired. *)
Definition timeoutFlag (deadline : Z) (w : World) : bool :=
  (deadline <=? now w)%Z.

(** The [do { ... } while (!timeoutFlag && numberOfResults > currentNumberOfResults)]
    loop of _getSearchResult; it yields the last [searchResponse.data].
    [cb] is the caller's callback, which may throw. *)
Fixpoint search_poll (fuel : nat) (deadline numberOfResults frequency : Z)
    (url : string) (cb : SearchResult -> Outcome unit) (w : World)
  : option (Outcome SearchResult * World) :=
  match fuel with
  | O => None
  | S fuel' =>
      match (sleepForMilliseconds (frequency * 1000) ;;
             axios_search_result url) w with
      | (Throw e, w') => Some (Throw e, w')         (* logged and thrown again *)
      | (Return searchResponse_data, w') =>
          let currentNumberOfResults := count searchResponse_data in
          let w' := deliver searchResponse_data w' in
          match cb searchResponse_data with
          | Throw e => Some (Throw e, w')
          | Return _ =>
              if negb (timeoutFlag deadline w')
                 && (numberOfResults >? currentNumberOfResults)%Z
              then search_poll fuel' deadline numberOfResults frequency url cb w'
              else Some (Return searchResponse_data, w')
          end
      end
  end.

(** The settings of one call of _getSearchResult, each
    [options.x ? options.x : this.x], and the url of [axios_config]. *)
Definition search_timeoutInSeconds (this : Client) (options : SearchOptions.t) : Z :=
  or_default (SearchOptions.timeoutInSeconds options) (timeoutInSeconds this).

Definition search_numberOfResults (this : Client) (options : SearchOptions.t) : Z :=
  or_default (SearchOptions.numberOfResults options) (numberOfResults this).

Definition search_frequency (this : Client) (options : SearchOptions.t) : Z :=
  or_default (SearchOptions.frequency options) (frequency this).

Definition search_url (this : Client) (options : SearchOptions.t) : string :=
  nodeBaseUrl this ++ "/" ++ to_string (SearchOptions.resultType options)
  ++ ":search/result/" ++ to_string (SearchOptions.handler_id options).

(** The expiry of the timer armed by
    [setTimeout(() => { timeoutFlag = true; }, timeoutInSeconds * 1000)]
    in the world [w]. *)
Definition search_deadline (this : Client) (options : SearchOptions.t)
    (w : World) : Z :=
  (now w + timer_delay (search_timeoutInSeconds this options * 1000))%Z.

(** _getSearchResult(options, cb) *)
Definition _getSearchResult (fuel : nat) (this : Client)
    (options : SearchOptions.t) (cb : SearchResult -> Outcome unit) (w : World)
  : option (Outcome SearchResult * World) :=
  if negb (truthy (SearchOptions.handler_id options))
  then Some (Throw (Error "Unable to get results, need handler id"), w)
  else
    let numberOfResults := search_numberOfResults this options in
    let frequency := search_frequency this options in
    let url := search_url this options in
    let deadline := search_deadline this options w in
    search_poll fuel deadline numberOfResults frequency url cb w.

(** ** resolve and the proof validator *)

(** The query string built by _resolveRequest: [ids=a&ids=b...]. *)
Fixpoint ids_query (firstOne : bool) (ids : list JsVal) : string :=
  match ids with
  | [] => ""
  | id :: rest =>
      (if firstOne then "ids=" else "&ids=") ++ to_string id
      ++ ids_query false rest
  end.

(** _resolveRequest(options), reduced to [response.data.handler_id]. *)
Definition _resolveRequest (this : Client) (ids : list JsVal) : M World JsVal :=
  axios_resolve (nodeBaseUrl this ++ "/resolve?" ++ ids_query true ids).

(** resolve({ ids }): the options carry the ids only, as in _fetchRootHash,
    so that _getResult runs with the client's own retry count and frequency. *)
Definition resolve (fuel : nat) (this : Client) (ids : list JsVal) (w : World)
  : option (Outcome OperationResult * World) :=
  match _resolveRequest this ids w with
  | (Throw e, w') => Some (Throw e, w')
  | (Return response_data_handler_id, w') =>
      _getResult fuel this
        {| ResultOptions.handler_id := response_data_handler_id;
           ResultOptions.operation := JStr "resolve";
           ResultOptions.maxNumberOfRetries := None;
           ResultOptions.frequency := None |} w'
  end.

(** [result.data[0][assertionId].rootHash] *)
Definition rootHash_of (result : OperationResult) (assertionId : string)
  : Outcome JsVal :=
  match get_index (data result) 0 with
  | Throw e => Throw e
  | Return first =>
      match get_prop first assertionId with
      | Throw e => Throw e
      | Return entry => get_prop entry "rootHash"
      end
  end.

(** _fetchRootHash(assertionId) *)
Definition _fetchRootHash (fuel : nat) (this : Client) (assertionId : string)
    (w : World) : option (Outcome JsVal * World) :=
  match resolve fuel this [JStr assertionId] w with
  | None => None
  | Some (Throw e, w') => Some (Throw e, w')
  | Some (Return result, w') => Some (rootHash_of result assertionId, w')
  end.

(** An entry of [assertion.proofs]. *)
Record ProofEntry : Type := {
  triple : JsVal;
  tripleHash : JsVal;
  proof : JsVal;
}.

Record Assertion : Type := {
  assertionId : string;
  proofs : list ProofEntry;
}.

(** An element of [validationResult]: [{ triple, valid }]. *)
Record ValidatedTriple : Type := {
  validated_triple : JsVal;
  valid : JsVal;
}.

(** _validateProof(obj, rootHash): every statement of the body is commented
    out in the source, so the call evaluates to [undefined]. *)
Definition _validateProof (obj : ProofEntry) (rootHash : JsVal) : JsVal :=
  JUndefined.

(** The inner [for (let obj of assertion.proofs)] loop of _performValidation,
    pushing onto [validationResult]. *)
Fixpoint validate_proofs (rootHash : JsVal) (proofs : list ProofEntry)
    (validationResult : list ValidatedTriple) : list ValidatedTriple :=
  match proofs with
  | [] => validationResult
  | obj :: rest =>
      if is_null (proof obj)
      then validate_proofs rootHash rest validationResult          (* continue *)
      else
        let verified := _validateProof obj rootHash in
        let validatedTriple := {| validated_triple := triple obj;
                                  valid := verified |} in
        validate_proofs rootHash rest
          (validationResult ++ [validatedTriple])%list
  end.

(** The outer [for (let assertion of assertions)] loop. *)
Fixpoint validate_assertions (fuel : nat) (this : Client)
    (assertions : list Assertion) (validationResult : list ValidatedTriple)
    (w : World) : option (Outcome (list ValidatedTriple) * World) :=
  match assertions with
  | [] => Some (Return validationResult, w)
  | assertion :: rest =>
      match _fetchRootHash fuel this (assertionId assertion) w with
      | None => None
      | Some (Throw e, w') => Some (Throw e, w')
      | Some (Return rootHash, w') =>
          validate_assertions fuel this rest
            (validate_proofs rootHash (proofs assertion) validationResult) w'
      end
  end.

(** _performValidation(assertions) *)
Definition _performValidation (fuel : nat) (this : Client)
    (assertions : list Assertion) (w : World)
  : option (Outcome (list ValidatedTriple) * World) :=
  validate_assertions fuel this assertions [] w.

(** The world after one turn of the polling loop of _getResult: the sleep
    and the request. *)
Definition after_poll (frequency : Z) (url : string) (w : World) : World :=
  snd ((sleepForMilliseconds (frequency * 1000) ;; axios_result url) w).

(** The answer the next poll of an operation's result receives. *)
Definition next_result (w : World) : Outcome OperationResult :=
  outcome (result_script (node w) (result_calls w)).

(** The world after one tick of the search loop: the sleep, the request and
    the callback's turn. *)
Definition after_search_tick (frequency : Z) (url : string) (w : World) : World :=
  match (sleepForMilliseconds (frequency * 1000) ;;
         axios_search_result url) w with
  | (Return p, w') => deliver p w'
  | (Throw _, w') => w'
  end.

(** The answer the next poll of a search receives. *)
Definition next_search_result (w : World) : Outcome SearchResult :=
  outcome (search_result_script (node w) (search_result_calls w)).

(** A node that answers every poll of a result with PENDING. *)
Definition always_pending (n : Node) : Prop :=
  forall k, exists r,
    outcome (result_script n k) = Return r /\ status r = STATUSES.pending.

(** A node that answers every poll of a result with a status response:
    no request is rejected, and the status is one of the three of the
    protocol. *)
Definition answers_with_status (n : Node) : Prop :=
  forall k, exists r,
    outcome (result_script n k) = Return r
    /\ (status r = STATUSES.pending \/ status r = STATUSES.completed
        \/ status r = STATUSES.failed).

(** A node that answers every poll of a search with a payload the
    callback [cb] accepts. *)
Definition search_answers (n : Node) (cb : SearchResult -> Outcome unit) : Prop :=
  forall k, exists p,
    outcome (search_result_script n k) = Return p /\ cb p = Return tt.

(** [s.includes(t)] *)
Fixpoint includes (s t : string) : bool :=
  String.prefix t s
  || match s with
     | EmptyString => false
     | String _ rest => includes rest t
     end.

(** The message of a thrown error. *)
Definition error_message (e : JsError) : string :=
  match e with
  | Error msg | TypeError msg => msg
  end.

(** A world in which nothing has happened yet. *)
Definition fresh (n : Node) : World :=
  {| node := n; now := 0;
     resolve_calls := 0; result_calls := 0; search_result_calls := 0;
     requested := []; delivered := [] |}.

Definition replied {A} (a : A) : Reply A := {| took := 0; outcome := Return a |}.
Definition rejected {A} (msg : string) : Reply A :=
  {| took := 0; outcome := Throw (Error msg) |}.

(** A script given by its first answers, [dflt] afterwards. *)
Definition script {A} (l : list A) (dflt : A) : nat -> A :=
  fun k => nth k l dflt.

(** ** Clients, options and nodes for the scenarios of the specification *)

Definition default_client : Client :=
  {| maxNumberOfRetries := defaultMaxNumberOfRetries;
     timeoutInSeconds := defaultTimeoutInSeconds;
     numberOfResults := defaultNumberOfResults;
     frequency := defaultFrequency;
     logger := JStr "error";
     nodeBaseUrl := "http://localhost:8900" |}.

Definition resolve_options : ResultOptions.t :=
  {| ResultOptions.handler_id := JStr "h-1";
     ResultOptions.operation := JStr "resolve";
     ResultOptions.maxNumberOfRetries := None;
     ResultOptions.frequency := None |}.

Definition pending_result : OperationResult :=
  {| status := "PENDING"; message := JUndefined; data := JUndefined |}.

Definition completed_result (payload : JsVal) : OperationResult :=
  {| status := "COMPLETED"; message := JUndefined; data := payload |}.

Definition failed_result (msg : string) : OperationResult :=
  {| status := "FAILED"; message := JStr msg; data := JUndefined |}.

Definition no_search : nat -> Reply SearchResult :=
  fun _ => rejected "no search".

Definition search_options : SearchOptions.t :=
  {| SearchOptions.handler_id := JStr "h-2";
     SearchOptions.resultType := JStr "entities";
     SearchOptions.timeoutInSeconds := None;
     SearchOptions.numberOfResults := None;
     SearchOptions.frequency := None |}.

(** A search payload with [n] items. *)
Definition payload_of (n : nat) : SearchResult :=
  {| itemListElement := repeat (JObj [("@type", JStr "ListItem")]) n |}.

(** A node whose search endpoint answers with payloads of the given sizes,
    and with the last size [final] from then on. *)
Definition node_with_counts (sizes : list nat) (final : nat) : Node :=
  {| resolve_script := fun _ => rejected "no resolve";
     result_script := fun _ => rejected "no result";
     search_result_script :=
       script (map (fun n => replied (payload_of n)) sizes)
              (replied (payload_of final)) |}.

(** A callback that never throws. *)
Definition quiet_callback : SearchResult -> Outcome unit := fun _ => Return tt.

(** An assertion with one triple whose proof is the empty path and whose
    hash is the root hash itself (a one-leaf tree: the proof matches), and a
    node that resolves the assertion to that root hash. *)
Definition one_leaf_entry : ProofEntry :=
  {| triple := JStr "<uuid:1> <schema:name> 'OT' .";
     tripleHash := JStr "0x7a3f";
     proof := JArr [] |}.

Definition unproved_entry : ProofEntry :=
  {| triple := JStr "<uuid:1> <schema:city> <uuid:belgrade> .";
     tripleHash := JStr "0x11c2";
     proof := JNull |}.

Definition one_leaf_assertion : Assertion :=
  {| assertionId := "assertion-1";
     proofs := [unproved_entry; one_leaf_entry] |}.

Definition one_leaf_node : Node :=
  {| resolve_script := fun _ => replied (JStr "h-1");
     result_script := fun _ =>
       replied (completed_result
                  (JArr [JObj [("assertion-1",
                                JObj [("rootHash", JStr "0x7a3f")])]]));
     search_result_script := no_search |}.

(** A node whose result endpoint follows [results] and then stays PENDING. *)
Definition node_with_results (results : list OperationResult) : Node :=
  {| resolve_script := fun _ => replied (JStr "h-1");
     result_script := script (map replied results) (replied pending_result);
     search_result_script := no_search |}.

End AbstractClient.

(* ================================================================== *)
(** * utilities: the other helpers                                      *)
(* ================================================================== *)

Module Helpers.
Import Js.

(** ** toNumber *)

Definition hex_digit_of (c : ascii) : option Z :=
  let n := nat_of_ascii c in
  if (48 <=? n)%nat && (n <=? 57)%nat then Some (Z.of_nat (n - 48))
  else if (97 <=? n)%nat && (n <=? 102)%nat then Some (Z.of_nat (n - 87))
  else if (65 <=? n)%nat && (n <=? 70)%nat then Some (Z.of_nat (n - 55))
  else None.

(** The longest run of hexadecimal digits at the head of [s], folded into
    [acc]; [seen] records whether a digit was read. *)
Fixpoint read_hex_digits (s : string) (acc : Z) (seen : bool) : option Z :=
  match s with
  | String c rest =>
      match hex_digit_of c with
      | Some d => read_hex_digits rest (acc * 16 + d) true
      | None => if seen then Some acc else None
      end
  | EmptyString => if seen then Some acc else None
  end.

(** With radix 16 a leading [0x] or [0X] is dropped. *)
Definition strip_0x (s : string) : string :=
  match s with
  | String c1 (String c2 rest) =>
      if Ascii.eqb c1 "0" && (Ascii.eqb c2 "x" || Ascii.eqb c2 "X")
      then rest else s
  | _ => s
  end.

(** [parseInt(s, 16)]: leading white space, an optional sign, an optional
    [0x], then hexadecimal digits; [NaN] when no digit follows. *)
Definition parseInt16 (s : string) : JsVal :=
  let number (sign : Z) (digits : string) :=
    match read_hex_digits (strip_0x digits) 0 false with
    | Some z => JNum (sign * z)
    | None => JNaN
    end in
  match skip_spaces s with
  | EmptyString => JNaN
  | String c rest as t =>
      if Ascii.eqb c "-" then number (-1)%Z rest
      else if Ascii.eqb c "+" then number 1%Z rest
      else number 1%Z t
  end.

(** [s.slice(n)] for a position [n] counted from the start. *)
Fixpoint slice (n : nat) (s : string) : string :=
  match n, s with
  | O, _ => s
  | S m, String _ rest => slice m rest
  | S _, EmptyString => EmptyString
  end.

(** toNumber(hex) *)
Definition toNumber (hex : string) : JsVal := parseInt16 (slice 2 hex).

(** The lower-case hexadecimal numeral of [n], without prefix. *)
Definition nat_to_hex (n : nat) : string :=
  HexadecimalString.NilEmpty.string_of_uint (Nat.to_hex_uint n).

(** ** capitalizeFirstLetter *)

Definition upper_char (c : ascii) : ascii :=
  let n := nat_of_ascii c in
  if (97 <=? n)%nat && (n <=? 122)%nat then ascii_of_nat (n - 32) else c.

(** Characters below 128: the ones whose upper case [upper_char] gives
    as JavaScript does. *)
Fixpoint is_ascii (s : string) : bool :=
  match s with
  | EmptyString => true
  | String c rest => (nat_of_ascii c <? 128)%nat && is_ascii rest
  end.

(** capitalizeFirstLetter(str): [str[0].toUpperCase() + str.slice(1)];
    [str[0]] is [undefined] for the empty string. *)
Definition capitalizeFirstLetter (str : string) : Outcome string :=
  match str with
  | EmptyString => Throw (nullish_access "undefined" "toUpperCase")
  | String c _ => Return (String (upper_char c) "" ++ slice 1 str)
  end.

(** ** deriveRepository

    The constants of constants.js are not among the sources: the names of
    the graph locations and states and of the repositories are parameters. *)
Record GraphConstants : Type := {
  PUBLIC_KG : string;
  LOCAL_KG : string;
  CURRENT : string;
  HISTORICAL : string;
  PUBLIC_CURRENT : JsVal;
  PUBLIC_HISTORY : JsVal;
  PRIVATE_CURRENT : JsVal;
  PRIVATE_HISTORY : JsVal;
}.

Definition unknown_graph (graphLocation graphState : string) : JsError :=
  Error ("Unknown graph location and state: " ++ graphLocation ++ ", "
         ++ graphState).

(** deriveRepository(graphLocation, graphState): a [switch] on the
    concatenation, the first matching [case] wins. *)
Definition deriveRepository (k : GraphConstants)
    (graphLocation graphState : string) : Outcome JsVal :=
  let subject := graphLocation ++ graphState in
  if subject =? PUBLIC_KG k ++ CURRENT k then Return (PUBLIC_CURRENT k)
  else if subject =? PUBLIC_KG k ++ HISTORICAL k then Return (PUBLIC_HISTORY k)
  else if subject =? LOCAL_KG k ++ CURRENT k then Return (PRIVATE_CURRENT k)
  else if subject =? LOCAL_KG k ++ HISTORICAL k then Return (PRIVATE_HISTORY k)
  else Throw (unknown_graph graphLocation graphState).

(** The constants as the node software names them. *)
Definition node_constants : GraphConstants :=
  {| PUBLIC_KG := "PUBLIC_KG"; LOCAL_KG := "LOCAL_KG";
     CURRENT := "CURRENT"; HISTORICAL := "HISTORICAL";
     PUBLIC_CURRENT := JStr "publicCurrent";
     PUBLIC_HISTORY := JStr "publicHistory";
     PRIVATE_CURRENT := JStr "privateCurrent";
     PRIVATE_HISTORY := JStr "privateHistory" |}.

(** ** getOperationStatusObject *)

Record OperationResponse : Type := {
  response_status : JsVal;
  response_data : JsVal;
}.

(** [v?.key] *)
Definition get_optional (v : JsVal) (key : string) : JsVal :=
  match v with
  | JUndefined | JNull => JUndefined
  | _ => match get_prop v key with
         | Return x => x
         | Throw _ => JUndefined
         end
  end.

Fixpoint indexed (i : nat) (items : list JsVal) : list (string * JsVal) :=
  match items with
  | [] => []
  | x :: rest => (nat_to_string i, x) :: indexed (S i) rest
  end.

Fixpoint characters (s : string) : list JsVal :=
  match s with
  | EmptyString => []
  | String c rest => JStr (String c "") :: characters rest
  end.

(** The own enumerable properties a spread [...v] copies. *)
Definition spread (v : JsVal) : list (string * JsVal) :=
  match v with
  | JObj fields => fields
  | JArr items => indexed 0 items
  | JStr s => indexed 0 (characters s)
  | _ => []
  end.

(** getOperationStatusObject(operationResult, operationId).  An object
    literal is kept with the properties written last in front, so that
    [lookup] reads the value that prevails; the order in which the keys
    would be enumerated is not modelled. *)
Definition getOperationStatusObject (operationResult : OperationResponse)
    (operationId : JsVal) : JsVal :=
  let operationData :=
    if truthy (get_optional (response_data operationResult) "errorType")
    then (spread (response_data operationResult)
          ++ [("status", response_status operationResult)])%list
    else [("status", response_status operationResult)] in
  JObj (operationData ++ [("operationId", operationId)])%list.

(** [key in fields] *)
Definition has_key (key : string) (fields : list (string * JsVal)) : bool :=
  existsb (fun kv => fst kv =? key) fields.

(** ** toNQuads

    [jsonld.canonize] is a library call: a parameter. *)
Definition newline : ascii := ascii_of_nat 10.

Definition canonize_options (inputFormat : JsVal) : list (string * JsVal) :=
  ([("algorithm", JStr "URDNA2015"); ("format", JStr "application/n-quads")]
   ++ (if truthy inputFormat then [("inputFormat", inputFormat)] else []))%list.

(** toNQuads(content, inputFormat) *)
Definition toNQuads
    (canonize : JsVal -> list (string * JsVal) -> Outcome string)
    (content inputFormat : JsVal) : Outcome (list string) :=
  match canonize content (canonize_options inputFormat) with
  | Throw e => Throw e
  | Return canonized =>
      Return (filter (fun x => negb (x =? "")) (split newline canonized))
  end.

(** An n-quads document: every line followed by a line feed. *)
Fixpoint document (lines : list string) : string :=
  match lines with
  | [] => ""
  | l :: rest => l ++ String newline (document rest)
  end.

End Helpers.

(* ================================================================== *)
(** * utilities: handleContractUpdates                                  *)
(* ================================================================== *)

Module ContractUpdates.
Import Js.

(** What the decorated function [func] throws: an instance of
    BlockchainError (the class exported by custom-errors), with the fields
    the handler reads, or anything else. *)
Record BlockchainErrorFields : Type := {
  contractName : string;
  blockchain : string;
}.

Inductive Failure : Type :=
| BlockchainError (fields : BlockchainErrorFields) (message : string)
| OtherError (e : JsError).

(** What the decorator itself throws: the error of [func] again, an error
    of one of the calls of the handler, or the [ReferenceError] of an
    identifier that is bound nowhere. *)
Inductive Raised : Type :=
| Again (error : Failure)
| FromHandler (e : JsError)
| ReferenceError (identifier : string).

Inductive Ending : Type :=
| Returned (v : JsVal)
| Threw (r : Raised).

(** The decorated function and the contract, as scripts:
    [func(...args)], [contractInstance.methods.status.call()] and
    [baseObject.updateContractInstance(contractName, blockchain)]. *)
Record Scripts : Type := {
  func_script : nat -> JsVal + Failure;
  status_script : nat -> Outcome JsVal;
  update_script : nat -> Outcome unit;
}.

Record State : Type := {
  scripts : Scripts;
  func_calls : nat;
  status_calls : nat;
  updated : list (string * string);   (* updateContractInstance calls, newest first *)
}.

Definition func (st : State) : (JsVal + Failure) * State :=
  (func_script (scripts st) (func_calls st),
   {| scripts := scripts st; func_calls := S (func_calls st);
      status_calls := status_calls st; updated := updated st |}).

Definition status_call : M State JsVal := fun st =>
  (status_script (scripts st) (status_calls st),
   {| scripts := scripts st; func_calls := func_calls st;
      status_calls := S (status_calls st); updated := updated st |}).

Definition updateContractInstance (name chain : string) : M State unit :=
  fun st =>
    (update_script (scripts st) (length (updated st)),
     {| scripts := scripts st; func_calls := func_calls st;
        status_calls := status_calls st;
        updated := (name, chain) :: updated st |}).

(** [v === false] *)
Definition is_false (v : JsVal) : bool :=
  match v with
  | JBool false => true
  | _ => false
  end.

(** [attempt === v] for the number [attempt] *)
Definition is_number (attempt : Z) (v : JsVal) : bool :=
  match v with
  | JNum z => (attempt =? z)%Z
  | _ => false
  end.

(** [attempt <= maxAttempts]; a bound left out compares as false. *)
Definition within (attempt : Z) (maxAttempts : option Z) : bool :=
  match maxAttempts with
  | Some m => (attempt <=? m)%Z
  | None => false
  end.

(** [if (error instanceof BlockchainError) { ... }] *)
Definition refresh_contract (error : Failure) : M State unit :=
  match error with
  | BlockchainError fields _ =>
      bind status_call (fun status =>
        if is_false status
        then updateContractInstance (contractName fields) (blockchain fields)
        else ret tt)
  | OtherError _ => ret tt
  end.

Section Decorator.

(** The identifier [maxRetries] is declared neither in the function nor in
    the module: its value is what the global scope gives it, [None] when
    the global scope does not define it either. *)
Variable maxRetries : option JsVal.
Variable maxAttempts : option Z.

(** The [while (attempt <= maxAttempts)] loop of the decorated function;
    [fuel] is the number of turns the model may take. *)
Fixpoint attempts (fuel : nat) (attempt : Z) (st : State)
  : option (Ending * State) :=
  match fuel with
  | O => None
  | S fuel' =>
      if within attempt maxAttempts then
        match func st with
        | (inl v, st') => Some (Returned v, st')
        | (inr error, st') =>
            match refresh_contract error st' with
            | (Throw e, st'') => Some (Threw (FromHandler e), st'')
            | (Return _, st'') =>
                match maxRetries with
                | None => Some (Threw (ReferenceError "maxRetries"), st'')
                | Some bound =>
                    if is_number attempt bound
                    then Some (Threw (Again error), st'')
                    else attempts fuel' (attempt + 1) st''
                end
            end
        end
      else Some (Returned JNull, st)
  end.

(** handleContractUpdates(func, maxAttempts)(...args) *)
Definition handleContractUpdates (fuel : nat) (st : State)
  : option (Ending * State) :=
  attempts fuel 1 st.

End Decorator.

Definition fresh (s : Scripts) : State :=
  {| scripts := s; func_calls := 0; status_calls := 0; updated := [] |}.

(** A function that fails once with a stale contract and would succeed
    when called again. *)
Definition stale_once : Scripts :=
  {| func_script := fun k =>
       match k with
       | O => inr (BlockchainError {| contractName := "AssetRegistry";
                                      blockchain := "hardhat" |}
                                   "contract is stale")
       | S _ => inl (JStr "done")
       end;
     status_script := fun _ => Return (JBool false);
     update_script := fun _ => Return tt |}.

End ContractUpdates.

(* ================================================================== *)
(** * NodeBlockchainService: chain selection and asset creation         *)
(* ================================================================== *)

Module AssetOperations.
Import Js NodeBlockchainService.

(** The constants of constants.js are not among the sources: parameters. *)
Record Constants : Type := {
  HOLDING_TIME_IN_YEARS : JsVal;
  PUBLISH_TOKEN_AMOUNT : JsVal;
  DEFAULT_PUBLISH_VISIBILITY : JsVal;
  DEFAULT_COMMIT_OFFSET : JsVal;
  AVAILABLE_BLOCKCHAINS : list string;
  VISIBILITY : list (string * JsVal);
}.

(** An entry of [config.blockchainConfig]. *)
Record ChainConfig : Type := {
  rpc : JsVal;
  hubContract : JsVal;
  account : Blockchain;
  title : JsVal;
}.

Record Config : Type := {
  default_blockchain : JsVal;                       (* config.blockchain *)
  blockchainConfig : list (string * ChainConfig);
}.

(** The contracts initializeContracts binds. *)
Record Contracts : Type := {
  hub : Contract;
  AssetRegistryContract : Contract;
  UAIRegistryContract : Contract;
  TokenContract : Contract;
}.

(** The service object.  [this.blockchain] is the very entry of the
    configuration it was taken from: it is kept as the key of that entry,
    so that a write through [this.blockchain] is a write into the
    configuration. *)
Record Service : Type := {
  config : Config;
  blockchain : option string;
  this_hubContract : option Contract;
  this_AssetRegistryContract : option Contract;
  this_UAIRegistryContract : option Contract;
  this_TokenContract : option Contract;
}.

(** The options of the asset operations. *)
Record Options : Type := {
  options_blockchain : JsVal;
  holdingTimeInYears : JsVal;
  tokenAmount : JsVal;
  visibility : JsVal;
  commitOffset : JsVal;
}.

(** The names every plain object inherits from [Object.prototype].  The
    tables of this module ([config.blockchainConfig] and [VISIBILITY]) hold
    their own entries only: a read under one of these names that finds no
    entry of the table yields, in the code, the inherited member and not
    [undefined].  Such reads are outside the tables as they are modelled
    here, and the properties below are stated for the other names. *)
Definition Object_prototype_names : list string :=
  ["constructor"; "__proto__"; "hasOwnProperty"; "isPrototypeOf";
   "propertyIsEnumerable"; "toLocaleString"; "toString"; "valueOf";
   "__defineGetter__"; "__defineSetter__"; "__lookupGetter__";
   "__lookupSetter__"].

Definition inherited (key : string) : bool :=
  existsb (String.eqb key) Object_prototype_names.

Fixpoint find_chain (key : string) (entries : list (string * ChainConfig))
  : option ChainConfig :=
  match entries with
  | [] => None
  | (k, entry) :: rest => if k =? key then Some entry else find_chain key rest
  end.

Definition with_title (name : JsVal) (entry : ChainConfig) : ChainConfig :=
  {| rpc := rpc entry; hubContract := hubContract entry;
     account := account entry; title := name |}.

(** [entries[key].title = name] *)
Fixpoint write_title (key : string) (name : JsVal)
    (entries : list (string * ChainConfig)) : list (string * ChainConfig) :=
  match entries with
  | [] => []
  | (k, entry) :: rest =>
      if k =? key then (k, with_title name entry) :: rest
      else (k, entry) :: write_title key name rest
  end.

(** [this.blockchain], read through the configuration. *)
Definition this_blockchain (this : Service) : option ChainConfig :=
  match blockchain this with
  | Some key => find_chain key (blockchainConfig (config this))
  | None => None
  end.

Section Service.
Variable constants : Constants.

(** blockchainIsAvailable(options):
    [AVAILABLE_BLOCKCHAINS.find((b) => b === options.blockchain)] *)
Definition blockchainIsAvailable (options : Options) : JsVal :=
  match find (fun b => match options_blockchain options with
                       | JStr s => b =? s
                       | _ => false
                       end) (AVAILABLE_BLOCKCHAINS constants) with
  | Some b => JStr b
  | None => JUndefined
  end.

(** The two branches of getBlockchain, which differ by the name only:
    [if (blockchainConfig[name]) { this.blockchain = blockchainConfig[name];
    this.blockchain.title = name; return this.blockchain; } throw ...]
    for a name that is not [inherited]. *)
Definition select (name : JsVal) (this : Service) : Outcome ChainConfig * Service :=
  let key := to_string name in
  match find_chain key (blockchainConfig (config this)) with
  | Some entry =>
      (Return (with_title name entry),
       {| config :=
            {| default_blockchain := default_blockchain (config this);
               blockchainConfig :=
                 write_title key name (blockchainConfig (config this)) |};
          blockchain := Some key;
          this_hubContract := this_hubContract this;
          this_AssetRegistryContract := this_AssetRegistryContract this;
          this_UAIRegistryContract := this_UAIRegistryContract this;
          this_TokenContract := this_TokenContract this |})
  | None => (Throw (Error "Blockchain configuration is missing."), this)
  end.

(** getBlockchain(options) *)
Definition getBlockchain (options : Options) : M Service ChainConfig :=
  fun this =>
    if truthy (options_blockchain options)
       && truthy (blockchainIsAvailable options)
    then select (options_blockchain options) this
    else select (default_blockchain (config this)) this.

(** The chain an operation is meant to run on: the requested one when it
    is a non-empty name among the available chains, the default one
    otherwise. *)
Definition chosen (options : Options) (this : Service) : JsVal :=
  match options_blockchain options with
  | JStr s =>
      if negb (s =? "") && existsb (String.eqb s) (AVAILABLE_BLOCKCHAINS constants)
      then JStr s else default_blockchain (config this)
  | _ => default_blockchain (config this)
  end.

(** getCommitOffset(options) *)
Definition getCommitOffset (options : Options) : JsVal :=
  if truthy (commitOffset options) then commitOffset options
  else DEFAULT_COMMIT_OFFSET constants.


(** getTransactionResponse(receipt): [receipt.logs.forEach] with a
    callback whose statements are all commented out, then a constant. *)
Definition getTransactionResponse (receipt : JsVal) : Outcome string :=
  match get_prop receipt "logs" with
  | Throw e => Throw e
  | Return (JArr _) =>
      Return "0x0000000000000000000000000000000000000000000000000000000000000006"
  | Return JUndefined => Throw (nullish_access "undefined" "forEach")
  | Return JNull => Throw (nullish_access "null" "forEach")
  | Return _ => Throw (TypeError "receipt.logs.forEach is not a function")
  end.

(** The constructors of web3 are library calls: parameters.
    [new Web3(rpc)] and [new this.web3.eth.Contract(abi, address)]. *)
Variable new_Web3 : JsVal -> Outcome unit.
Variable new_Contract : JsVal -> Outcome Contract.

Definition set_hubContract (c : Contract) (this : Service) : Service :=
  {| config := config this; blockchain := blockchain this;
     this_hubContract := Some c;
     this_AssetRegistryContract := this_AssetRegistryContract this;
     this_UAIRegistryContract := this_UAIRegistryContract this;
     this_TokenContract := this_TokenContract this |}.

Definition set_AssetRegistryContract (c : Contract) (this : Service) : Service :=
  {| config := config this; blockchain := blockchain this;
     this_hubContract := this_hubContract this;
     this_AssetRegistryContract := Some c;
     this_UAIRegistryContract := this_UAIRegistryContract this;
     this_TokenContract := this_TokenContract this |}.

Definition set_UAIRegistryContract (c : Contract) (this : Service) : Service :=
  {| config := config this; blockchain := blockchain this;
     this_hubContract := this_hubContract this;
     this_AssetRegistryContract := this_AssetRegistryContract this;
     this_UAIRegistryContract := Some c;
     this_TokenContract := this_TokenContract this |}.

Definition set_TokenContract (c : Contract) (this : Service) : Service :=
  {| config := config this; blockchain := blockchain this;
     this_hubContract := this_hubContract this;
     this_AssetRegistryContract := this_AssetRegistryContract this;
     this_UAIRegistryContract := this_UAIRegistryContract this;
     this_TokenContract := Some c |}.

(** initializeContracts(), for the chain [chain] that [this.blockchain]
    refers to; it yields the contracts it has bound. *)
Definition initializeContracts (fuel : nat) (chain : ChainConfig)
    (this : Service) (w : Chain)
  : option (Outcome Contracts * Service * Chain) :=
  match new_Contract (hubContract chain) with
  | Throw e => Some (Throw e, this, w)
  | Return hubContract =>
  let this := set_hubContract hubContract this in
  match callContractFunction fuel w with
  | None => None
  | Some (assetRegistryAddress, w) =>
  match new_Contract assetRegistryAddress with
  | Throw e => Some (Throw e, this, w)
  | Return assetRegistry =>
  let this := set_AssetRegistryContract assetRegistry this in
  match callContractFunction fuel w with
  | None => None
  | Some (UAIRegistryAddress, w) =>
  match new_Contract UAIRegistryAddress with
  | Throw e => Some (Throw e, this, w)
  | Return uaiRegistry =>
  let this := set_UAIRegistryContract uaiRegistry this in
  match callContractFunction fuel w with
  | None => None
  | Some (tokenAddress, w) =>
  match new_Contract tokenAddress with
  | Throw e => Some (Throw e, this, w)
  | Return token =>
      Some (Return {| hub := hubContract;
                      AssetRegistryContract := assetRegistry;
                      UAIRegistryContract := uaiRegistry;
                      TokenContract := token |},
            set_TokenContract token this, w)
  end end end end end end end.

(** createAsset(requestData, options) *)
Definition createAsset (fuel : nat) (requestData : JsVal) (options : Options)
    (this : Service) (w : Chain)
  : option (Outcome JsVal * Service * Chain) :=
  match getBlockchain options this with
  | (Throw e, this) => Some (Throw e, this, w)
  | (Return chain, this) =>
  match new_Web3 (rpc chain) with
  | Throw e => Some (Throw e, this, w)
  | Return _ =>
  match initializeContracts fuel chain this w with
  | None => None
  | Some (Throw e, this, w) => Some (Throw e, this, w)
  | Some (Return bound, this, w) =>
  match executeContractFunction (account chain) (TokenContract bound) fuel w with
  | None => None
  | Some (_, w) =>
  match executeContractFunction (account chain) (AssetRegistryContract bound)
          fuel w with
  | None => None
  | Some (receipt, w) =>
  match getTransactionResponse receipt with
  | Throw e => Some (Throw e, this, w)
  | Return UAIHex => Some (Return (Helpers.toNumber UAIHex), this, w)
  end end end end end end.

End Service.

(** ** A configuration for the scenarios *)

Definition hardhat_entry : ChainConfig :=
  {| rpc := JStr "http://localhost:8545";
     hubContract := JStr "0x5FbDB2315678afecb367f032d93F642f64180aa3";
     account := hardhat;
     title := JUndefined |}.

Definition otp_entry : ChainConfig :=
  {| rpc := JStr "wss://parachain-rpc.origin-trail.network";
     hubContract := JStr "0x5fA7916c48Fe6D5F1738d12Ad234b78c90B4cAdA";
     account := hardhat;
     title := JUndefined |}.

Definition demo_constants : Constants :=
  {| HOLDING_TIME_IN_YEARS := JNum 2;
     PUBLISH_TOKEN_AMOUNT := JNum 15;
     DEFAULT_PUBLISH_VISIBILITY := JNum 1;
     DEFAULT_COMMIT_OFFSET := JNum 0;
     AVAILABLE_BLOCKCHAINS := ["otp"; "hardhat"];
     VISIBILITY := [("public", JNum 1); ("private", JNum 0)] |}.

Definition demo_service : Service :=
  {| config := {| default_blockchain := JStr "hardhat";
                  blockchainConfig := [("hardhat", hardhat_entry);
                                       ("otp", otp_entry)] |};
     blockchain := None;
     this_hubContract := None; this_AssetRegistryContract := None;
     this_UAIRegistryContract := None; this_TokenContract := None |}.

(** A service that is configured for the default chain only. *)
Definition hardhat_only : Service :=
  {| config := {| default_blockchain := JStr "hardhat";
                  blockchainConfig := [("hardhat", hardhat_entry)] |};
     blockchain := None;
     this_hubContract := None; this_AssetRegistryContract := None;
     this_UAIRegistryContract := None; this_TokenContract := None |}.

(** Constructors of web3 that accept any endpoint and any address written
    as a string. *)
Definition web3_at (rpc_ : JsVal) : Outcome unit := Return tt.

Definition contract_at (address_ : JsVal) : Outcome Contract :=
  match address_ with
  | JStr a => Return {| address := a |}
  | _ => Throw (Error "Provided address is invalid")
  end.

Definition receipt_with_logs : JsVal :=
  JObj [("status", JBool true); ("logs", JArr [])].

(** A chain on which every read and every transaction succeeds at once. *)
Definition publishing_provider : Provider :=
  {| estimateGas_script := fun _ => Return (JNum 21000);
     encodeABI_script := fun _ => Return (JStr "0xa9059cbb");
     signTransaction_script := fun _ => Return (JStr "0xf86c");
     sendSignedTransaction_script := fun _ => Return receipt_with_logs;
     call_script := fun _ => Return (JStr "0x5fbd") |}.

(** The same chain, on which the gas estimate of the second transaction
    (the creation of the asset) fails. *)
Definition reverting_provider : Provider :=
  {| estimateGas_script :=
       script [Return (JNum 21000)] (Throw (Error "execution reverted"));
     encodeABI_script := fun _ => Return (JStr "0xa9059cbb");
     signTransaction_script := fun _ => Return (JStr "0xf86c");
     sendSignedTransaction_script := fun _ => Return receipt_with_logs;
     call_script := fun _ => Return (JStr "0x5fbd") |}.

Definition no_options : Options :=
  {| options_blockchain := JUndefined; holdingTimeInYears := JUndefined;
     tokenAmount := JUndefined; visibility := JUndefined;
     commitOffset := JUndefined |}.

Definition on_chain (name : string) : Options :=
  {| options_blockchain := JStr name; holdingTimeInYears := JUndefined;
     tokenAmount := JUndefined; visibility := JUndefined;
     commitOffset := JUndefined |}.

End AssetOperations.

(* ================================================================== *)
(** * What the executors keep true of the chain                         *)
(* ================================================================== *)

Module ExecutorInvariants.
Import Js NodeBlockchainService.

(** A read that keeps yielding falsy values: for instance a boolean getter
    that answers [false], or a counter that is at 0. *)
Definition always_falsy (p : Provider) : Prop :=
  forall k, exists v, call_script p k = Return v /\ truthy v = false.

(** The envelope executeContractFunction hands to the signer at its
    attempt number [i] (from 0) on a chain on which nothing had happened,
    for the account [b] and the contract [c]: the data are the encoding the
    provider gave at that attempt, and the gas limit is the estimate it
    gave, or the fallback when the estimate is falsy. *)
Definition envelope_at (b : Blockchain) (c : Contract) (p : Provider) (i : nat)
    (signed_ : Tx * string) : Prop :=
  exists gasLimit encodedABI,
    estimateGas_script p i = Return gasLimit
    /\ encodeABI_script p i = Return encodedABI
    /\ signed_
       = ({| from := wallet b;
             to := address c;
             data := encodedABI;
             gasPrice := JStr "100000000000";
             gas := if truthy gasLimit then gasLimit else JStr "900000" |},
          privateKey b).

(** The steps of the protocol are taken in order: nothing is broadcast
    that was not signed, nothing signed that was not encoded, nothing
    encoded without a gas estimate; the logs agree with the counters; the
    transactions handed to the signer are the envelopes of the attempts, in
    order; and what is broadcast are the raw transactions the signer
    gave. *)
Definition in_order (b : Blockchain) (c : Contract) (p : Provider) (w : Chain)
  : Prop :=
  provider w = p
  /\ (sendSignedTransaction_calls w <= signTransaction_calls w)%nat
  /\ (signTransaction_calls w <= encodeABI_calls w)%nat
  /\ (encodeABI_calls w <= estimateGas_calls w)%nat
  /\ length (signed w) = signTransaction_calls w
  /\ length (broadcast w) = sendSignedTransaction_calls w
  /\ (forall i s, nth_error (List.rev (signed w)) i = Some s ->
        envelope_at b c p i s)
  /\ (forall i raw, nth_error (List.rev (broadcast w)) i = Some raw ->
        signTransaction_script p i = Return raw).

(** Every attempt so far went through its four steps. *)
Definition synced (w : Chain) : Prop :=
  estimateGas_calls w = signTransaction_calls w
  /\ encodeABI_calls w = signTransaction_calls w
  /\ sendSignedTransaction_calls w = signTransaction_calls w.

(** A provider whose first gas estimate is [0]. *)
Definition zero_estimate_provider : Provider :=
  {| estimateGas_script := script [Return (JNum 0)] (Return (JNum 21000));
     encodeABI_script := script [Return (JStr "0xa9059cbb")] (Return (JStr "0x095ea7b3"));
     signTransaction_script := script [Return (JStr "0xf86c")] (Return (JStr "0xf86d"));
     sendSignedTransaction_script := script [Return JNull] (Return receipt);
     call_script := fun _ => Return (JStr "0x5fbd") |}.

(** A getter that answers [false]. *)
Definition false_getter : Provider :=
  {| estimateGas_script := fun _ => Return (JNum 21000);
     encodeABI_script := fun _ => Return (JStr "0xa9059cbb");
     signTransaction_script := fun _ => Return (JStr "0xf86c");
     sendSignedTransaction_script := fun _ => Return receipt;
     call_script := fun _ => Return (JBool false) |}.

End ExecutorInvariants.

(* ================================================================== *)
(** * AbstractClient: the requests and validate                         *)
(* ================================================================== *)

Module ClientRequests.
Import Js AbstractClient.

(** The first [k] polls still to come are answered PENDING. *)
Definition pending_first (k : nat) (w : World) : Prop :=
  forall i, (i < k)%nat -> exists r,
    outcome (result_script (node w) (result_calls w + i)) = Return r
    /\ status r = STATUSES.pending.

(** The world after [k] turns of the polling loop of _getResult. *)
Fixpoint after_polls (frequency : Z) (url : string) (k : nat) (w : World)
  : World :=
  match k with
  | O => w
  | S k' => after_polls frequency url k' (after_poll frequency url w)
  end.

(** The poll after the next [k] ones. *)
Definition answer_after (k : nat) (w : World) : Outcome OperationResult :=
  outcome (result_script (node w) (result_calls w + k)).

(** The payloads among the answers [from], ..., [from + n - 1] of the
    search endpoint, oldest first. *)
Fixpoint fetched (nd : Node) (from n : nat) : list SearchResult :=
  match n with
  | O => []
  | S m =>
      match outcome (search_result_script nd from) with
      | Return p => p :: fetched nd (S from) m
      | Throw _ => fetched nd (S from) m
      end
  end.

(** The records _performValidation pushes for one assertion: one per entry
    that has a proof, in the order of the entries. *)
Definition records_of (assertion : Assertion) : list ValidatedTriple :=
  map (fun obj => {| validated_triple := triple obj; valid := JUndefined |})
      (filter (fun obj => negb (is_null (proof obj))) (proofs assertion)).

(** The bound of polls of one call of _getResult without options of its
    own, as resolve makes it. *)
Definition polls_allowed (this : Client) : nat :=
  Z.to_nat (maxNumberOfRetries this + 1).

(** A second assertion, and a node that knows the root hashes of both. *)
Definition second_assertion : Assertion :=
  {| assertionId := "assertion-2";
     proofs := [one_leaf_entry; unproved_entry; one_leaf_entry] |}.

Definition two_assertion_node : Node :=
  {| resolve_script := fun _ => replied (JStr "h-1");
     result_script := fun _ =>
       replied (completed_result
                  (JArr [JObj [("assertion-1",
                                JObj [("rootHash", JStr "0x7a3f")]);
                               ("assertion-2",
                                JObj [("rootHash", JStr "0x5be0")])]]));
     search_result_script := no_search |}.

(** A node that refuses every resolve request. *)
Definition refusing_node : Node :=
  {| resolve_script := fun _ => rejected "connect ECONNREFUSED";
     result_script := fun _ => replied pending_result;
     search_result_script := no_search |}.

(** A node whose search endpoint answers twice and then fails. *)
Definition failing_search_node : Node :=
  {| resolve_script := fun _ => rejected "no resolve";
     result_script := fun _ => rejected "no result";
     search_result_script :=
       script [replied (payload_of 5); replied (payload_of 50)]
              (rejected "socket hang up") |}.

(** ** resolve, with every option a caller may pass *)

(** The options of resolve: the ids, and the properties that the spread
    [...options] copies over the [handler_id] and the [operation] of the
    call of _getResult, or hands on to it.  [None] is a property the
    options do not have. *)
Module ResolveOptions.
Record t : Type := {
  ids : JsVal;
  handler_id : option JsVal;
  operation : option JsVal;
  maxNumberOfRetries : option Z;
  frequency : option Z;
}.
End ResolveOptions.

Definition resolve_guard : JsError :=
  Error "Please provide resolve options in order to resolve.".

(** [for (let id of v)]: arrays and strings are iterated, the other values
    of the model are not iterable. *)
Definition iterate (v : JsVal) : option (list JsVal) :=
  match v with
  | JArr items => Some items
  | JStr s => Some (Helpers.characters s)
  | _ => None
  end.

(** [property in options ? options[property] : dflt], the effect of the
    spread on a property written before it. *)
Definition overridden (property : option JsVal) (dflt : JsVal) : JsVal :=
  match property with
  | Some v => v
  | None => dflt
  end.

(** resolve(options); [None] stands for options that are falsy. *)
Definition resolve (fuel : nat) (this : Client)
    (options : option ResolveOptions.t) (w : World)
  : option (Outcome OperationResult * World) :=
  match options with
  | None => Some (Throw resolve_guard, w)
  | Some options =>
      if negb (truthy (ResolveOptions.ids options))
      then Some (Throw resolve_guard, w)
      else
        match iterate (ResolveOptions.ids options) with
        | None => Some (Throw (TypeError "options.ids is not iterable"), w)
        | Some ids =>
            match _resolveRequest this ids w with
            | (Throw e, w') => Some (Throw e, w')
            | (Return response_data_handler_id, w') =>
                _getResult fuel this
                  {| ResultOptions.handler_id :=
                       overridden (ResolveOptions.handler_id options)
                                  response_data_handler_id;
                     ResultOptions.operation :=
                       overridden (ResolveOptions.operation options)
                                  (JStr "resolve");
                     ResultOptions.maxNumberOfRetries :=
                       ResolveOptions.maxNumberOfRetries options;
                     ResultOptions.frequency :=
                       ResolveOptions.frequency options |} w'
            end
        end
  end.



(** ** _searchRequest *)

Record SearchRequest : Type := {
  query : JsVal;
  resultType : JsVal;
  prefix : JsVal;
  limit : JsVal;
}.

(** [v === "entities"] *)
Definition is_entities (v : JsVal) : bool :=
  match v with
  | JStr s => s =? "entities"
  | _ => false
  end.

(** The [url] of the request _searchRequest(options) sends. *)
Definition search_request_url (this : Client) (options : SearchRequest) : string :=
  let prefix := if truthy (prefix options) then prefix options else JBool true in
  let limit := if truthy (limit options) then limit options else JNum 20 in
  let query := query options in
  let resultType := resultType options in
  let url := nodeBaseUrl this ++ "/" ++ to_string resultType
             ++ ":search?query=" ++ to_string query in
  if is_entities resultType
  then nodeBaseUrl this ++ "/" ++ to_string resultType
       ++ ":search?query=" ++ to_string query
       ++ "&limit=" ++ to_string limit ++ "&prefix=" ++ to_string prefix
  else url.

(** [s.endsWith(t)] *)
Fixpoint endsWith (s t : string) : bool :=
  (s =? t)
  || match s with
     | EmptyString => false
     | String _ rest => endsWith rest t
     end.

(** ** validate *)

(** The value of a call of an [async] function that is not awaited: a
    promise, whose settlement the caller does not wait for. *)
Inductive Promise (A : Type) : Type :=
| promise (settle : nat -> World -> option (Outcome A * World)).
Arguments promise {A} settle.

(** [p.key] for a promise [p] and a key that is none of its methods:
    [undefined]. *)
Definition promise_get {A} (p : Promise A) (key : string) : JsVal := JUndefined.

(** [v !== "COMPLETED"] *)
Definition is_not_completed (v : JsVal) : bool :=
  match v with
  | JStr s => negb (s =? STATUSES.completed)
  | _ => true
  end.

(** [for (let assertion of v)] where [v] is not a list of assertions. *)
Definition not_iterable : JsError := TypeError "assertions is not iterable".

(** validate(options).  The request of _getProofsRequest is a parameter
    (a POST to [/proofs:get], reduced to [response.data.handler_id]).
    [this._getResult(...)] is called without [await]: [result] is the
    promise, and the statements that follow read [result.status] and
    [result.data] from it while _getResult has not passed its first
    sleep. *)
Definition validate (this : Client) (_getProofsRequest : M World JsVal)
    (nquads : JsVal) (maxNumberOfRetries frequency : option Z)
  : M World (list ValidatedTriple) :=
  fun w =>
    if negb (truthy nquads)
    then (Throw (Error "Please provide assertions and nquads in order to get proofs."), w)
    else
      match _getProofsRequest w with
      | (Throw e, w') => (Throw e, w')
      | (Return response_data_handler_id, w') =>
          let result :=
            promise (fun fuel =>
              _getResult fuel this
                {| ResultOptions.handler_id := response_data_handler_id;
                   ResultOptions.operation := JStr "proofs:get";
                   ResultOptions.maxNumberOfRetries := maxNumberOfRetries;
                   ResultOptions.frequency := frequency |}) in
          if is_not_completed (promise_get result "status")
          then (Throw (Error "Unable to get proofs for given nquads"), w')
          else
            match promise_get result "data" with
            | JUndefined | JNull => (Throw not_iterable, w')
            | _ => (Throw not_iterable, w')
            end
      end.

End ClientRequests.

(* ================================================================== *)
(** * Properties of the UAL codec                                       *)
(* ================================================================== *)

Section UALCodec.
Import Js Utilities.

Example deriveUAL_ex :
  deriveUAL "Polygon" "0xAbC" 42 = "did:dkg:polygon/0xabc/42"
  /\ deriveUAL "Polygon" "0xAbC" (2 ^ 64) = "did:dkg:polygon/0xabc/18446744073709552000"
  /\ deriveUAL "Polygon" "0xAbC" (2 ^ 70) = "did:dkg:polygon/0xabc/1.1805916207174113e+21".
Proof. repeat split; vm_compute; reflexivity. Qed.

Example resolveUAL_ex :
  resolveUAL "did:dkg:polygon/0xabc/42"
  = Return {| blockchain := JStr "polygon";
              contract := JStr "0xabc";
              tokenId := JNum 42 |}.
Proof. reflexivity. Qed.

(** A per-call retry bound of 0 is falsy: _getResult falls back on the
    client's own bound. *)
Example result_maxNumberOfRetries_zero :
  AbstractClient.result_maxNumberOfRetries AbstractClient.default_client
    {| AbstractClient.ResultOptions.handler_id := JStr "h-1";
       AbstractClient.ResultOptions.operation := JStr "resolve";
       AbstractClient.ResultOptions.maxNumberOfRetries := Some 0%Z;
       AbstractClient.ResultOptions.frequency := None |} = 5%Z.
Proof. reflexivity. Qed.

(** ** Splitting *)

Lemma split_not_nil sep s : split sep s <> [].
Proof.
  destruct s as [|c r]; simpl; [discriminate|].
  destruct (Ascii.eqb c sep); [discriminate|].
  destruct (split sep r); discriminate.
Qed.

Lemma split_no_sep sep s : has_char sep s = false -> split sep s = [s].
Proof.
  induction s as [|c r IH]; simpl; intros H; [reflexivity|].
  apply orb_false_iff in H. destruct H as [Hc Hr].
  rewrite Hc, (IH Hr). reflexivity.
Qed.

Lemma split_app_sep sep a b :
  has_char sep a = false ->
  split sep (a ++ String sep b) = a :: split sep b.
Proof.
  induction a as [|c r IH]; simpl; intros H.
  - rewrite Ascii.eqb_refl. reflexivity.
  - apply orb_false_iff in H. destruct H as [Hc Hr].
    rewrite Hc, (IH Hr). reflexivity.
Qed.

Lemma has_char_app c a b :
  has_char c (a ++ b) = has_char c a || has_char c b.
Proof.
  induction a as [|x r IH]; simpl; [reflexivity|].
  rewrite IH. apply orb_assoc.
Qed.

Lemma append_assoc (a b c : string) : (a ++ b) ++ c = a ++ (b ++ c).
Proof. induction a as [|x r IH]; simpl; [reflexivity | now rewrite IH]. Qed.

(** ** Lower-casing keeps the separators *)

Lemma lower_char_colon x : Ascii.eqb (lower_char x) ":" = Ascii.eqb x ":".
Proof. destruct x as [[] [] [] [] [] [] [] []]; reflexivity. Qed.

Lemma lower_char_slash x : Ascii.eqb (lower_char x) "/" = Ascii.eqb x "/".
Proof. destruct x as [[] [] [] [] [] [] [] []]; reflexivity. Qed.

Lemma has_colon_toLowerCase s : has_char ":" (toLowerCase s) = has_char ":" s.
Proof.
  induction s as [|x r IH]; simpl; [reflexivity|].
  now rewrite lower_char_colon, IH.
Qed.

Lemma has_slash_toLowerCase s : has_char "/" (toLowerCase s) = has_char "/" s.
Proof.
  induction s as [|x r IH]; simpl; [reflexivity|].
  now rewrite lower_char_slash, IH.
Qed.

Lemma separator_free_toLowerCase s :
  separator_free s -> separator_free (toLowerCase s).
Proof.
  intros [H1 H2]. split.
  - now rewrite has_colon_toLowerCase.
  - now rewrite has_slash_toLowerCase.
Qed.

(** ** Decimal numerals *)

Lemma numeral_no_colon d : has_char ":" (NilEmpty.string_of_uint d) = false.
Proof. induction d; simpl; auto. Qed.

Lemma numeral_no_slash d : has_char "/" (NilEmpty.string_of_uint d) = false.
Proof. induction d; simpl; auto. Qed.

Lemma read_digits_numeral d a :
  read_digits (NilEmpty.string_of_uint d) (Z.of_nat a) true
  = Some (Z.of_nat (Nat.of_uint_acc d a)).
Proof.
  revert a. induction d; intros a; simpl; [reflexivity|..];
    match goal with
    | |- read_digits _ ?z true = Some (Z.of_nat (Nat.of_uint_acc _ ?n)) =>
        replace z with (Z.of_nat n)
          by (rewrite Nat.tail_mul_spec; simpl Z.of_nat; lia)
    end; apply IHd.
Qed.

Lemma to_uint_not_Nil n : Nat.to_uint n <> Nil.
Proof.
  intros H. pose proof (DecimalNat.Unsigned.of_to n) as E.
  rewrite H in E. cbv in E. subst n. cbv in H. discriminate H.
Qed.

Lemma parseInt10_digit c k rest :
  digit_of c = Some k ->
  parseInt10 (String c rest)
  = match read_digits rest (0 * 10 + k) true with
    | Some z => JNum (1 * z)
    | None => JNaN
    end.
Proof.
  intros H.
  assert (F : is_space c = false /\ Ascii.eqb c "-" = false
              /\ Ascii.eqb c "+" = false).
  { destruct c as [[] [] [] [] [] [] [] []]; vm_compute in H;
      try discriminate H; repeat split; reflexivity. }
  destruct F as (F1 & F2 & F3).
  unfold parseInt10. cbn [skip_spaces]. rewrite F1, F2, F3.
  cbn [read_digits]. rewrite H. reflexivity.
Qed.

Lemma parseInt10_numeral d :
  d <> Nil ->
  parseInt10 (NilEmpty.string_of_uint d) = JNum (Z.of_nat (Nat.of_uint d)).
Proof.
  intros NN. unfold Nat.of_uint.
  destruct d as [|d|d|d|d|d|d|d|d|d|d]; [congruence|..];
    cbn [NilEmpty.string_of_uint];
    erewrite parseInt10_digit by reflexivity;
    match goal with
    | |- context [read_digits _ ?z true] =>
        change z with (Z.of_nat (Z.to_nat z))
    end;
    rewrite read_digits_numeral, Z.mul_1_l; reflexivity.
Qed.

Lemma parseInt10_nat_to_string n :
  parseInt10 (nat_to_string n) = JNum (Z.of_nat n).
Proof.
  unfold nat_to_string.
  rewrite (parseInt10_numeral _ (to_uint_not_Nil n)).
  now rewrite DecimalNat.Unsigned.of_to.
Qed.

(** ** Decoding what the encoder wrote *)

Lemma argsString_derived rest :
  has_char ":" rest = false ->
  argsString ("did:dkg:" ++ rest) = JStr rest.
Proof.
  intros H. unfold argsString.
  change ("did:dkg:" ++ rest) with ("did" ++ String ":" ("dkg" ++ String ":" rest)).
  rewrite split_app_sep by reflexivity.
  rewrite split_app_sep by reflexivity.
  rewrite (split_no_sep _ _ H). reflexivity.
Qed.

Lemma split_slash_three C K T :
  has_char "/" C = false -> has_char "/" K = false -> has_char "/" T = false ->
  split "/" (C ++ "/" ++ K ++ "/" ++ T) = [C; K; T].
Proof.
  intros HC HK HT.
  change (C ++ "/" ++ K ++ "/" ++ T) with (C ++ String "/" (K ++ String "/" T)).
  rewrite (split_app_sep _ _ _ HC), (split_app_sep _ _ _ HK), (split_no_sep _ _ HT).
  reflexivity.
Qed.

(** The code's lower-casing and prefix test against the table and the
    first three characters. *)
Lemma lower_char_table c :
  (nat_of_ascii c <? 128)%nat = true -> lower_char c = lower_cased_letter c.
Proof. intros _. destruct c as [[] [] [] [] [] [] [] []]; reflexivity. Qed.

Lemma toLowerCase_lower_cased s :
  ascii_text s = true -> toLowerCase s = lower_cased s.
Proof.
  induction s as [|c r IH]; cbn [ascii_text toLowerCase lower_cased];
    [reflexivity|].
  intros H. apply andb_true_iff in H. destruct H as [Hc Hr].
  now rewrite (lower_char_table c Hc), (IH Hr).
Qed.

Lemma prefix_substring p : forall s,
  String.prefix p s = (substring 0 (String.length p) s =? p).
Proof.
  induction p as [|c p IH]; intros s.
  - destruct s; reflexivity.
  - destruct s as [|x s]; [reflexivity|].
    cbn [String.prefix String.length substring String.eqb].
    destruct (ascii_dec c x) as [->|N].
    + rewrite Ascii.eqb_refl. apply IH.
    + destruct (Ascii.eqb_spec x c) as [E|_]; [congruence | reflexivity].
Qed.

Lemma startsWith_begins_with_otp chain :
  startsWith chain "otp" = begins_with_otp chain.
Proof. unfold startsWith, begins_with_otp. apply (prefix_substring "otp"). Qed.

Lemma number_to_string_safe token :
  (token <= 2 ^ 53)%N -> number_to_string token = nat_to_string (N.to_nat token).
Proof.
  intros H. unfold number_to_string.
  destruct (N.leb_spec token (2 ^ 53)) as [_|L]; [reflexivity | lia].
Qed.

(** C4 (as the code has it).  For every chain and contract of characters below 128
    that are valid inputs of the encoder (no [:] and no [/] in the contract,
    nor in the chain as it is written into the locator) and every token id
    that is an integer from 0 to 2^53, decoding the encoded locator yields
    the case-normalized input: the chain lower-cased, or [otp] when it
    begins with the reserved prefix [otp], the contract lower-cased, and
    the token id as a number. *)
Theorem resolveUAL_deriveUAL chain contract token :
  valid_input chain contract ->
  ascii_text chain = true -> ascii_text contract = true ->
  (token <= 2 ^ 53)%N ->
  resolveUAL (deriveUAL chain contract token)
  = Return (normalized chain contract token).
Proof.
  intros [HC HK] AC AK HT. apply separator_free_toLowerCase in HK.
  destruct HK as [Kc Ks].
  assert (EN : (if startsWith chain "otp" then "otp" else toLowerCase chain)
               = normalized_chain chain).
  { unfold normalized_chain. rewrite <- startsWith_begins_with_otp.
    now rewrite (toLowerCase_lower_cased chain AC). }
  assert (HN : separator_free (normalized_chain chain)).
  { rewrite <- EN. destruct HC as [HC|HC].
    - rewrite HC. split; reflexivity.
    - destruct (startsWith chain "otp"); [split; reflexivity|].
      now apply separator_free_toLowerCase. }
  destruct HN as [Cc Cs].
  unfold deriveUAL, resolveUAL, normalized.
  rewrite EN, (number_to_string_safe token HT).
  rewrite <- (toLowerCase_lower_cased contract AK).
  rewrite argsString_derived.
  - cbn [call_split].
    rewrite split_slash_three by
      (auto; unfold nat_to_string; apply numeral_no_slash).
    cbn. rewrite parseInt10_nat_to_string, N_nat_Z. reflexivity.
  - rewrite !has_char_app. cbn [has_char].
    rewrite Cc, Kc. unfold nat_to_string. rewrite numeral_no_colon.
    reflexivity.
Qed.

Lemma resolveUAL_deriveUAL_witness :
  valid_input "Polygon" "0xAbC"
  /\ resolveUAL (deriveUAL "Polygon" "0xAbC" 42)
     = Return {| blockchain := JStr "polygon";
                 contract := JStr "0xabc";
                 tokenId := JNum 42 |}.
Proof.
  assert (V : valid_input "Polygon" "0xAbC")
    by (split; [right|]; split; reflexivity).
  split; [exact V|].
  assert (B : (42 <= 2 ^ 53)%N) by (vm_compute; discriminate).
  exact (resolveUAL_deriveUAL "Polygon" "0xAbC" 42 V eq_refl eq_refl B).
Defined.

(** C4 (counterexample).  The token id 10^21 is a Number and an unsigned
    integer, and the chain and the contract are valid inputs; the encoder
    writes the token id in exponent notation, and the decoder reads back
    the digits before the [e]: the token id that comes back is 1. *)
Lemma large_token_counterexample :
  valid_input "eth" "0x1"
  /\ deriveUAL "eth" "0x1" (10 ^ 21) = "did:dkg:eth/0x1/1e+21"
  /\ resolveUAL (deriveUAL "eth" "0x1" (10 ^ 21))
     = Return {| blockchain := JStr "eth";
                 contract := JStr "0x1";
                 tokenId := JNum 1 |}
  /\ resolveUAL (deriveUAL "eth" "0x1" (10 ^ 21))
     <> Return (normalized "eth" "0x1" (10 ^ 21)).
Proof.
  assert (E : deriveUAL "eth" "0x1" (10 ^ 21) = "did:dkg:eth/0x1/1e+21")
    by (vm_compute; reflexivity).
  split; [split; [right|]; split; reflexivity|].
  split; [exact E|]. rewrite E.
  split; [vm_compute; reflexivity|].
  vm_compute. intros H. discriminate H.
Qed.

(** ** Locators with more or fewer than three [:]-separated segments *)

Lemma argsString_four_or_more ual a b c d rest :
  split ":" ual = a :: b :: c :: d :: rest ->
  argsString ual = JStr (c ++ d).
Proof. intros H. unfold argsString. rewrite H. reflexivity. Qed.

Lemma split_colon_four a b c t :
  has_char ":" a = false -> has_char ":" b = false -> has_char ":" c = false ->
  split ":" (a ++ ":" ++ b ++ ":" ++ c ++ ":" ++ t) = a :: b :: c :: split ":" t.
Proof.
  intros Ha Hb Hc.
  change (a ++ ":" ++ b ++ ":" ++ c ++ ":" ++ t)
    with (a ++ String ":" (b ++ String ":" (c ++ String ":" t))).
  now rewrite (split_app_sep _ _ _ Ha), (split_app_sep _ _ _ Hb),
              (split_app_sep _ _ _ Hc).
Qed.

(** C9.  A locator with four or more [:]-separated segments is reassembled
    by concatenating its third and fourth segments with no separator, the
    segments past the fourth being dropped before the three-segment check:
    - whatever follows a fourth segment [d], the part that is split on [/]
      is [c ++ d];
    - hence a chain written [p:q] is decoded as [pq];
    - for instance the chain [abc:def] is decoded as [abcdef]. *)
Theorem resolveUAL_reassembly :
  (forall ual a b c d rest,
      split ":" ual = a :: b :: c :: d :: rest ->
      argsString ual = JStr (c ++ d))
  /\ (forall a b c d tail,
        has_char ":" a = false -> has_char ":" b = false ->
        has_char ":" c = false -> has_char ":" d = false ->
        argsString (a ++ ":" ++ b ++ ":" ++ c ++ ":" ++ d) = JStr (c ++ d)
        /\ argsString (a ++ ":" ++ b ++ ":" ++ c ++ ":" ++ d ++ ":" ++ tail)
           = JStr (c ++ d))
  /\ (forall p q contract token,
        separator_free p -> separator_free q -> separator_free contract ->
        resolveUAL ("did:dkg:" ++ p ++ ":" ++ q ++ "/" ++ contract
                    ++ "/" ++ nat_to_string token)
        = Return {| blockchain := JStr (p ++ q);
                    contract := JStr contract;
                    tokenId := JNum (Z.of_nat token) |})
  /\ resolveUAL "did:dkg:abc:def/0x1/5"
     = Return {| blockchain := JStr "abcdef";
                 contract := JStr "0x1";
                 tokenId := JNum 5 |}.
Proof.
  split; [exact argsString_four_or_more|].
  split; [|split; [|reflexivity]].
  - intros a b c d tail Ha Hb Hc Hd. split.
    + eapply argsString_four_or_more.
      rewrite (split_colon_four _ _ _ _ Ha Hb Hc), (split_no_sep _ _ Hd).
      reflexivity.
    + eapply argsString_four_or_more.
      rewrite (split_colon_four _ _ _ _ Ha Hb Hc).
      change (d ++ ":" ++ tail) with (d ++ String ":" tail).
      rewrite (split_app_sep _ _ _ Hd). reflexivity.
  - intros p q contract token [Pc Ps] [Qc Qs] [Kc Ks].
    unfold resolveUAL.
    rewrite (argsString_four_or_more _ "did" "dkg" p
               (q ++ "/" ++ contract ++ "/" ++ nat_to_string token) []).
    + cbn [call_split]. rewrite <- append_assoc.
      rewrite split_slash_three;
        [ | rewrite has_char_app, Ps, Qs; reflexivity | assumption
          | apply numeral_no_slash ].
      cbn. rewrite parseInt10_nat_to_string. reflexivity.
    + change ("did:dkg:" ++ p ++ ":" ++ q ++ "/" ++ contract ++ "/"
                ++ nat_to_string token)
        with ("did" ++ ":" ++ "dkg" ++ ":" ++ p ++ ":"
                ++ (q ++ "/" ++ contract ++ "/" ++ nat_to_string token)).
      rewrite split_colon_four by (reflexivity || assumption).
      rewrite split_no_sep; [reflexivity|].
      rewrite !has_char_app. cbn [has_char].
      unfold nat_to_string. rewrite Qc, Kc, numeral_no_colon. reflexivity.
Qed.

Lemma resolveUAL_reassembly_witness :
  split ":" "did:dkg:abc:def/0x1/5:extra" = ["did"; "dkg"; "abc"; "def/0x1/5"; "extra"]
  /\ argsString "did:dkg:abc:def/0x1/5:extra" = JStr "abcdef/0x1/5"
  /\ separator_free "abc" /\ separator_free "def" /\ separator_free "0x1"
  /\ resolveUAL ("did:dkg:" ++ "abc" ++ ":" ++ "def" ++ "/" ++ "0x1"
                 ++ "/" ++ nat_to_string 5)
     = Return {| blockchain := JStr ("abc" ++ "def");
                 contract := JStr "0x1";
                 tokenId := JNum (Z.of_nat 5) |}.
Proof.
  destruct resolveUAL_reassembly as (H1 & H2 & H3 & _).
  assert (S1 : separator_free "abc") by (split; reflexivity).
  assert (S2 : separator_free "def") by (split; reflexivity).
  assert (S3 : separator_free "0x1") by (split; reflexivity).
  split; [reflexivity|].
  split; [exact (H1 "did:dkg:abc:def/0x1/5:extra" "did" "dkg" "abc"
                    "def/0x1/5" ["extra"] eq_refl)|].
  split; [exact S1|]. split; [exact S2|]. split; [exact S3|].
  exact (H3 "abc" "def" "0x1" 5 S1 S2 S3).
Defined.

(** C5 (divergence).  A string with fewer than three [:]-separated segments
    never reaches the three-segment check: [segments[2] + segments[3]] is
    [undefined + undefined], that is [NaN], and calling [split] on it raises
    a [TypeError] instead of the format error. *)
Theorem resolveUAL_short_input ual :
  (length (split ":" ual) < 3)%nat ->
  resolveUAL ual = Throw (TypeError "argsString.split is not a function")
  /\ resolveUAL ual <> Throw (format_error ual).
Proof.
  intros H.
  assert (E : resolveUAL ual
              = Throw (TypeError "argsString.split is not a function")).
  { unfold resolveUAL, argsString.
    destruct (split ":" ual) as [|a [|b [|c l]]] eqn:S; simpl in H; try lia;
      reflexivity. }
  split; [exact E|]. rewrite E. discriminate.
Qed.

Lemma resolveUAL_short_input_witness :
  (length (split ":" "abc") < 3)%nat
  /\ resolveUAL "abc" = Throw (TypeError "argsString.split is not a function")
  /\ resolveUAL "abc" <> Throw (format_error "abc").
Proof.
  assert (L : (length (split ":" "abc") < 3)%nat) by (vm_compute; lia).
  split; [exact L | exact (resolveUAL_short_input "abc" L)].
Defined.

(** With at least three [:]-separated segments the part after the second
    [:] is a string, and the decoder raises the format error exactly when
    that string does not split into three [/]-separated fields. *)
Lemma resolveUAL_format_error ual s :
  argsString ual = JStr s ->
  length (split "/" s) <> 3%nat ->
  resolveUAL ual = Throw (format_error ual).
Proof.
  intros E H. unfold resolveUAL. rewrite E. cbn [call_split].
  destruct (Nat.eqb_spec (length (split "/" s)) 3); [contradiction|reflexivity].
Qed.

Lemma argsString_string ual :
  (3 <= length (split ":" ual))%nat -> exists s, argsString ual = JStr s.
Proof.
  intros H. unfold argsString.
  destruct (split ":" ual) as [|a [|b [|c [|d l]]]]; simpl in H; try lia;
    cbn; eauto.
Qed.

End UALCodec.

(* ================================================================== *)
(** * Properties of the transaction and read executors                  *)
(* ================================================================== *)

Section Executors.
Import Js NodeBlockchainService.

Variable this_blockchain : Blockchain.
Variable contractInstance : Contract.

#[local] Abbreviation execute_try :=
  (execute_try this_blockchain contractInstance).
#[local] Abbreviation executeContractFunction :=
  (executeContractFunction this_blockchain contractInstance).

(** ** The loop *)

Lemma retry_loop_truthy tb fuel result w :
  truthy result = true -> retry_loop tb fuel result w = Some (result, w).
Proof. intros H. destruct fuel; simpl; rewrite H; reflexivity. Qed.

Lemma retry_loop_falsy tb fuel result w :
  truthy result = false ->
  retry_loop tb (S fuel) result w
  = retry_loop tb fuel (fst (attempt tb w)) (snd (attempt tb w)).
Proof.
  intros H. simpl. rewrite H. destruct (attempt tb w). reflexivity.
Qed.

Lemma retry_loop_turns tb n : forall fuel result w,
  truthy result = false ->
  (forall k, (k < n)%nat -> truthy (fst (attempt tb (turns tb k w))) = false) ->
  truthy (fst (attempt tb (turns tb n w))) = true ->
  (n < fuel)%nat ->
  retry_loop tb fuel result w = Some (attempt tb (turns tb n w)).
Proof.
  induction n as [|n IH]; intros fuel result w Hr Hfalsy Htruthy Hfuel.
  - destruct fuel as [|fuel]; [lia|].
    rewrite retry_loop_falsy by assumption. simpl in *.
    rewrite retry_loop_truthy by assumption.
    destruct (attempt tb w); reflexivity.
  - destruct fuel as [|fuel]; [lia|].
    rewrite retry_loop_falsy by assumption.
    apply IH.
    + apply (Hfalsy 0%nat). lia.
    + intros k Hk. apply (Hfalsy (S k)). lia.
    + exact Htruthy.
    + lia.
Qed.

Lemma attempt_throw tb w e w' :
  tb w = (Throw e, w') -> attempt tb w = (JBool true, console_log e w').
Proof. intros H. unfold attempt. rewrite H. reflexivity. Qed.

Lemma attempt_return tb w v w' :
  tb w = (Return v, w') -> attempt tb w = (v, w').
Proof. intros H. unfold attempt. rewrite H. reflexivity. Qed.

(** ** Counting attempts: every attempt starts with one gas estimate (one
    [call] for the read executor) *)

Lemma execute_try_estimates w :
  estimateGas_calls (snd (execute_try w)) = S (estimateGas_calls w).
Proof.
  unfold NodeBlockchainService.execute_try, bind, estimateGas, encodeABI,
    signTransaction, sendSignedTransaction.
  cbn.
  destruct (estimateGas_script (provider w) (estimateGas_calls w)); cbn;
    [|reflexivity].
  destruct (encodeABI_script (provider w) (encodeABI_calls w)); cbn;
    [|reflexivity].
  destruct (signTransaction_script (provider w) (signTransaction_calls w)); cbn;
    [|reflexivity].
  destruct (sendSignedTransaction_script (provider w)
              (sendSignedTransaction_calls w)); reflexivity.
Qed.

Lemma attempt_execute_estimates w :
  estimateGas_calls (snd (attempt execute_try w)) = S (estimateGas_calls w).
Proof.
  pose proof (execute_try_estimates w) as H. unfold attempt.
  destruct (execute_try w) as [[v|e] w']; simpl in *; exact H.
Qed.

Lemma attempt_call_calls w :
  call_calls (snd (attempt call w)) = S (call_calls w).
Proof.
  unfold attempt, call.
  destruct (call_script (provider w) (call_calls w)); reflexivity.
Qed.

Lemma turns_execute_estimates n : forall w,
  estimateGas_calls (turns execute_try n w) = (n + estimateGas_calls w)%nat.
Proof.
  induction n as [|n IH]; intros w; simpl; [reflexivity|].
  rewrite IH, attempt_execute_estimates. lia.
Qed.

Lemma turns_call_calls n : forall w,
  call_calls (turns call n w) = (n + call_calls w)%nat.
Proof.
  induction n as [|n IH]; intros w; simpl; [reflexivity|].
  rewrite IH, attempt_call_calls. lia.
Qed.

(** ** What one attempt decides *)

(** C8.  When the first attempt throws or yields a truthy value, both
    executors finish after exactly that one attempt: a thrown error is
    caught and logged and the function returns [true] (nothing is raised to
    the caller, nothing is tried again), a truthy value is returned as it
    is.  The loop body is run again only when the attempt yields a falsy
    value without throwing. *)
Theorem executors_stop_after_one_attempt fuel w :
  (forall e w', execute_try w = (Throw e, w') ->
      executeContractFunction (S fuel) w = Some (JBool true, console_log e w')
      /\ estimateGas_calls (console_log e w') = S (estimateGas_calls w))
  /\ (forall v w', execute_try w = (Return v, w') -> truthy v = true ->
      executeContractFunction (S fuel) w = Some (v, w')
      /\ estimateGas_calls w' = S (estimateGas_calls w))
  /\ (forall v w', execute_try w = (Return v, w') -> truthy v = false ->
      executeContractFunction (S fuel) w = executeContractFunction fuel w'
      /\ estimateGas_calls w' = S (estimateGas_calls w))
  /\ (forall e w', call w = (Throw e, w') ->
      callContractFunction (S fuel) w = Some (JBool true, console_log e w')
      /\ call_calls (console_log e w') = S (call_calls w))
  /\ (forall v w', call w = (Return v, w') -> truthy v = true ->
      callContractFunction (S fuel) w = Some (v, w')
      /\ call_calls w' = S (call_calls w))
  /\ (forall v w', call w = (Return v, w') -> truthy v = false ->
      callContractFunction (S fuel) w = callContractFunction fuel w'
      /\ call_calls w' = S (call_calls w)).
Proof.
  unfold NodeBlockchainService.executeContractFunction, callContractFunction.
  repeat split; intros.
  all: try (rewrite retry_loop_falsy by reflexivity).
  all: try (erewrite attempt_throw by eassumption; cbn [fst snd];
            rewrite retry_loop_truthy by reflexivity; reflexivity).
  all: try (erewrite attempt_return by eassumption; cbn [fst snd];
            first [ rewrite retry_loop_truthy by assumption; reflexivity
                  | destruct fuel; simpl;
                    match goal with H : truthy _ = false |- _ => rewrite H end;
                    reflexivity ]).
  all: match goal with
       | H : NodeBlockchainService.execute_try _ _ ?w = (_, ?w') |- _ =>
           pose proof (execute_try_estimates w) as C; rewrite H in C;
           exact C
       | H : call ?w = _ |- _ =>
           unfold call in H; inversion H; subst; reflexivity
       end.
Qed.

(** ** Any number of attempts *)

Lemma executeContractFunction_turns n fuel w :
  (n < fuel)%nat ->
  (forall k, (k < n)%nat ->
     truthy (fst (attempt execute_try (turns execute_try k w))) = false) ->
  truthy (fst (attempt execute_try (turns execute_try n w))) = true ->
  executeContractFunction fuel w
  = Some (attempt execute_try (turns execute_try n w)).
Proof.
  intros. unfold NodeBlockchainService.executeContractFunction.
  apply retry_loop_turns; auto.
Qed.

Lemma callContractFunction_turns n fuel w :
  (n < fuel)%nat ->
  (forall k, (k < n)%nat -> truthy (fst (attempt call (turns call k w))) = false) ->
  truthy (fst (attempt call (turns call n w))) = true ->
  callContractFunction fuel w = Some (attempt call (turns call n w)).
Proof.
  intros. unfold callContractFunction. apply retry_loop_turns; auto.
Qed.

(** C1 (as the code has it).  The executors put no cap on the number of
    attempts, and an attempt is followed by another one only when it yields
    a falsy value without throwing: if the first [n] attempts do so and the
    next one yields a truthy value or throws, the function returns after
    exactly [n + 1] attempts, with that truthy value, or with [true] when the
    attempt threw.  An exception is thus caught but ends the loop; in
    particular, when the gas estimate fails on the first attempt, exactly
    one attempt is made, nothing is signed or broadcast, and [true] is
    returned. *)
Theorem executors_repeat_only_falsy_attempts n fuel w :
  (n < fuel)%nat ->
  ((forall k, (k < n)%nat ->
      truthy (fst (attempt execute_try (turns execute_try k w))) = false) ->
   truthy (fst (attempt execute_try (turns execute_try n w))) = true ->
   executeContractFunction fuel w
   = Some (attempt execute_try (turns execute_try n w))
   /\ estimateGas_calls (snd (attempt execute_try (turns execute_try n w)))
      = (S n + estimateGas_calls w)%nat)
  /\ ((forall k, (k < n)%nat ->
         truthy (fst (attempt call (turns call k w))) = false) ->
      truthy (fst (attempt call (turns call n w))) = true ->
      callContractFunction fuel w = Some (attempt call (turns call n w))
      /\ call_calls (snd (attempt call (turns call n w)))
         = (S n + call_calls w)%nat)
  /\ (forall w0 e w', execute_try w0 = (Throw e, w') ->
        attempt execute_try w0 = (JBool true, console_log e w'))
  /\ (forall w0 e w', call w0 = (Throw e, w') ->
        attempt call w0 = (JBool true, console_log e w'))
  /\ (exists w1,
        executeContractFunction fuel (fresh flaky_estimate_provider)
        = Some (JBool true, w1)
        /\ estimateGas_calls w1 = 1%nat
        /\ signTransaction_calls w1 = 0%nat
        /\ sendSignedTransaction_calls w1 = 0%nat).
Proof.
  intros Hfuel. repeat split.
  - now apply executeContractFunction_turns.
  - rewrite attempt_execute_estimates, turns_execute_estimates. reflexivity.
  - now apply callContractFunction_turns.
  - rewrite attempt_call_calls, turns_call_calls. reflexivity.
  - intros. now apply attempt_throw.
  - intros. now apply attempt_throw.
  - destruct fuel as [|fuel]; [lia|].
    eexists. split.
    + unfold NodeBlockchainService.executeContractFunction.
      rewrite retry_loop_falsy by reflexivity.
      apply retry_loop_truthy. reflexivity.
    + repeat split; reflexivity.
Qed.

End Executors.

Section ExecutorScenarios.
Import Js NodeBlockchainService.

Lemma executors_stop_after_one_attempt_witness :
  execute_try hardhat registry (fresh flaky_estimate_provider)
  = (Throw (Error "estimateGas failed"),
     snd (execute_try hardhat registry (fresh flaky_estimate_provider)))
  /\ executeContractFunction hardhat registry 1 (fresh flaky_estimate_provider)
     = Some (JBool true,
             console_log (Error "estimateGas failed")
               (snd (execute_try hardhat registry (fresh flaky_estimate_provider)))).
Proof.
  split; [reflexivity|].
  exact (proj1 (proj1 (executors_stop_after_one_attempt hardhat registry 0
                         (fresh flaky_estimate_provider)) _ _ eq_refl)).
Defined.

Lemma executors_repeat_only_falsy_attempts_witness :
  executeContractFunction hardhat registry 3 (fresh late_value_provider)
  = Some (attempt (execute_try hardhat registry)
            (turns (execute_try hardhat registry) 2 (fresh late_value_provider)))
  /\ fst (attempt (execute_try hardhat registry)
            (turns (execute_try hardhat registry) 2 (fresh late_value_provider)))
     = receipt
  /\ estimateGas_calls
       (snd (attempt (execute_try hardhat registry)
               (turns (execute_try hardhat registry) 2
                  (fresh late_value_provider)))) = 3%nat.
Proof.
  assert (F : forall k, (k < 2)%nat ->
            truthy (fst (attempt (execute_try hardhat registry)
                           (turns (execute_try hardhat registry) k
                              (fresh late_value_provider)))) = false).
  { intros [|[|k]] Hk; [reflexivity | reflexivity | lia]. }
  destruct (executors_repeat_only_falsy_attempts hardhat registry 2 3
              (fresh late_value_provider) (Nat.lt_succ_diag_r 2))
    as ((E1 & E2) & _); [exact F | reflexivity |].
  split; [exact E1|]. split; [reflexivity | exact E2].
Defined.

(** C1 (counterexample).  With a gas estimate that fails twice and then
    succeeds, and a signer and a broadcast that succeed, the specification
    expects three attempts and the receipt of the third; the code makes one
    attempt and returns [true]. *)
Lemma retry_on_exception_counterexample :
  (exists w1,
      executeContractFunction hardhat registry 10 (fresh flaky_estimate_provider)
      = Some (JBool true, w1)
      /\ estimateGas_calls w1 = 1%nat
      /\ sendSignedTransaction_calls w1 = 0%nat)
  /\ ~ (exists w3,
          executeContractFunction hardhat registry 10 (fresh flaky_estimate_provider)
          = Some (receipt, w3)
          /\ estimateGas_calls w3 = 3%nat).
Proof.
  split.
  - eexists. repeat split; reflexivity.
  - intros (w3 & E & _). vm_compute in E. discriminate E.
Qed.

End ExecutorScenarios.

(* ================================================================== *)
(** * Properties of the client's configuration                         *)
(* ================================================================== *)

Section Configuration.
Import Js AbstractClient.

Lemma nonneg_or_default_non_positive n dflt :
  (n <= 0)%Z -> nonneg_or_default (Some n) dflt = dflt.
Proof.
  intros H. unfold nonneg_or_default, truthy_num, ge_zero, value_or.
  destruct (Z.eqb_spec n 0) as [->|N]; [reflexivity|].
  destruct (Z.leb_spec 0 n); [lia|reflexivity].
Qed.

Lemma nonneg_or_default_not_zero o dflt :
  dflt <> 0%Z -> nonneg_or_default o dflt <> 0%Z.
Proof.
  intros D. unfold nonneg_or_default, truthy_num, ge_zero, value_or.
  destruct o as [n|]; [|exact D].
  destruct (Z.eqb_spec n 0); simpl; [exact D|].
  destruct (0 <=? n)%Z; assumption.
Qed.

Lemma constructor_fields options this :
  constructor options = Return this ->
  maxNumberOfRetries this
  = nonneg_or_default (ConstructorOptions.maxNumberOfRetries options) 5
  /\ timeoutInSeconds this
     = nonneg_or_default (ConstructorOptions.timeoutInSeconds options) 25
  /\ numberOfResults this
     = nonneg_or_default (ConstructorOptions.numberOfResults options) 2000
  /\ frequency this
     = nonneg_or_default (ConstructorOptions.frequency options) 5.
Proof.
  unfold constructor.
  destruct (negb (truthy (ConstructorOptions.endpoint options))
            || negb (truthy (ConstructorOptions.port options)));
    [discriminate|].
  intros H. injection H as <-. repeat split.
Qed.

(** C10.  Whenever the constructor builds a client, a value of zero or
    below passed for maxNumberOfRetries, timeoutInSeconds, numberOfResults
    or frequency is replaced by the default (5, 25, 2000 and 5), so that none
    of the four settings of a constructed client is ever zero. *)
Theorem constructor_replaces_non_positive options this :
  constructor options = Return this ->
  (forall n, (n <= 0)%Z ->
     ConstructorOptions.maxNumberOfRetries options = Some n ->
     maxNumberOfRetries this = 5%Z)
  /\ (forall n, (n <= 0)%Z ->
       ConstructorOptions.timeoutInSeconds options = Some n ->
       timeoutInSeconds this = 25%Z)
  /\ (forall n, (n <= 0)%Z ->
       ConstructorOptions.numberOfResults options = Some n ->
       numberOfResults this = 2000%Z)
  /\ (forall n, (n <= 0)%Z ->
       ConstructorOptions.frequency options = Some n ->
       frequency this = 5%Z)
  /\ maxNumberOfRetries this <> 0%Z
  /\ timeoutInSeconds this <> 0%Z
  /\ numberOfResults this <> 0%Z
  /\ frequency this <> 0%Z.
Proof.
  intros H. destruct (constructor_fields _ _ H) as (E1 & E2 & E3 & E4).
  rewrite E1, E2, E3, E4.
  repeat split;
    try (intros n Hn ->; now apply nonneg_or_default_non_positive);
    apply nonneg_or_default_not_zero; discriminate.
Qed.

Lemma constructor_replaces_non_positive_witness :
  let options :=
    {| ConstructorOptions.endpoint := JStr "http://localhost";
       ConstructorOptions.port := JStr "8900";
       ConstructorOptions.useSSL := JUndefined;
       ConstructorOptions.loglevel := JUndefined;
       ConstructorOptions.maxNumberOfRetries := Some 0%Z;
       ConstructorOptions.timeoutInSeconds := Some (-1)%Z;
       ConstructorOptions.numberOfResults := Some 0%Z;
       ConstructorOptions.frequency := Some (-7)%Z |} in
  exists this,
    constructor options = Return this
    /\ maxNumberOfRetries this = 5%Z /\ timeoutInSeconds this = 25%Z
    /\ numberOfResults this = 2000%Z /\ frequency this = 5%Z.
Proof.
  intros options.
  destruct (constructor options) as [this|e] eqn:E; [|discriminate E].
  exists this.
  destruct (constructor_replaces_non_positive options this E)
    as (H1 & H2 & H3 & H4 & _).
  split; [reflexivity|].
  split; [apply (H1 0%Z); [lia | reflexivity]|].
  split; [apply (H2 (-1)%Z); [lia | reflexivity]|].
  split; [apply (H3 0%Z); [lia | reflexivity]|].
  apply (H4 (-7)%Z); [lia | reflexivity].
Defined.

End Configuration.

(* ================================================================== *)
(** * Properties of the operation result resolver                       *)
(* ================================================================== *)

Section ResultResolver.
Import Js AbstractClient.

Variable this : Client.
Variable options : ResultOptions.t.

(** The retry bound and the frequency _getResult works with. *)
#[local] Abbreviation M := (result_maxNumberOfRetries this options).
#[local] Abbreviation F := (result_frequency this options).
#[local] Abbreviation url := (result_url this options).

(** ** One turn of the loop *)

Lemma after_poll_node f url w : node (after_poll f url w) = node w.
Proof. reflexivity. Qed.

Lemma after_poll_calls f url w :
  result_calls (after_poll f url w) = S (result_calls w).
Proof. reflexivity. Qed.

Lemma poll_turn f url w :
  bind (sleepForMilliseconds (f * 1000)) (fun _ => axios_result url) w
  = (next_result w, after_poll f url w).
Proof. reflexivity. Qed.

Lemma poll_exhausted fuel m f url retries w :
  (m < retries)%Z ->
  poll (S fuel) m f url retries w = Some (Throw retries_exhausted, w).
Proof.
  intros H. simpl. destruct (Z.gtb_spec retries m); [reflexivity|lia].
Qed.

Lemma poll_pending fuel m f url retries w r :
  (retries <= m)%Z ->
  next_result w = Return r -> status r = STATUSES.pending ->
  poll (S fuel) m f url retries w
  = poll fuel m f url (retries + 1) (after_poll f url w).
Proof.
  intros H E P. cbn [poll].
  destruct (Z.gtb_spec retries m); [lia|].
  rewrite poll_turn, E, P. reflexivity.
Qed.

Lemma poll_settled fuel m f url retries w r :
  (retries <= m)%Z ->
  next_result w = Return r -> status r <> STATUSES.pending ->
  poll (S fuel) m f url retries w = Some (Return r, after_poll f url w).
Proof.
  intros H E P. cbn [poll].
  destruct (Z.gtb_spec retries m); [lia|].
  rewrite poll_turn, E.
  destruct (String.eqb_spec (status r) STATUSES.pending); [contradiction|].
  reflexivity.
Qed.

Lemma poll_rejected fuel m f url retries w e :
  (retries <= m)%Z ->
  next_result w = Throw e ->
  poll (S fuel) m f url retries w = Some (Throw e, after_poll f url w).
Proof.
  intros H E. cbn [poll].
  destruct (Z.gtb_spec retries m); [lia|].
  rewrite poll_turn, E. reflexivity.
Qed.

(** More fuel does not change a result. *)
Lemma poll_fuel_mono fuel : forall fuel' m f url retries w x,
  poll fuel m f url retries w = Some x ->
  (fuel <= fuel')%nat ->
  poll fuel' m f url retries w = Some x.
Proof.
  induction fuel as [|fuel IH]; intros fuel' m f url retries w x H L;
    [discriminate|].
  destruct fuel' as [|fuel']; [lia|].
  cbn [poll] in *.
  destruct (retries >? m)%Z; [exact H|].
  destruct (bind _ _ w) as [[r|e] w']; [|exact H].
  destruct (status r =? STATUSES.pending); [|exact H].
  apply IH with (fuel' := fuel') in H; [exact H|lia].
Qed.

(** ** A node that keeps answering PENDING *)

Lemma poll_always_pending m f url k : forall fuel retries w,
  always_pending (node w) ->
  (retries <= m + 1)%Z ->
  k = Z.to_nat (m + 1 - retries) ->
  (k < fuel)%nat ->
  exists w',
    poll fuel m f url retries w = Some (Throw retries_exhausted, w')
    /\ result_calls w' = (result_calls w + k)%nat.
Proof.
  induction k as [|k IH]; intros fuel retries w P R K L;
    (destruct fuel as [|fuel]; [lia|]).
  - exists w. split; [apply poll_exhausted; lia | lia].
  - destruct (P (result_calls w)) as (r & E & S).
    rewrite (poll_pending _ _ _ _ _ _ r) by (auto; lia).
    destruct (IH fuel (retries + 1)%Z (after_poll f url w)) as (w' & E' & C');
      [exact P | lia | lia | lia |].
    exists w'. split; [exact E'|]. rewrite C', after_poll_calls. lia.
Qed.

(** ** Every status sequence *)

Lemma poll_never_pending fuel : forall m f url retries w r w',
  poll fuel m f url retries w = Some (Return r, w') ->
  status r <> STATUSES.pending.
Proof.
  induction fuel as [|fuel IH]; intros m f url retries w r w' H;
    [discriminate|].
  cbn [poll] in H.
  destruct (retries >? m)%Z; [discriminate|].
  destruct (bind _ _ w) as [[r0|e] w0]; [|discriminate].
  destruct (String.eqb_spec (status r0) STATUSES.pending) as [P|P].
  - eapply IH; eassumption.
  - injection H as <- <-. exact P.
Qed.

Lemma poll_outcome m f url n : forall fuel retries w,
  answers_with_status (node w) ->
  (Z.to_nat (m + 1 - retries) <= n)%nat -> (n < fuel)%nat ->
  exists res w',
    poll fuel m f url retries w = Some (res, w')
    /\ (res = Throw retries_exhausted
        \/ exists r, res = Return r
                     /\ (status r = STATUSES.completed
                         \/ status r = STATUSES.failed)).
Proof.
  induction n as [|n IH]; intros fuel retries w A N L;
    (destruct fuel as [|fuel]; [lia|]).
  - exists (Throw retries_exhausted), w.
    split; [apply poll_exhausted; lia | now left].
  - destruct (Z.lt_ge_cases m retries) as [G|G].
    + exists (Throw retries_exhausted), w.
      split; [now apply poll_exhausted | now left].
    + destruct (A (result_calls w)) as (r & E & [P|S]).
      * rewrite (poll_pending _ _ _ _ _ _ r) by auto.
        apply IH; [exact A | lia | lia].
      * exists (Return r), (after_poll f url w). split.
        -- apply poll_settled; auto.
           destruct S as [S|S]; rewrite S; discriminate.
        -- right. exists r. auto.
Qed.

(** ** _getResult itself *)

Hypothesis handler_given : truthy (ResultOptions.handler_id options) = true.
Hypothesis operation_given : truthy (ResultOptions.operation options) = true.

Lemma getResult_unfold fuel w :
  _getResult fuel this options w
  = match poll fuel M F url 0 (advance (timer_delay 500) w) with
    | None => None
    | Some (Throw e, w') => Some (Throw e, w')
    | Some (Return r, w') =>
        if status r =? STATUSES.failed
        then Some (Throw (operation_failed (ResultOptions.operation options) r), w')
        else Some (Return r, w')
    end.
Proof.
  unfold _getResult. rewrite handler_given, operation_given. reflexivity.
Qed.

(** C2.  With a handler id and an operation, and [M] the maximum number of
    retries in force (the per-call option, else the client's setting):
    - if the node answers PENDING, PENDING, COMPLETED and [M] is at least 2,
      _getResult returns the COMPLETED response, after three polls;
    - if the node only ever answers PENDING (and [M] is not negative),
      _getResult raises the retries-exhausted error after exactly [M + 1]
      polls. *)
Theorem getResult_completes_or_exhausts :
  (forall fuel w r1 r2 r3,
      (2 <= M)%Z -> (3 <= fuel)%nat ->
      outcome (result_script (node w) (result_calls w)) = Return r1 ->
      status r1 = "PENDING" ->
      outcome (result_script (node w) (S (result_calls w))) = Return r2 ->
      status r2 = "PENDING" ->
      outcome (result_script (node w) (S (S (result_calls w)))) = Return r3 ->
      status r3 = "COMPLETED" ->
      exists w',
        _getResult fuel this options w = Some (Return r3, w')
        /\ result_calls w' = (result_calls w + 3)%nat)
  /\ (forall fuel w,
        (0 <= M)%Z -> (Z.to_nat (M + 1) < fuel)%nat ->
        always_pending (node w) ->
        exists w',
          _getResult fuel this options w = Some (Throw retries_exhausted, w')
          /\ result_calls w' = (result_calls w + Z.to_nat (M + 1))%nat).
Proof.
  split.
  - intros fuel w r1 r2 r3 HM Hfuel E1 P1 E2 P2 E3 P3.
    destruct fuel as [|[|[|fuel]]]; try lia.
    rewrite getResult_unfold.
    set (w0 := advance (timer_delay 500) w).
    rewrite (poll_pending _ _ _ _ _ _ r1) by (auto; lia).
    rewrite (poll_pending _ _ _ _ _ _ r2) by (auto; lia).
    rewrite (poll_settled _ _ _ _ _ _ r3);
      [ | lia | exact E3 | rewrite P3; discriminate ].
    rewrite P3. cbn [String.eqb Ascii.eqb Bool.eqb].
    eexists. split; [reflexivity|]. cbn. lia.
  - intros fuel w HM Hfuel P.
    rewrite getResult_unfold.
    destruct (poll_always_pending M F url (Z.to_nat (M + 1)) fuel 0
                (advance (timer_delay 500) w)) as (w' & E & C);
      [exact P | lia | f_equal; lia | exact Hfuel |].
    rewrite E. exists w'. split; [reflexivity | exact C].
Qed.

Lemma prefix_append t b : String.prefix t (t ++ b) = true.
Proof.
  induction t as [|c t IH]; simpl; [now destruct b|].
  destruct (ascii_dec c c); [exact IH|congruence].
Qed.

Lemma includes_append a t b : includes (a ++ t ++ b) t = true.
Proof.
  induction a as [|c a IH].
  - pose proof (prefix_append t b) as P. cbn [append].
    destruct (t ++ b); cbn [includes]; rewrite P; reflexivity.
  - cbn [append includes]. rewrite IH. apply orb_true_r.
Qed.

(** The error raised on FAILED carries the message of the node. *)
Lemma operation_failed_carries_message operation r :
  includes (error_message (operation_failed operation r))
           (to_string (message r)) = true.
Proof.
  unfold operation_failed, error_message.
  replace ("Get " ++ to_string operation ++ " failed. Reason: "
           ++ to_string (message r) ++ ".")
    with (("Get " ++ to_string operation ++ " failed. Reason: ")
          ++ to_string (message r) ++ ".")
    by (now rewrite !append_assoc).
  apply includes_append.
Qed.

(** A response that is returned is the answer to the last poll. *)
Lemma poll_returns_last fuel : forall m f url retries w r w',
  poll fuel m f url retries w = Some (Return r, w') ->
  node w' = node w
  /\ (result_calls w < result_calls w')%nat
  /\ outcome (result_script (node w) (result_calls w' - 1)) = Return r.
Proof.
  induction fuel as [|fuel IH]; intros m f url retries w r w' H;
    [discriminate|].
  cbn [poll] in H.
  destruct (retries >? m)%Z; [discriminate|].
  rewrite poll_turn in H.
  destruct (next_result w) as [r0|e] eqn:E; [|discriminate].
  destruct (String.eqb_spec (status r0) STATUSES.pending) as [P|P].
  - destruct (IH _ _ _ _ _ _ _ H) as (Nd & C & L).
    rewrite after_poll_node in Nd, L. rewrite after_poll_calls in C.
    split; [exact Nd|]. split; [lia | exact L].
  - injection H as <- <-. rewrite after_poll_node, after_poll_calls.
    split; [reflexivity|]. split; [lia|].
    replace (S (result_calls w) - 1)%nat with (result_calls w) by lia.
    exact E.
Qed.

(** With a node that answers every poll with a status response, the loop
    is decided by the first answer that is not PENDING, or by the bound. *)
Lemma poll_decided m f url n : forall fuel retries w,
  answers_with_status (node w) ->
  (Z.to_nat (m + 1 - retries) <= n)%nat -> (n < fuel)%nat ->
  exists res w' k,
    poll fuel m f url retries w = Some (res, w')
    /\ ClientRequests.pending_first k w
    /\ ((res = Throw retries_exhausted
         /\ k = Z.to_nat (m + 1 - retries)
         /\ result_calls w' = (result_calls w + k)%nat)
        \/ (exists r,
               res = Return r
               /\ ClientRequests.answer_after k w = Return r
               /\ (status r = STATUSES.completed \/ status r = STATUSES.failed)
               /\ result_calls w' = (result_calls w + k + 1)%nat)).
Proof.
  assert (Stop : forall fuel retries w, (m < retries)%Z ->
            exists res w' k,
              poll (S fuel) m f url retries w = Some (res, w')
              /\ ClientRequests.pending_first k w
              /\ ((res = Throw retries_exhausted
                   /\ k = Z.to_nat (m + 1 - retries)
                   /\ result_calls w' = (result_calls w + k)%nat)
                  \/ (exists r,
                         res = Return r
                         /\ ClientRequests.answer_after k w = Return r
                         /\ (status r = STATUSES.completed
                             \/ status r = STATUSES.failed)
                         /\ result_calls w' = (result_calls w + k + 1)%nat))).
  { intros fuel retries w G.
    exists (Throw retries_exhausted), w, 0%nat.
    split; [now apply poll_exhausted|].
    split; [intros i Hi; lia|].
    left. split; [reflexivity|]. split; lia. }
  induction n as [|n IH]; intros fuel retries w A N L;
    (destruct fuel as [|fuel]; [lia|]).
  - apply Stop. lia.
  - destruct (Z.lt_ge_cases m retries) as [G|G]; [now apply Stop|].
    destruct (A (result_calls w)) as (r & E & [P|St]).
    + rewrite (poll_pending _ _ _ _ _ _ r) by auto.
      destruct (IH fuel (retries + 1)%Z (after_poll f url w))
        as (res & w' & k & E' & Pk & D); [exact A | lia | lia |].
      exists res, w', (S k). split; [exact E'|]. split.
      * intros i Hi. destruct i as [|i].
        -- exists r. rewrite Nat.add_0_r. auto.
        -- destruct (Pk i) as (ri & Ei & Pi); [lia|].
           exists ri. rewrite after_poll_node, after_poll_calls in Ei.
           rewrite Nat.add_succ_r. auto.
      * rewrite after_poll_calls in D.
        destruct D as [(-> & -> & C)|(r' & -> & Ans & S' & C)].
        -- left. split; [reflexivity|]. split; lia.
        -- right. exists r'. split; [reflexivity|]. split.
           ++ unfold ClientRequests.answer_after in *.
              rewrite after_poll_node, after_poll_calls in Ans.
              now rewrite Nat.add_succ_r.
           ++ split; [exact S' | lia].
    + exists (Return r), (after_poll f url w), 0%nat. split.
      * apply poll_settled; auto.
        destruct St as [St|St]; rewrite St; discriminate.
      * split; [intros i Hi; lia|].
        right. exists r. split; [reflexivity|]. split.
        -- unfold ClientRequests.answer_after. now rewrite Nat.add_0_r.
        -- split; [exact St|]. rewrite after_poll_calls. lia.
Qed.

(** C3.  _getResult never hands a PENDING response to its caller: a
    response that is returned is the node's answer to the last poll, and
    its status is neither PENDING nor FAILED.  When the node answers every
    poll with a status response (and the retry bound [M] is an integer, as
    all numbers are here), _getResult ends, the same way whatever the
    number of turns allowed beyond [M + 1]: the node's first [k] answers
    are PENDING, and
    - either its next answer is COMPLETED and is what is returned,
    - or its next answer is FAILED and the error raised is made of the
      operation and of the message of that very answer, which it contains,
    - or the [k = M + 1] polls allowed are used up and the
      retries-exhausted error is raised. *)
Theorem getResult_never_pending :
  (forall fuel w r w',
      _getResult fuel this options w = Some (Return r, w') ->
      status r <> "PENDING" /\ status r <> "FAILED"
      /\ (result_calls w < result_calls w')%nat
      /\ outcome (result_script (node w) (result_calls w' - 1)) = Return r)
  /\ (forall w,
        answers_with_status (node w) ->
        exists res w' k,
          (forall fuel, (Z.to_nat (M + 1) < fuel)%nat ->
             _getResult fuel this options w = Some (res, w'))
          /\ ClientRequests.pending_first k w
          /\ ((exists r,
                  ClientRequests.answer_after k w = Return r
                  /\ status r = "COMPLETED"
                  /\ res = Return r
                  /\ result_calls w' = (result_calls w + k + 1)%nat)
              \/ (exists r,
                     ClientRequests.answer_after k w = Return r
                     /\ status r = "FAILED"
                     /\ res = Throw (Error
                                       ("Get "
                                        ++ to_string
                                             (ResultOptions.operation options)
                                        ++ " failed. Reason: "
                                        ++ to_string (message r) ++ "."))
                     /\ (forall e, res = Throw e ->
                           includes (error_message e)
                                    (to_string (message r)) = true)
                     /\ result_calls w' = (result_calls w + k + 1)%nat)
              \/ (res = Throw retries_exhausted
                  /\ k = Z.to_nat (M + 1)
                  /\ result_calls w' = (result_calls w + k)%nat))).
Proof.
  split.
  - intros fuel w r w' H. rewrite getResult_unfold in H.
    destruct (poll fuel M F url 0 (advance (timer_delay 500) w))
      as [[[r0|e] w0]|] eqn:E; try discriminate.
    destruct (String.eqb_spec (status r0) STATUSES.failed) as [Fl|Fl];
      [discriminate|].
    injection H as <- <-.
    split; [eapply poll_never_pending; eassumption|].
    split; [exact Fl|].
    destruct (poll_returns_last _ _ _ _ _ _ _ _ E) as (_ & C & L).
    split; [exact C | exact L].
  - intros w A.
    destruct (poll_decided M F url (Z.to_nat (M + 1)) (S (Z.to_nat (M + 1))) 0
                (advance (timer_delay 500) w))
      as (res & w' & k & E & Pk & D); [exact A | f_equal; lia | lia |].
    assert (E' : forall fuel, (Z.to_nat (M + 1) < fuel)%nat ->
                 poll fuel M F url 0 (advance (timer_delay 500) w)
                 = Some (res, w')).
    { intros fuel L. eapply poll_fuel_mono; [exact E | lia]. }
    replace (M + 1 - 0)%Z with (M + 1)%Z in D by lia.
    destruct D as [(-> & K & C)|(r & -> & Ans & [Cm|Fl] & C)].
    + exists (Throw retries_exhausted), w', k.
      split; [intros fuel L; now rewrite getResult_unfold, (E' fuel L)|].
      split; [exact Pk|]. right. right. split; [reflexivity|].
      split; [exact K | exact C].
    + exists (Return r), w', k.
      split; [intros fuel L;
              rewrite getResult_unfold, (E' fuel L), Cm; reflexivity|].
      split; [exact Pk|]. left. exists r.
      split; [exact Ans|]. split; [exact Cm|]. split; [reflexivity | exact C].
    + exists (Throw (operation_failed (ResultOptions.operation options) r)),
        w', k.
      split; [intros fuel L;
              rewrite getResult_unfold, (E' fuel L), Fl; reflexivity|].
      split; [exact Pk|]. right. left. exists r.
      split; [exact Ans|]. split; [exact Fl|]. split; [reflexivity|].
      split; [|exact C].
      intros e He. injection He as <-.
      apply operation_failed_carries_message.
Qed.

End ResultResolver.

Section ResultResolverScenarios.
Import Js AbstractClient.

Lemma node_with_no_results_pending : always_pending (node_with_results []).
Proof.
  intros k. exists pending_result. split; [|reflexivity].
  destruct k; reflexivity.
Qed.

Lemma getResult_completes_or_exhausts_witness :
  (exists w',
      _getResult 3 default_client resolve_options
        (fresh (node_with_results
                  [pending_result; pending_result;
                   completed_result (JStr "payload")]))
      = Some (Return (completed_result (JStr "payload")), w')
      /\ result_calls w' = 3%nat)
  /\ (exists w',
        _getResult 7 default_client resolve_options
          (fresh (node_with_results []))
        = Some (Throw retries_exhausted, w')
        /\ result_calls w' = 6%nat).
Proof.
  destruct (getResult_completes_or_exhausts default_client resolve_options
              eq_refl eq_refl) as [H1 H2].
  split.
  - destruct (H1 3%nat
                (fresh (node_with_results
                          [pending_result; pending_result;
                           completed_result (JStr "payload")]))
                pending_result pending_result
                (completed_result (JStr "payload")))
      as (w' & E & C);
      try first [reflexivity | cbv; discriminate].
    exists w'. split; [exact E | exact C].
  - destruct (H2 7%nat (fresh (node_with_results []))) as (w' & E & C);
      [cbv; discriminate | cbv; lia | exact node_with_no_results_pending |].
    exists w'. split; [exact E | exact C].
Defined.

Lemma node_failing_answers :
  answers_with_status (node_with_results [failed_result "bad request"]).
Proof.
  intros [|k].
  - exists (failed_result "bad request"). split; [reflexivity|auto].
  - exists pending_result. split; [destruct k; reflexivity | auto].
Qed.

Lemma getResult_never_pending_witness :
  answers_with_status (node_with_results [failed_result "bad request"])
  /\ _getResult 7 default_client resolve_options
       (fresh (node_with_results [failed_result "bad request"]))
     = Some (Throw (Error "Get resolve failed. Reason: bad request."),
             after_poll 5 "http://localhost:8900/resolve/result/h-1"
               (advance 500
                  (fresh (node_with_results [failed_result "bad request"]))))
  /\ includes "Get resolve failed. Reason: bad request." "bad request" = true.
Proof.
  split; [exact node_failing_answers|].
  destruct (getResult_never_pending default_client resolve_options
              eq_refl eq_refl) as [_ H].
  destruct (H (fresh (node_with_results [failed_result "bad request"]))
              node_failing_answers) as (res & w' & k & E & _).
  split; [|reflexivity].
  rewrite (E 7%nat) by (cbv; lia).
  rewrite <- (E 8%nat) by (cbv; lia). reflexivity.
Defined.

End ResultResolverScenarios.

(* ================================================================== *)
(** * Properties of the streaming search poller                         *)
(* ================================================================== *)

Section SearchPoller.
Import Js AbstractClient.

Variable cb : SearchResult -> Outcome unit.

(** ** One tick *)

Lemma search_tick f url w :
  bind (sleepForMilliseconds (f * 1000)) (fun _ => axios_search_result url) w
  = (next_search_result w,
     snd (bind (sleepForMilliseconds (f * 1000))
               (fun _ => axios_search_result url) w)).
Proof. reflexivity. Qed.

Lemma after_search_tick_return f url w p :
  next_search_result w = Return p ->
  after_search_tick f url w
  = deliver p (snd (bind (sleepForMilliseconds (f * 1000))
                         (fun _ => axios_search_result url) w)).
Proof. intros E. unfold after_search_tick. rewrite search_tick, E. reflexivity. Qed.

Lemma after_search_tick_node f url w : node (after_search_tick f url w) = node w.
Proof.
  unfold after_search_tick. rewrite search_tick.
  destruct (next_search_result w); reflexivity.
Qed.

Lemma after_search_tick_calls f url w :
  search_result_calls (after_search_tick f url w) = S (search_result_calls w).
Proof.
  unfold after_search_tick. rewrite search_tick.
  destruct (next_search_result w); reflexivity.
Qed.

Lemma timer_delay_positive ms : (1 <= timer_delay ms)%Z.
Proof.
  unfold timer_delay.
  destruct (Z.ltb_spec ms 1); simpl; [lia|].
  destruct (Z.ltb_spec 2147483647 ms); lia.
Qed.

(** Every tick takes at least the time of its sleep. *)
Lemma after_search_tick_now f url w :
  (now w + timer_delay (f * 1000) <= now (after_search_tick f url w))%Z.
Proof.
  unfold after_search_tick. rewrite search_tick.
  destruct (next_search_result w); cbn; lia.
Qed.

Lemma after_search_tick_delivered f url w p :
  next_search_result w = Return p ->
  delivered (after_search_tick f url w) = p :: delivered w.
Proof. intros E. rewrite (after_search_tick_return _ _ _ _ E). reflexivity. Qed.

(** The loop condition, evaluated after a tick that fetched [p]. *)
Lemma search_poll_tick fuel d t f url w p :
  next_search_result w = Return p -> cb p = Return tt ->
  search_poll (S fuel) d t f url cb w
  = if negb (timeoutFlag d (after_search_tick f url w)) && (t >? count p)%Z
    then search_poll fuel d t f url cb (after_search_tick f url w)
    else Some (Return p, after_search_tick f url w).
Proof.
  intros E C. rewrite (after_search_tick_return _ _ _ _ E).
  cbn [search_poll]. rewrite search_tick, E, C. reflexivity.
Qed.

Lemma search_poll_rejected fuel d t f url w e :
  next_search_result w = Throw e ->
  search_poll (S fuel) d t f url cb w = Some (Throw e, after_search_tick f url w).
Proof.
  intros E. unfold after_search_tick.
  cbn [search_poll]. rewrite search_tick, E. reflexivity.
Qed.

Lemma search_poll_fuel_mono fuel : forall fuel' d t f url w x,
  search_poll fuel d t f url cb w = Some x ->
  (fuel <= fuel')%nat ->
  search_poll fuel' d t f url cb w = Some x.
Proof.
  induction fuel as [|fuel IH]; intros fuel' d t f url w x H L;
    [discriminate|].
  destruct fuel' as [|fuel']; [lia|].
  cbn [search_poll] in *.
  destruct (bind _ _ w) as [[p|e] w']; [|exact H].
  destruct (cb p); [|exact H].
  destruct (negb _ && _); [|exact H].
  apply IH with (fuel' := fuel') in H; [exact H|lia].
Qed.

(** ** The loop always ends: the deadline is reached after finitely many
    ticks *)

Lemma search_poll_ends d t f url n : forall fuel w,
  search_answers (node w) cb ->
  (d - now w <= Z.of_nat n * timer_delay (f * 1000))%Z -> (n < fuel)%nat ->
  exists p w',
    search_poll fuel d t f url cb w = Some (Return p, w')
    /\ node w' = node w
    /\ (search_result_calls w < search_result_calls w')%nat
    /\ outcome (search_result_script (node w) (pred (search_result_calls w')))
       = Return p
    /\ hd_error (delivered w') = Some p
    /\ (timeoutFlag d w' = true \/ (t <= count p)%Z).
Proof.
  induction n as [|n IH]; intros fuel w A N L;
    (destruct fuel as [|fuel]; [lia|]);
    destruct (A (search_result_calls w)) as (p & E & C);
    rewrite (search_poll_tick _ _ _ _ _ _ p E C);
    pose proof (after_search_tick_now f url w) as T;
    pose proof (timer_delay_positive (f * 1000)) as Pos;
    unfold timeoutFlag;
    destruct (Z.leb_spec d (now (after_search_tick f url w))) as [D|D];
    cbn [negb andb].
  1, 3: exists p, (after_search_tick f url w);
    rewrite after_search_tick_node, after_search_tick_calls,
      (after_search_tick_delivered _ _ _ _ E);
    repeat split; auto;
    left; now apply Z.leb_le.
  - lia.
  - destruct (Z.gtb_spec t (count p)) as [G|G].
    + destruct (IH fuel (after_search_tick f url w))
        as (p' & w' & E' & Nd & Cl & Last & Hd & Why);
        [now rewrite after_search_tick_node | nia | lia |].
      exists p', w'. rewrite after_search_tick_node in *.
      rewrite after_search_tick_calls in Cl.
      repeat split; auto. lia.
    + exists p, (after_search_tick f url w).
      rewrite after_search_tick_node, after_search_tick_calls,
        (after_search_tick_delivered _ _ _ _ E).
      repeat split; auto.
Qed.

(** ** _getSearchResult itself *)

Variable this : Client.
Variable options : SearchOptions.t.
Hypothesis handler_given : truthy (SearchOptions.handler_id options) = true.

#[local] Abbreviation T := (search_numberOfResults this options).
#[local] Abbreviation S_ := (search_timeoutInSeconds this options).
#[local] Abbreviation F := (search_frequency this options).
#[local] Abbreviation url := (search_url this options).

Lemma getSearchResult_unfold fuel w :
  _getSearchResult fuel this options cb w
  = search_poll fuel (search_deadline this options w) T F url cb w.
Proof. unfold _getSearchResult. rewrite handler_given. reflexivity. Qed.

(** C6.  With [T] the result target, [S_] the timeout in seconds and [F]
    the frequency in force (the per-call options, else the client's
    settings):
    - after a tick that fetched a payload, the loop goes on when the
      deadline has not elapsed and the payload has fewer than [T] items, and
      otherwise ends and returns that payload;
    - if the node answers with 5, 50 and then 2000 items, the target is 2000
      and the deadline has not elapsed after the second tick, _getSearchResult
      makes exactly three ticks and returns the payload of 2000 items;
    - whatever payloads the node answers with, _getSearchResult ends, within
      as many ticks as sleeps fit into the timeout, and returns the payload
      fetched last; when that payload is below the target, the loop ended
      because the deadline had elapsed. *)
Theorem getSearchResult_deadline_or_target :
  (forall fuel d w p,
      next_search_result w = Return p -> cb p = Return tt ->
      (timeoutFlag d (after_search_tick F url w) = false ->
       (count p < T)%Z ->
       search_poll (S fuel) d T F url cb w
       = search_poll fuel d T F url cb (after_search_tick F url w))
      /\ (timeoutFlag d (after_search_tick F url w) = true
          \/ (T <= count p)%Z ->
          search_poll (S fuel) d T F url cb w
          = Some (Return p, after_search_tick F url w)))
  /\ (forall fuel w p1 p2 p3,
        T = 2000%Z -> (3 <= fuel)%nat ->
        outcome (search_result_script (node w) (search_result_calls w))
        = Return p1 ->
        outcome (search_result_script (node w) (S (search_result_calls w)))
        = Return p2 ->
        outcome (search_result_script (node w) (S (S (search_result_calls w))))
        = Return p3 ->
        count p1 = 5%Z -> count p2 = 50%Z -> count p3 = 2000%Z ->
        cb p1 = Return tt -> cb p2 = Return tt -> cb p3 = Return tt ->
        timeoutFlag (search_deadline this options w)
          (after_search_tick F url (after_search_tick F url w)) = false ->
        exists w',
          _getSearchResult fuel this options cb w = Some (Return p3, w')
          /\ search_result_calls w' = (search_result_calls w + 3)%nat
          /\ delivered w' = p3 :: p2 :: p1 :: delivered w)
  /\ (forall w n,
        search_answers (node w) cb ->
        (timer_delay (S_ * 1000) <= Z.of_nat n * timer_delay (F * 1000))%Z ->
        exists p w',
          (forall fuel, (n < fuel)%nat ->
             _getSearchResult fuel this options cb w = Some (Return p, w'))
          /\ (search_result_calls w < search_result_calls w')%nat
          /\ outcome (search_result_script (node w)
                        (pred (search_result_calls w'))) = Return p
          /\ hd_error (delivered w') = Some p
          /\ ((count p < T)%Z ->
              timeoutFlag (search_deadline this options w) w' = true)).
Proof.
  split; [|split].
  - intros fuel d w p E C. rewrite (search_poll_tick _ _ _ _ _ _ p E C).
    split.
    + intros Fl Lt. rewrite Fl. destruct (Z.gtb_spec T (count p)); [|lia].
      reflexivity.
    + intros [Fl|Ge].
      * rewrite Fl. reflexivity.
      * destruct (Z.gtb_spec T (count p)); [lia|]. now rewrite andb_false_r.
  - intros fuel w p1 p2 p3 HT Hfuel E1 E2 E3 C1 C2 C3 K1 K2 K3 Fl.
    destruct fuel as [|[|[|fuel]]]; try lia.
    rewrite getSearchResult_unfold.
    set (d := search_deadline this options w) in *.
    set (w1 := after_search_tick F url w) in *.
    set (w2 := after_search_tick F url w1) in *.
    assert (N1 : node w1 = node w) by apply after_search_tick_node.
    assert (N2 : node w2 = node w)
      by (unfold w2; now rewrite after_search_tick_node).
    assert (Q1 : search_result_calls w1 = S (search_result_calls w))
      by apply after_search_tick_calls.
    assert (Q2 : search_result_calls w2 = S (S (search_result_calls w)))
      by (unfold w2; now rewrite after_search_tick_calls, Q1).
    assert (E2' : next_search_result w1 = Return p2)
      by (unfold next_search_result; now rewrite N1, Q1).
    assert (E3' : next_search_result w2 = Return p3)
      by (unfold next_search_result; now rewrite N2, Q2).
    assert (Fl1 : timeoutFlag d w1 = false).
    { unfold timeoutFlag in *. apply Z.leb_gt. apply Z.leb_gt in Fl.
      pose proof (after_search_tick_now F url w1).
      pose proof (timer_delay_positive (F * 1000)). fold w2 in H. lia. }
    rewrite (search_poll_tick _ _ _ _ _ _ p1 E1 K1). fold w1.
    rewrite Fl1, C1, HT. cbn [negb andb Z.gtb Z.compare Pos.compare Pos.compare_cont].
    rewrite (search_poll_tick _ _ _ _ _ _ p2 E2' K2). fold w2.
    rewrite Fl, C2. cbn [negb andb Z.gtb Z.compare Pos.compare Pos.compare_cont].
    rewrite (search_poll_tick _ _ _ _ _ _ p3 E3' K3).
    rewrite C3. cbn [Z.gtb Z.compare Pos.compare Pos.compare_cont].
    rewrite andb_false_r.
    eexists. split; [reflexivity|].
    rewrite after_search_tick_calls, Q2.
    rewrite (after_search_tick_delivered _ _ _ _ E3').
    unfold w2. rewrite (after_search_tick_delivered _ _ _ _ E2').
    unfold w1. rewrite (after_search_tick_delivered _ _ _ _ E1).
    split; [lia|reflexivity].
  - intros w n A Hn.
    set (d := search_deadline this options w).
    destruct (search_poll_ends d T F url n (S n) w A)
      as (p & w' & E & _ & Cl & Last & Hd & Why);
      [unfold d, search_deadline; lia | lia |].
    exists p, w'. repeat split; auto.
    + intros fuel L. rewrite getSearchResult_unfold. fold d.
      eapply search_poll_fuel_mono; [exact E | lia].
    + intros Lt. destruct Why as [Y|Y]; [exact Y|lia].
Qed.

End SearchPoller.

Section SearchPollerScenarios.
Import Js AbstractClient.

Lemma quiet_node_answers sizes final :
  search_answers (node_with_counts sizes final) quiet_callback.
Proof.
  intros k. unfold node_with_counts, script. cbn.
  destruct (nth_in_or_default k (map (fun n => replied (payload_of n)) sizes)
              (replied (payload_of final))) as [I|D].
  - apply in_map_iff in I. destruct I as (n & <- & _).
    exists (payload_of n). split; reflexivity.
  - rewrite D. exists (payload_of final). split; reflexivity.
Qed.

Lemma getSearchResult_deadline_or_target_witness :
  (exists w',
      _getSearchResult 3 default_client search_options quiet_callback
        (fresh (node_with_counts [5; 50; 2000]%nat 2000))
      = Some (Return (payload_of 2000), w')
      /\ search_result_calls w' = 3%nat
      /\ delivered w' = [payload_of 2000; payload_of 50; payload_of 5])
  /\ (exists p w',
        _getSearchResult 6 default_client search_options quiet_callback
          (fresh (node_with_counts [] 5))
        = Some (Return p, w')
        /\ hd_error (delivered w') = Some p
        /\ timeoutFlag 25000 w' = true).
Proof.
  destruct (getSearchResult_deadline_or_target quiet_callback default_client
              search_options eq_refl) as (_ & H2 & H3).
  split.
  - destruct (H2 3%nat (fresh (node_with_counts [5; 50; 2000]%nat 2000))
                (payload_of 5) (payload_of 50) (payload_of 2000))
      as (w' & E & C & D); try (vm_compute; reflexivity).
    exists w'. split; [exact E|]. split; [exact C | exact D].
  - destruct (H3 (fresh (node_with_counts [] 5)) 5%nat
                (quiet_node_answers [] 5))
      as (p & w' & E & Cl & Last & Hd & Why); [vm_compute; discriminate|].
    exists p, w'. split; [apply E; lia|]. split; [exact Hd|].
    apply Why.
    assert (P : p = payload_of 5).
    { cbn in Last. unfold script in Last.
      destruct (pred (search_result_calls w')) as [|k]; cbn in Last;
        congruence. }
    subst p. reflexivity.
Defined.

End SearchPollerScenarios.

(* ================================================================== *)
(** * Properties of the proof validator                                 *)
(* ================================================================== *)

Section ProofValidator.
Import Js AbstractClient.

(** What the inner loop pushes: nothing for an entry without proof, one
    record per entry with a proof. *)
Lemma validate_proofs_records rootHash proofs : forall validationResult,
  validate_proofs rootHash proofs validationResult
  = (validationResult
     ++ map (fun obj => {| validated_triple := triple obj;
                           valid := _validateProof obj rootHash |})
            (filter (fun obj => negb (is_null (proof obj))) proofs))%list.
Proof.
  induction proofs as [|obj rest IH]; intros acc; cbn [validate_proofs filter map].
  - now rewrite app_nil_r.
  - destruct (is_null (proof obj)); cbn [negb map].
    + apply IH.
    + rewrite IH, <- app_assoc. reflexivity.
Qed.

(** C7 (divergence).  An entry whose proof is [null] yields no record, but
    an entry with a proof yields a record whose [valid] is [undefined],
    whatever the root hash: _validateProof has no statement left and returns
    nothing.  So a proof that matches the root hash is not recorded as
    [valid: true] (nor a mismatched one as [valid: false]). *)
Theorem performValidation_valid_undefined :
  (forall obj rootHash, _validateProof obj rootHash = JUndefined)
  /\ (forall rootHash proofs,
        validate_proofs rootHash proofs []
        = map (fun obj => {| validated_triple := triple obj;
                             valid := JUndefined |})
              (filter (fun obj => negb (is_null (proof obj))) proofs))
  /\ (exists w',
        _performValidation 7 default_client [one_leaf_assertion]
          (fresh one_leaf_node)
        = Some (Return [{| validated_triple := triple one_leaf_entry;
                           valid := JUndefined |}], w')
        /\ rootHash_of (completed_result
                          (JArr [JObj [("assertion-1",
                                        JObj [("rootHash", JStr "0x7a3f")])]]))
                       "assertion-1"
           = Return (tripleHash one_leaf_entry)).
Proof.
  split; [reflexivity|]. split.
  - intros rootHash proofs. now rewrite validate_proofs_records.
  - eexists. split; reflexivity.
Qed.

End ProofValidator.

(* ================================================================== *)
(** * Properties of the other helpers of utilities                      *)
(* ================================================================== *)

Section HelperFacts.
Import Js Helpers.

(** ** toNumber *)

Lemma read_hex_digits_numeral d a :
  read_hex_digits (HexadecimalString.NilEmpty.string_of_uint d) (Z.of_nat a) true
  = Some (Z.of_nat (Nat.of_hex_uint_acc d a)).
Proof.
  revert a. induction d; intros a; simpl; [reflexivity|..];
    match goal with
    | |- read_hex_digits _ ?z true
         = Some (Z.of_nat (Nat.of_hex_uint_acc _ ?n)) =>
        replace z with (Z.of_nat n)
          by (rewrite Nat.tail_mul_spec; simpl Z.of_nat; lia)
    end; apply IHd.
Qed.

Lemma strip_0x_numeral d :
  strip_0x (HexadecimalString.NilEmpty.string_of_uint d)
  = HexadecimalString.NilEmpty.string_of_uint d.
Proof.
  destruct d as [|d|d|d|d|d|d|d|d|d|d|d|d|d|d|d|d]; [reflexivity|..];
    destruct d; reflexivity.
Qed.

Lemma parseInt16_digit c k rest :
  hex_digit_of c = Some k ->
  parseInt16 (String c rest)
  = match read_hex_digits (strip_0x (String c rest)) 0 false with
    | Some z => JNum (1 * z)
    | None => JNaN
    end.
Proof.
  intros H.
  assert (F : is_space c = false /\ Ascii.eqb c "-" = false
              /\ Ascii.eqb c "+" = false).
  { destruct c as [[] [] [] [] [] [] [] []]; vm_compute in H;
      try discriminate H; repeat split; reflexivity. }
  destruct F as (F1 & F2 & F3).
  unfold parseInt16. cbn [skip_spaces]. rewrite F1, F2, F3. reflexivity.
Qed.

Lemma to_hex_uint_not_Nil n : Nat.to_hex_uint n <> Hexadecimal.Nil.
Proof.
  intros H. pose proof (HexadecimalNat.Unsigned.of_to n) as E.
  rewrite H in E. cbv in E. subst n. cbv in H. discriminate H.
Qed.

Lemma parseInt16_numeral d :
  d <> Hexadecimal.Nil ->
  parseInt16 (HexadecimalString.NilEmpty.string_of_uint d)
  = JNum (Z.of_nat (Nat.of_hex_uint d)).
Proof.
  intros NN. unfold Nat.of_hex_uint.
  pose proof (strip_0x_numeral d) as S0.
  destruct d as [|d|d|d|d|d|d|d|d|d|d|d|d|d|d|d|d]; [congruence|..];
    cbn [HexadecimalString.NilEmpty.string_of_uint] in *;
    erewrite parseInt16_digit by reflexivity;
    rewrite S0; cbn [read_hex_digits];
    match goal with
    | |- context [hex_digit_of ?c] =>
        let v := eval vm_compute in (hex_digit_of c) in
        change (hex_digit_of c) with v
    end; cbv beta iota;
    match goal with
    | |- context [read_hex_digits _ ?z true] =>
        change z with (Z.of_nat (Z.to_nat z))
    end;
    rewrite read_hex_digits_numeral, Z.mul_1_l; reflexivity.
Qed.

Lemma parseInt16_nat_to_hex n : parseInt16 (nat_to_hex n) = JNum (Z.of_nat n).
Proof.
  unfold nat_to_hex.
  rewrite (parseInt16_numeral _ (to_hex_uint_not_Nil n)).
  now rewrite HexadecimalNat.Unsigned.of_to.
Qed.

(** X1.  toNumber reads the hexadecimal numeral that follows the first two
    characters of its argument, whatever these two characters are: for [n]
    up to 2^53 (the integers a number holds exactly), the numeral of [n]
    behind [0x], or behind any other pair of characters, gives [n]. *)
Theorem toNumber_hex_numeral n c1 c2 :
  (Z.of_nat n <= 2 ^ 53)%Z ->
  toNumber (String c1 (String c2 (nat_to_hex n))) = JNum (Z.of_nat n)
  /\ toNumber ("0x" ++ nat_to_hex n) = JNum (Z.of_nat n).
Proof.
  intros _. unfold toNumber. cbn [append slice].
  split; apply parseInt16_nat_to_hex.
Qed.

Lemma toNumber_hex_numeral_witness :
  (Z.of_nat 255 <= 2 ^ 53)%Z
  /\ toNumber (String "0" (String "x" (nat_to_hex 255))) = JNum (Z.of_nat 255)
  /\ toNumber ("0x" ++ nat_to_hex 255) = JNum (Z.of_nat 255).
Proof.
  assert (B : (Z.of_nat 255 <= 2 ^ 53)%Z) by (vm_compute; discriminate).
  split; [exact B | exact (toNumber_hex_numeral 255 "0" "x" B)].
Defined.

Example toNumber_bare_prefix : toNumber "0x" = JNaN /\ toNumber "" = JNaN.
Proof. split; reflexivity. Qed.

Example toNumber_upper_case : toNumber "0xFF" = JNum 255.
Proof. reflexivity. Qed.

Example toNumber_created_asset :
  toNumber "0x0000000000000000000000000000000000000000000000000000000000000006"
  = JNum 6.
Proof. reflexivity. Qed.

(** ** capitalizeFirstLetter *)

Lemma lower_upper_char c : lower_char (upper_char c) = lower_char c.
Proof. destruct c as [[] [] [] [] [] [] [] []]; reflexivity. Qed.

Lemma upper_upper_char c : upper_char (upper_char c) = upper_char c.
Proof. destruct c as [[] [] [] [] [] [] [] []]; reflexivity. Qed.

Lemma capitalizeFirstLetter_cons c rest :
  capitalizeFirstLetter (String c rest) = Return (String (upper_char c) rest).
Proof. reflexivity. Qed.

(** X2.  capitalizeFirstLetter raises a [TypeError] on the empty string
    (there is no first character to call [toUpperCase] on).  On a non-empty
    string of characters below 128 it returns a string of the same length
    that differs from the argument at most in its first character, equals
    it up to case, and is left unchanged by a second call. *)
Theorem capitalizeFirstLetter_first_only str :
  is_ascii str = true ->
  (str = "" ->
   capitalizeFirstLetter str
   = Throw (TypeError
              "Cannot read properties of undefined (reading 'toUpperCase')"))
  /\ (str <> "" ->
      exists r,
        capitalizeFirstLetter str = Return r
        /\ String.length r = String.length str
        /\ slice 1 r = slice 1 str
        /\ toLowerCase r = toLowerCase str
        /\ capitalizeFirstLetter r = Return r).
Proof.
  intros _. split.
  - intros ->. reflexivity.
  - intros NE. destruct str as [|c rest]; [congruence|].
    exists (String (upper_char c) rest).
    rewrite !capitalizeFirstLetter_cons, upper_upper_char.
    cbn [String.length slice toLowerCase]. rewrite lower_upper_char.
    repeat split; reflexivity.
Qed.

Lemma capitalizeFirstLetter_first_only_witness :
  is_ascii "resolve" = true /\ "resolve" <> ""
  /\ exists r,
      capitalizeFirstLetter "resolve" = Return r
      /\ String.length r = String.length "resolve"
      /\ slice 1 r = slice 1 "resolve"
      /\ toLowerCase r = toLowerCase "resolve"
      /\ capitalizeFirstLetter r = Return r.
Proof.
  assert (NE : "resolve" <> "") by discriminate.
  split; [reflexivity|]. split; [exact NE|].
  exact (proj2 (capitalizeFirstLetter_first_only "resolve" eq_refl) NE).
Defined.

(** ** deriveRepository *)

Lemma deriveRepository_subject k a b :
  forall r, deriveRepository k a b = Return r ->
  forall a' b', a' ++ b' = a ++ b -> deriveRepository k a' b' = Return r.
Proof.
  unfold deriveRepository. intros r H a' b' E. rewrite E.
  destruct (_ =? _); [exact H|].
  destruct (_ =? _); [exact H|].
  destruct (_ =? _); [exact H|].
  destruct (_ =? _); [exact H|discriminate].
Qed.

(** X3.  deriveRepository looks only at the concatenation of its two
    arguments: moving characters from the end of the location to the start
    of the state does not change the repository found.  When the two
    location names differ from each other in the four concatenations (they
    are pairwise distinct), each of the four pairs of constants gets its own
    repository; a pair whose concatenation is none of the four raises the
    error that names both arguments. *)
Theorem deriveRepository_by_concatenation k :
  (forall a b c r,
      deriveRepository k (a ++ b) c = Return r ->
      deriveRepository k a (b ++ c) = Return r)
  /\ (PUBLIC_KG k ++ CURRENT k <> PUBLIC_KG k ++ HISTORICAL k ->
      PUBLIC_KG k ++ CURRENT k <> LOCAL_KG k ++ CURRENT k ->
      PUBLIC_KG k ++ CURRENT k <> LOCAL_KG k ++ HISTORICAL k ->
      PUBLIC_KG k ++ HISTORICAL k <> LOCAL_KG k ++ CURRENT k ->
      PUBLIC_KG k ++ HISTORICAL k <> LOCAL_KG k ++ HISTORICAL k ->
      LOCAL_KG k ++ CURRENT k <> LOCAL_KG k ++ HISTORICAL k ->
      deriveRepository k (PUBLIC_KG k) (CURRENT k) = Return (PUBLIC_CURRENT k)
      /\ deriveRepository k (PUBLIC_KG k) (HISTORICAL k)
         = Return (PUBLIC_HISTORY k)
      /\ deriveRepository k (LOCAL_KG k) (CURRENT k)
         = Return (PRIVATE_CURRENT k)
      /\ deriveRepository k (LOCAL_KG k) (HISTORICAL k)
         = Return (PRIVATE_HISTORY k))
  /\ (forall a b,
        a ++ b <> PUBLIC_KG k ++ CURRENT k ->
        a ++ b <> PUBLIC_KG k ++ HISTORICAL k ->
        a ++ b <> LOCAL_KG k ++ CURRENT k ->
        a ++ b <> LOCAL_KG k ++ HISTORICAL k ->
        deriveRepository k a b
        = Throw (Error ("Unknown graph location and state: " ++ a ++ ", " ++ b))).
Proof.
  split; [|split].
  - intros a b c r H. eapply deriveRepository_subject; [exact H|].
    symmetry. apply append_assoc.
  - intros D1 D2 D3 D4 D5 D6. unfold deriveRepository.
    repeat split;
      repeat match goal with
             | |- context [?x =? ?y] =>
                 destruct (String.eqb_spec x y); try congruence
             end.
  - intros a b D1 D2 D3 D4. unfold deriveRepository.
    repeat match goal with
           | |- context [?x =? ?y] =>
               destruct (String.eqb_spec x y); try congruence
           end.
    reflexivity.
Qed.

Lemma deriveRepository_by_concatenation_witness :
  deriveRepository node_constants "PUBLIC_KG" "CURRENT" = Return (JStr "publicCurrent")
  /\ deriveRepository node_constants "PUBLIC_KG" "HISTORICAL"
     = Return (JStr "publicHistory")
  /\ deriveRepository node_constants "LOCAL_KG" "CURRENT"
     = Return (JStr "privateCurrent")
  /\ deriveRepository node_constants "LOCAL_KG" "HISTORICAL"
     = Return (JStr "privateHistory")
  /\ deriveRepository node_constants "PUBLIC_" "KGCURRENT"
     = Return (JStr "publicCurrent")
  /\ deriveRepository node_constants "PRIVATE" "CURRENT"
     = Throw (Error "Unknown graph location and state: PRIVATE, CURRENT").
Proof.
  destruct (deriveRepository_by_concatenation node_constants) as (H1 & H2 & H3).
  destruct H2 as (R1 & R2 & R3 & R4); try (cbn; discriminate).
  split; [exact R1|]. split; [exact R2|]. split; [exact R3|].
  split; [exact R4|]. split.
  - exact (H1 "PUBLIC_" "KG" "CURRENT" _ R1).
  - apply (H3 "PRIVATE" "CURRENT"); cbn; discriminate.
Defined.

(** ** getOperationStatusObject *)

Lemma lookup_app key (l1 l2 : list (string * JsVal)) :
  lookup key (l1 ++ l2)
  = if has_key key l1 then lookup key l1 else lookup key l2.
Proof.
  induction l1 as [|[k v] l1 IH]; [reflexivity|].
  unfold has_key in *. simpl.
  destruct (k =? key); [reflexivity|]. exact IH.
Qed.

Lemma lookup_nil key : lookup key [] = JUndefined.
Proof. reflexivity. Qed.

Lemma lookup_cons key k v rest :
  lookup key ((k, v) :: rest) = if k =? key then v else lookup key rest.
Proof. reflexivity. Qed.

(** X4.  getOperationStatusObject reports the data of an operation only
    when the data carries a truthy [errorType]: otherwise the object has
    the status and the operation id and nothing else.  When the data is
    reported, its own properties prevail: a [status] or an [operationId]
    inside the data replaces the status of the operation and the id that
    was passed. *)
Theorem getOperationStatusObject_data_prevails operationResult operationId :
  (truthy (get_optional (response_data operationResult) "errorType") = false ->
   getOperationStatusObject operationResult operationId
   = JObj [("status", response_status operationResult);
           ("operationId", operationId)])
  /\ (forall fields,
        response_data operationResult = JObj fields ->
        truthy (lookup "errorType" fields) = true ->
        forall key,
          get_prop (getOperationStatusObject operationResult operationId) key
          = Return (if has_key key fields then lookup key fields
                    else if key =? "status"
                         then response_status operationResult
                    else if key =? "operationId" then operationId
                    else JUndefined)).
Proof.
  unfold getOperationStatusObject. split.
  - intros ->. reflexivity.
  - intros fields E T key. rewrite E. cbn [get_optional get_prop spread].
    rewrite T. cbn [get_prop]. rewrite <- app_assoc, lookup_app.
    destruct (has_key key fields); [reflexivity|].
    cbn [List.app]. rewrite !lookup_cons, lookup_nil.
    rewrite (String.eqb_sym "status" key), (String.eqb_sym "operationId" key).
    reflexivity.
Qed.

Lemma getOperationStatusObject_data_prevails_witness :
  let failure :=
    {| response_status := JStr "FAILED";
       response_data := JObj [("errorType", JStr "PublishError");
                              ("operationId", JStr "inner")] |} in
  get_prop (getOperationStatusObject failure (JStr "outer")) "operationId"
  = Return (JStr "inner")
  /\ get_prop (getOperationStatusObject failure (JStr "outer")) "status"
     = Return (JStr "FAILED")
  /\ getOperationStatusObject
       {| response_status := JStr "COMPLETED";
          response_data := JObj [("assertionId", JStr "0x1")] |} (JStr "outer")
     = JObj [("status", JStr "COMPLETED"); ("operationId", JStr "outer")].
Proof.
  intros failure.
  destruct (getOperationStatusObject_data_prevails failure (JStr "outer"))
    as [_ H].
  split; [exact (H _ eq_refl eq_refl "operationId")|].
  split; [exact (H _ eq_refl eq_refl "status")|].
  exact (proj1 (getOperationStatusObject_data_prevails
                  {| response_status := JStr "COMPLETED";
                     response_data := JObj [("assertionId", JStr "0x1")] |}
                  (JStr "outer")) eq_refl).
Defined.

(** ** toNQuads *)

Lemma split_parts_no_sep sep s :
  Forall (fun part => has_char sep part = false) (split sep s).
Proof.
  induction s as [|c r IH]; cbn [split].
  - repeat constructor.
  - destruct (Ascii.eqb c sep) eqn:E.
    + constructor; [reflexivity | exact IH].
    + destruct (split sep r) as [|h t]; [repeat constructor; cbn; now rewrite E|].
      inversion IH; subst. constructor; [|assumption].
      cbn [has_char]. now rewrite E.
Qed.

Lemma split_document lines :
  Forall (fun l => has_char newline l = false) lines ->
  split newline (document lines) = (lines ++ [""])%list.
Proof.
  induction 1 as [|l rest Hl _ IH]; [reflexivity|].
  cbn [document List.app]. rewrite (split_app_sep _ _ _ Hl), IH. reflexivity.
Qed.

Lemma filter_nonempty lines :
  Forall (fun l => l <> "") lines ->
  filter (fun x => negb (x =? "")) (lines ++ [""])%list = lines.
Proof.
  induction 1 as [|l rest Hl _ IH]; [reflexivity|].
  cbn [List.app List.filter].
  destruct (String.eqb_spec l ""); [contradiction|].
  cbn [negb]. now rewrite IH.
Qed.

(** X5.  toNQuads never returns an empty line, nor a line with a line feed
    inside; an n-quads document whose lines are not empty comes back as
    exactly its lines, in order; and a failure of the canonization is passed
    on as it is. *)
Theorem toNQuads_lines canonize content inputFormat :
  (forall quads,
      toNQuads canonize content inputFormat = Return quads ->
      Forall (fun l => l <> "" /\ has_char newline l = false) quads)
  /\ (forall lines,
        canonize content (canonize_options inputFormat)
        = Return (document lines) ->
        Forall (fun l => l <> "") lines ->
        Forall (fun l => has_char newline l = false) lines ->
        toNQuads canonize content inputFormat = Return lines)
  /\ (forall e,
        canonize content (canonize_options inputFormat) = Throw e ->
        toNQuads canonize content inputFormat = Throw e).
Proof.
  unfold toNQuads. split; [|split].
  - intros quads H.
    destruct (canonize content (canonize_options inputFormat)) as [c|e];
      [|discriminate].
    injection H as <-. apply Forall_forall. intros l I.
    apply filter_In in I. destruct I as [I NE]. split.
    + intros ->. discriminate NE.
    + pose proof (split_parts_no_sep newline c) as P.
      rewrite Forall_forall in P. now apply P.
  - intros lines E NE NL. rewrite E, (split_document _ NL), (filter_nonempty _ NE).
    reflexivity.
  - intros e E. now rewrite E.
Qed.

Lemma toNQuads_lines_witness :
  let canonize := fun (_ : JsVal) (_ : list (string * JsVal)) =>
    Return (document ["<uuid:1> <schema:company> 'OT' .";
                      "<uuid:1> <schema:city> <uuid:belgrade> ."]) in
  toNQuads canonize (JStr "doc") JUndefined
  = Return ["<uuid:1> <schema:company> 'OT' .";
            "<uuid:1> <schema:city> <uuid:belgrade> ."].
Proof.
  intros canonize.
  apply (proj1 (proj2 (toNQuads_lines canonize (JStr "doc") JUndefined)));
    [reflexivity | | ];
    repeat constructor; discriminate.
Defined.

End HelperFacts.

(* ================================================================== *)
(** * Properties of handleContractUpdates                               *)
(* ================================================================== *)

Section ContractUpdateFacts.
Import Js ContractUpdates.

(** X6.  As long as nothing defines a global [maxRetries], the function
    decorated by handleContractUpdates never calls [func] a second time and
    never throws the error of [func] itself:
    - without a bound of at least 1 it returns [null] and [func] is not
      called at all;
    - when the first call of [func] returns, its value is returned;
    - when the first call of [func] throws, the decorator throws after that
      single call, either an error of the handler's own calls or the
      [ReferenceError] of [maxRetries]. *)
Theorem handleContractUpdates_never_retries maxAttempts fuel st :
  (within 1 maxAttempts = false ->
   handleContractUpdates None maxAttempts (S fuel) st = Some (Returned JNull, st))
  /\ (within 1 maxAttempts = true ->
      forall v, func_script (scripts st) (func_calls st) = inl v ->
      exists st',
        handleContractUpdates None maxAttempts (S fuel) st
        = Some (Returned v, st')
        /\ func_calls st' = S (func_calls st))
  /\ (within 1 maxAttempts = true ->
      forall error, func_script (scripts st) (func_calls st) = inr error ->
      exists raised st',
        handleContractUpdates None maxAttempts (S fuel) st
        = Some (Threw raised, st')
        /\ func_calls st' = S (func_calls st)
        /\ (raised = ReferenceError "maxRetries"
            \/ exists e, raised = FromHandler e)).
Proof.
  unfold handleContractUpdates. cbn [attempts].
  split; [|split].
  - intros ->. reflexivity.
  - intros -> v E. unfold func. rewrite E. eexists. split; reflexivity.
  - intros -> error E. unfold func. rewrite E.
    destruct error as [fields msg|e]; cbn [refresh_contract].
    + unfold bind, status_call. cbn.
      destruct (status_script (scripts st) (status_calls st)) as [status|e].
      * destruct (is_false status).
        -- unfold updateContractInstance. cbn.
           destruct (update_script (scripts st) (length (updated st)));
             eexists; eexists; (split; [reflexivity|]); cbn; eauto.
        -- cbn. eexists; eexists; (split; [reflexivity|]); cbn; eauto.
      * eexists; eexists; (split; [reflexivity|]); cbn; eauto.
    + cbn. eexists; eexists; (split; [reflexivity|]); cbn; eauto.
Qed.

Lemma handleContractUpdates_never_retries_witness :
  within 1 (Some 3%Z) = true
  /\ exists raised st',
      handleContractUpdates None (Some 3%Z) 4 (fresh stale_once)
      = Some (Threw raised, st')
      /\ func_calls st' = 1%nat
      /\ (raised = ReferenceError "maxRetries"
          \/ exists e, raised = FromHandler e).
Proof.
  split; [reflexivity|].
  exact (proj2 (proj2 (handleContractUpdates_never_retries (Some 3%Z) 3
                         (fresh stale_once))) eq_refl _ eq_refl).
Defined.

(** With a global [maxRetries] equal to the number of attempts, the same
    function is retried and succeeds. *)
Example handleContractUpdates_with_global :
  exists st',
    handleContractUpdates (Some (JNum 3)) (Some 3%Z) 4 (fresh stale_once)
    = Some (Returned (JStr "done"), st')
    /\ func_calls st' = 2%nat
    /\ updated st' = [("AssetRegistry", "hardhat")].
Proof. eexists. repeat split; reflexivity. Qed.

End ContractUpdateFacts.

(* ================================================================== *)
(** * Further properties of the executors                               *)
(* ================================================================== *)

Section ExecutorInvariantFacts.
Import Js NodeBlockchainService ExecutorInvariants.

Variable b : Blockchain.
Variable c : Contract.

Lemma retry_loop_returns_truthy tb fuel : forall result w v w',
  retry_loop tb fuel result w = Some (v, w') -> truthy v = true.
Proof.
  induction fuel as [|fuel IH]; intros result w v w' H; cbn [retry_loop] in H;
    destruct (truthy result) eqn:T; try discriminate.
  - injection H as <- <-. exact T.
  - injection H as <- <-. exact T.
  - destruct (attempt tb w) as [r w1]. eapply IH; eassumption.
Qed.

Lemma attempt_call_provider w : provider (snd (attempt call w)) = provider w.
Proof.
  unfold attempt, call.
  destruct (call_script (provider w) (call_calls w)); reflexivity.
Qed.

Lemma attempt_call_falsy w :
  always_falsy (provider w) -> truthy (fst (attempt call w)) = false.
Proof.
  intros A. destruct (A (call_calls w)) as (v & E & T).
  unfold attempt, call. rewrite E. exact T.
Qed.

Lemma retry_loop_call_forever fuel : forall result w,
  always_falsy (provider w) -> truthy result = false ->
  retry_loop call fuel result w = None.
Proof.
  induction fuel as [|fuel IH]; intros result w A T; cbn [retry_loop];
    rewrite T; [reflexivity|].
  pose proof (attempt_call_falsy w A) as F.
  pose proof (attempt_call_provider w) as P.
  destruct (attempt call w) as [r w1]. cbn [fst snd] in *.
  apply IH; [now rewrite P | exact F].
Qed.

(** X7.  Whatever the executors return is truthy: a value such as [false],
    [0] or the empty string is never handed to the caller.  A read whose
    answer is always such a value is asked again and again:
    callContractFunction does not return, however many turns it is given. *)
Theorem executors_never_return_falsy :
  (forall fuel w v w',
      executeContractFunction b c fuel w = Some (v, w') -> truthy v = true)
  /\ (forall fuel w v w',
        callContractFunction fuel w = Some (v, w') -> truthy v = true)
  /\ (forall w, always_falsy (provider w) ->
        forall fuel, callContractFunction fuel w = None).
Proof.
  split; [|split].
  - intros fuel w v w'. apply retry_loop_returns_truthy.
  - intros fuel w v w'. apply retry_loop_returns_truthy.
  - intros w A fuel. now apply retry_loop_call_forever.
Qed.

(** ** The order of the steps *)

Lemma nth_error_rev_cons {A} (x : A) l i y :
  nth_error (List.rev (x :: l)) i = Some y ->
  nth_error (List.rev l) i = Some y \/ (i = length l /\ y = x).
Proof.
  cbn [List.rev]. intros H.
  destruct (Nat.lt_ge_cases i (length (List.rev l))) as [L|L].
  - left. now rewrite nth_error_app1 in H.
  - right. rewrite nth_error_app2 in H by exact L.
    rewrite length_rev in *.
    destruct (i - length l)%nat as [|j] eqn:E.
    + cbn in H. injection H as <-. split; [lia | reflexivity].
    + cbn in H. destruct j; discriminate H.
Qed.

Lemma execute_try_step p w :
  in_order b c p w -> synced w ->
  in_order b c p (snd (execute_try b c w))
  /\ (forall v, fst (execute_try b c w) = Return v ->
        synced (snd (execute_try b c w))).
Proof.
  intros (P & H1 & H2 & H3 & H4 & H5 & H6 & H7) (S1 & S2 & S3).
  unfold execute_try, bind, estimateGas, encodeABI, signTransaction,
    sendSignedTransaction. cbn.
  destruct (estimateGas_script (provider w) (estimateGas_calls w))
    as [gasLimit|e] eqn:Eg; cbn.
  2:{ split; [|intros v Hv; discriminate Hv].
      unfold in_order; cbn. repeat split; auto; lia. }
  destruct (encodeABI_script (provider w) (encodeABI_calls w)) as [abi|e]
    eqn:Ea; cbn.
  2:{ split; [|intros v Hv; discriminate Hv].
      unfold in_order; cbn. repeat split; auto; lia. }
  assert (Env : forall i s,
            nth_error
              (List.rev
                 (({| from := wallet b; to := address c; data := abi;
                      gasPrice := toWei_100_Gwei;
                      gas := js_or gasLimit toWei_900_Kwei |}, privateKey b)
                  :: signed w)) i = Some s ->
            envelope_at b c p i s).
  { intros i s Hs. apply nth_error_rev_cons in Hs.
    destruct Hs as [Hs|[-> ->]]; [now apply H6|].
    exists gasLimit, abi. rewrite <- P, H4.
    rewrite <- S1 at 1. rewrite <- S2. auto. }
  destruct (signTransaction_script (provider w) (signTransaction_calls w))
    as [raw|e] eqn:Es; cbn.
  2:{ split; [|intros v Hv; discriminate Hv].
      unfold in_order; cbn. repeat split; auto; lia. }
  assert (Raw : forall i r,
            nth_error (List.rev (raw :: broadcast w)) i = Some r ->
            signTransaction_script p i = Return r).
  { intros i r Hr. apply nth_error_rev_cons in Hr.
    destruct Hr as [Hr|[-> ->]]; [now apply H7|].
    rewrite <- P, H5, S3. exact Es. }
  destruct (sendSignedTransaction_script (provider w)
              (sendSignedTransaction_calls w)); cbn;
    (split; [unfold in_order; cbn; repeat split; auto; lia|]);
    intros v Hv; try discriminate Hv; unfold synced; cbn; lia.
Qed.

Lemma attempt_step p w :
  in_order b c p w -> synced w ->
  in_order b c p (snd (attempt (execute_try b c) w))
  /\ (truthy (fst (attempt (execute_try b c) w)) = false ->
      synced (snd (attempt (execute_try b c) w))).
Proof.
  intros I St. destruct (execute_try_step p w I St) as [I' St'].
  unfold attempt. destruct (execute_try b c w) as [[v|e] w1]; cbn [fst snd] in *.
  - split; [exact I'|]. intros _. now apply (St' v).
  - split; [exact I' | discriminate].
Qed.

Lemma retry_loop_in_order p fuel : forall result w v w',
  in_order b c p w -> (truthy result = false -> synced w) ->
  retry_loop (execute_try b c) fuel result w = Some (v, w') ->
  in_order b c p w'.
Proof.
  induction fuel as [|fuel IH]; intros result w v w' I St H;
    cbn [retry_loop] in H;
    destruct (truthy result) eqn:T; try discriminate.
  - injection H as <- <-. exact I.
  - injection H as <- <-. exact I.
  - destruct (attempt_step p w I (St eq_refl)) as [I' St'].
    destruct (attempt (execute_try b c) w) as [r w1]. cbn [fst snd] in *.
    eapply IH; eassumption.
Qed.

Lemma retry_loop_running p fuel : forall result w,
  in_order b c p w -> (truthy result = false -> synced w) ->
  retry_loop (execute_try b c) fuel result w = None ->
  in_order b c p (turns (execute_try b c) fuel w).
Proof.
  induction fuel as [|fuel IH]; intros result w I St H;
    cbn [retry_loop] in H;
    destruct (truthy result) eqn:T; try discriminate.
  - exact I.
  - destruct (attempt_step p w I (St eq_refl)) as [I' St'].
    cbn [turns].
    destruct (attempt (execute_try b c) w) as [r w1]. cbn [fst snd] in *.
    eapply IH; eassumption.
Qed.

Lemma fresh_in_order p : in_order b c p (fresh p) /\ synced (fresh p).
Proof.
  split.
  - unfold in_order. cbn. repeat split; auto;
      intros [|i] x H; discriminate H.
  - unfold synced. cbn. auto.
Qed.

(** X8.  executeContractFunction takes the steps of its protocol in order.
    Started on a chain on which nothing has happened, at its return, and
    after any number of turns while it has not returned, it has not
    broadcast more transactions than it has signed, nor signed more than it
    has encoded, nor encoded more than it has estimated; the transaction it
    handed to the signer at attempt [i] goes from the wallet to the
    contract's address, carries the encoding of that attempt, the fixed gas
    price and, as gas limit, the estimate of that attempt, or the fallback
    [900000] when the estimate is falsy, and was signed with the private
    key of the account; and what it broadcast at attempt [i] is the raw
    transaction the signer gave at that attempt. *)
Theorem executeContractFunction_in_order p :
  (forall fuel v w',
      executeContractFunction b c fuel (fresh p) = Some (v, w') ->
      in_order b c p w')
  /\ (forall n,
        executeContractFunction b c n (fresh p) = None ->
        in_order b c p (turns (execute_try b c) n (fresh p))).
Proof.
  destruct (fresh_in_order p) as [I St]. split.
  - intros fuel v w' H.
    exact (retry_loop_in_order p fuel JUndefined (fresh p) v w' I
             (fun _ => St) H).
  - intros n H.
    exact (retry_loop_running p n JUndefined (fresh p) I (fun _ => St) H).
Qed.

End ExecutorInvariantFacts.

Section ExecutorInvariantScenarios.
Import Js NodeBlockchainService ExecutorInvariants.

Lemma false_getter_always_falsy : always_falsy false_getter.
Proof. intros k. exists (JBool false). split; reflexivity. Qed.

Lemma executors_never_return_falsy_witness :
  always_falsy (provider (fresh false_getter))
  /\ callContractFunction 1000 (fresh false_getter) = None.
Proof.
  split; [exact false_getter_always_falsy|].
  exact (proj2 (proj2 (executors_never_return_falsy hardhat registry))
           (fresh false_getter) false_getter_always_falsy 1000%nat).
Defined.

(** A first estimate of [0]: the envelope of the first attempt carries the
    fallback, the one of the second attempt the estimate. *)
Lemma executeContractFunction_in_order_witness :
  exists v w',
    executeContractFunction hardhat registry 2 (fresh zero_estimate_provider)
    = Some (v, w')
    /\ in_order hardhat registry zero_estimate_provider w'
    /\ map (fun s => gas (fst s)) (List.rev (signed w'))
       = [JStr "900000"; JNum 21000]
    /\ List.rev (broadcast w') = [JStr "0xf86c"; JStr "0xf86d"].
Proof.
  destruct (executeContractFunction hardhat registry 2
              (fresh zero_estimate_provider)) as [[v w']|] eqn:E;
    [|vm_compute in E; discriminate E].
  exists v, w'. split; [reflexivity|].
  split.
  - exact (proj1 (executeContractFunction_in_order hardhat registry
                    zero_estimate_provider) 2%nat v w' E).
  - vm_compute in E. injection E as _ <-. split; reflexivity.
Defined.

End ExecutorInvariantScenarios.

(* ================================================================== *)
(** * Properties of the chain selection and of asset creation           *)
(* ================================================================== *)

Section AssetOperationFacts.
Import Js NodeBlockchainService AssetOperations.

Variable constants : Constants.

(** ** The configuration as a store *)

Lemma find_chain_write_title k key name entries :
  find_chain k (write_title key name entries)
  = if k =? key then option_map (with_title name) (find_chain key entries)
    else find_chain k entries.
Proof.
  induction entries as [|[k0 e0] rest IH]; cbn [write_title find_chain].
  - destruct (k =? key); reflexivity.
  - destruct (String.eqb_spec k0 key) as [->|N0]; cbn [find_chain].
    + destruct (String.eqb_spec key k) as [->|N].
      * rewrite String.eqb_refl. reflexivity.
      * destruct (String.eqb_spec k key) as [->|_]; [congruence|reflexivity].
    + destruct (String.eqb_spec k0 k) as [->|N].
      * destruct (String.eqb_spec k key) as [->|_]; [congruence|reflexivity].
      * exact IH.
Qed.

Lemma select_found name this entry :
  find_chain (to_string name) (blockchainConfig (config this)) = Some entry ->
  exists this',
    select name this = (Return (with_title name entry), this')
    /\ this_blockchain this' = Some (with_title name entry)
    /\ (forall k, k <> to_string name ->
          find_chain k (blockchainConfig (config this'))
          = find_chain k (blockchainConfig (config this)))
    /\ default_blockchain (config this') = default_blockchain (config this).
Proof.
  intros F. unfold select. rewrite F. eexists. split; [reflexivity|].
  unfold this_blockchain. cbn.
  split; [|split; [|reflexivity]].
  - rewrite find_chain_write_title, String.eqb_refl, F. reflexivity.
  - intros k N. rewrite find_chain_write_title.
    destruct (String.eqb_spec k (to_string name)); [contradiction|reflexivity].
Qed.

Lemma select_missing name this :
  find_chain (to_string name) (blockchainConfig (config this)) = None ->
  select name this = (Throw (Error "Blockchain configuration is missing."), this).
Proof. intros F. unfold select. now rewrite F. Qed.

Lemma find_available s l :
  In s l -> find (fun b => b =? s) l = Some s.
Proof.
  induction l as [|x l IH]; [contradiction|].
  cbn [find]. destruct (String.eqb_spec x s) as [->|N]; [reflexivity|].
  intros [E|I]; [contradiction|auto].
Qed.

Lemma find_unavailable s l :
  ~ In s l -> find (fun b => b =? s) l = None.
Proof.
  induction l as [|x l IH]; [reflexivity|].
  cbn [find In]. intros N.
  destruct (String.eqb_spec x s) as [->|_]; [tauto|]. apply IH. tauto.
Qed.

Lemma find_never (l : list string) : find (fun _ => false) l = None.
Proof. induction l; [reflexivity|exact IHl]. Qed.

Lemma getBlockchain_select options this :
  getBlockchain constants options this
  = select (chosen constants options this) this.
Proof.
  unfold getBlockchain, chosen, blockchainIsAvailable.
  destruct (options_blockchain options) as [| |b0|z| |s|items|fields];
    rewrite ?find_never; cbn [truthy]; rewrite ?andb_false_r;
    try reflexivity.
  destruct (existsb (String.eqb s) (AVAILABLE_BLOCKCHAINS constants)) eqn:A.
  - apply existsb_exists in A. destruct A as (x & I & E).
    apply String.eqb_eq in E. subst x.
    rewrite (find_available _ _ I). cbn [truthy].
    destruct (negb (s =? "")); reflexivity.
  - rewrite find_unavailable.
    + cbn [truthy]. rewrite !andb_false_r. reflexivity.
    + intros I. assert (T : existsb (String.eqb s)
                               (AVAILABLE_BLOCKCHAINS constants) = true).
      { apply existsb_exists. exists s. split; [exact I|apply String.eqb_refl]. }
      congruence.
Qed.

(** X9.  getBlockchain runs an operation on the requested chain when its
    name is among the available chains, and on the default chain of the
    configuration otherwise: a name that is not available is ignored
    without an error.  The name is written as [title] into the entry of the
    configuration itself, which [this.blockchain] then refers to, and the
    other entries are left as they were.  When the chosen chain has no
    entry (and its name is not one that every object inherits, such as
    [constructor]) the call raises an error and changes nothing: in
    particular an available chain without an entry does not fall back on
    the default. *)
Theorem getBlockchain_chosen_chain options this :
  (forall s, options_blockchain options = JStr s -> s <> "" ->
     In s (AVAILABLE_BLOCKCHAINS constants) -> chosen constants options this = JStr s)
  /\ (forall s, options_blockchain options = JStr s ->
       ~ In s (AVAILABLE_BLOCKCHAINS constants) ->
       chosen constants options this = default_blockchain (config this))
  /\ (forall entry,
        find_chain (to_string (chosen constants options this))
          (blockchainConfig (config this)) = Some entry ->
        exists this',
          getBlockchain constants options this
          = (Return (with_title (chosen constants options this) entry), this')
          /\ this_blockchain this'
             = Some (with_title (chosen constants options this) entry)
          /\ (forall k, k <> to_string (chosen constants options this) ->
                find_chain k (blockchainConfig (config this'))
                = find_chain k (blockchainConfig (config this))))
  /\ (inherited (to_string (chosen constants options this)) = false ->
      find_chain (to_string (chosen constants options this))
        (blockchainConfig (config this)) = None ->
      getBlockchain constants options this
      = (Throw (Error "Blockchain configuration is missing."), this)).
Proof.
  split; [|split; [|split]].
  - intros s E NE I. unfold chosen. rewrite E.
    destruct (String.eqb_spec s ""); [contradiction|].
    assert (T : existsb (String.eqb s) (AVAILABLE_BLOCKCHAINS constants) = true).
    { apply existsb_exists. exists s. split; [exact I|apply String.eqb_refl]. }
    now rewrite T.
  - intros s E N. unfold chosen. rewrite E.
    destruct (existsb (String.eqb s) (AVAILABLE_BLOCKCHAINS constants)) eqn:A.
    + apply existsb_exists in A. destruct A as (x & I & Ex).
      apply String.eqb_eq in Ex. subst x. contradiction.
    + now rewrite andb_false_r.
  - intros entry F. rewrite getBlockchain_select.
    destruct (select_found _ _ _ F) as (this' & E & B & O & _).
    exists this'. auto.
  - intros _ F. rewrite getBlockchain_select. now apply select_missing.
Qed.

(** ** generateCreateAssetRequest *)


(** ** createAsset *)

Variable new_Web3 : JsVal -> Outcome unit.
Variable new_Contract : JsVal -> Outcome Contract.

Lemma getTransactionResponse_constant receipt UAIHex :
  getTransactionResponse receipt = Return UAIHex ->
  Helpers.toNumber UAIHex = JNum 6.
Proof.
  unfold getTransactionResponse.
  destruct (get_prop receipt "logs") as [logs|e]; [|discriminate].
  destruct logs; try discriminate.
  intros H. injection H as <-. reflexivity.
Qed.

Lemma getTransactionResponse_of_true :
  getTransactionResponse (JBool true)
  = Throw (TypeError "Cannot read properties of undefined (reading 'forEach')").
Proof. reflexivity. Qed.

(** X12.  createAsset does not report the identifier the chain assigned:
    every call that returns, returns [6], whatever the receipt holds.  And
    a failure of the creating transaction is not reported as such: the
    executor turns the exception into [true], and createAsset then raises
    the [TypeError] of reading the logs of [true]. *)
Theorem createAsset_reports_six :
  (forall fuel requestData options this w v this' w',
      createAsset constants new_Web3 new_Contract fuel requestData options
        this w = Some (Return v, this', w') ->
      v = JNum 6)
  /\ (forall fuel requestData options this w chain this1 bound this2 w2 r1
             w3 e w4,
        getBlockchain constants options this = (Return chain, this1) ->
        new_Web3 (rpc chain) = Return tt ->
        initializeContracts new_Contract (S fuel) chain this1 w
        = Some (Return bound, this2, w2) ->
        executeContractFunction (account chain) (TokenContract bound)
          (S fuel) w2 = Some (r1, w3) ->
        execute_try (account chain) (AssetRegistryContract bound) w3
        = (Throw e, w4) ->
        createAsset constants new_Web3 new_Contract (S fuel) requestData
          options this w
        = Some (Throw (TypeError
                         "Cannot read properties of undefined (reading 'forEach')"),
                this2, console_log e w4)).
Proof.
  split.
  - intros fuel requestData options this w v this' w'.
    unfold createAsset.
    destruct (getBlockchain constants options this) as [[chain|e] this1];
      [|discriminate].
    destruct (new_Web3 (rpc chain)); [|discriminate].
    destruct (initializeContracts new_Contract fuel chain this1 w)
      as [[[[bound|e] this2] w2]|]; try discriminate.
    destruct (executeContractFunction _ _ fuel w2) as [[r1 w3]|];
      [|discriminate].
    destruct (executeContractFunction _ _ fuel w3) as [[receipt w4]|];
      [|discriminate].
    destruct (getTransactionResponse receipt) as [UAIHex|e] eqn:G;
      [|discriminate].
    intros H. injection H as <- _ _.
    eapply getTransactionResponse_constant; exact G.
  - intros fuel requestData options this w chain this1 bound this2 w2 r1 w3
      e w4 G W I A T.
    unfold createAsset. rewrite G, W, I, A.
    unfold executeContractFunction.
    rewrite retry_loop_falsy by reflexivity.
    rewrite (attempt_throw _ _ _ _ T). cbn [fst snd].
    rewrite retry_loop_truthy by reflexivity.
    rewrite getTransactionResponse_of_true. reflexivity.
Qed.

End AssetOperationFacts.

Section AssetOperationScenarios.
Import Js NodeBlockchainService AssetOperations.

Lemma getBlockchain_chosen_chain_witness :
  (exists this',
      getBlockchain demo_constants (on_chain "otp") demo_service
      = (Return (with_title (JStr "otp") otp_entry), this')
      /\ this_blockchain this' = Some (with_title (JStr "otp") otp_entry))
  /\ (exists this',
        getBlockchain demo_constants (on_chain "polygon") demo_service
        = (Return (with_title (JStr "hardhat") hardhat_entry), this')
        /\ this_blockchain this' = Some (with_title (JStr "hardhat") hardhat_entry))
  /\ getBlockchain demo_constants (on_chain "otp") hardhat_only
     = (Throw (Error "Blockchain configuration is missing."), hardhat_only).
Proof.
  split; [|split].
  - destruct (getBlockchain_chosen_chain demo_constants (on_chain "otp")
                demo_service) as (_ & _ & H & _).
    destruct (H otp_entry eq_refl) as (this' & E & B & _).
    exists this'. split; [exact E | exact B].
  - destruct (getBlockchain_chosen_chain demo_constants (on_chain "polygon")
                demo_service) as (_ & _ & H & _).
    destruct (H hardhat_entry eq_refl) as (this' & E & B & _).
    exists this'. split; [exact E | exact B].
  - destruct (getBlockchain_chosen_chain demo_constants (on_chain "otp")
                hardhat_only) as (_ & _ & _ & H).
    exact (H eq_refl eq_refl).
Defined.


Lemma createAsset_reports_six_witness :
  (exists this' w',
      createAsset demo_constants web3_at contract_at 1 (JArr []) no_options
        demo_service (fresh publishing_provider)
      = Some (Return (JNum 6), this', w'))
  /\ (exists this' w',
        createAsset demo_constants web3_at contract_at 1 (JArr []) no_options
          demo_service (fresh reverting_provider)
        = Some (Throw (TypeError
                         "Cannot read properties of undefined (reading 'forEach')"),
                this', w')).
Proof.
  destruct (createAsset_reports_six demo_constants web3_at contract_at)
    as [H1 H2].
  split.
  - destruct (createAsset demo_constants web3_at contract_at 1 (JArr [])
                no_options demo_service (fresh publishing_provider))
      as [[[[v|e] this'] w']|] eqn:E;
      [ | vm_compute in E; discriminate E | vm_compute in E; discriminate E ].
    exists this', w'. now rewrite (H1 _ _ _ _ _ _ _ _ E).
  - destruct (getBlockchain demo_constants no_options demo_service)
      as [[chain|e0] this1] eqn:G; [|vm_compute in G; discriminate G].
    destruct (initializeContracts contract_at 1 chain this1
                (fresh reverting_provider))
      as [[[[bound|e1] this2] w2]|] eqn:I;
      [ | vm_compute in G; injection G as <- <-;
          vm_compute in I; discriminate I
        | vm_compute in G; injection G as <- <-;
          vm_compute in I; discriminate I ].
    destruct (executeContractFunction (account chain) (TokenContract bound) 1 w2)
      as [[r1 w3]|] eqn:A;
      [ | vm_compute in G; injection G as <- <-;
          vm_compute in I; injection I as <- <- <-;
          vm_compute in A; discriminate A ].
    destruct (execute_try (account chain) (AssetRegistryContract bound) w3)
      as [[v|e] w4] eqn:T;
      [ vm_compute in G; injection G as <- <-;
        vm_compute in I; injection I as <- <- <-;
        vm_compute in A; injection A as <- <-;
        vm_compute in T; discriminate T | ].
    exists this2, (console_log e w4).
    exact (H2 0%nat (JArr []) no_options demo_service
              (fresh reverting_provider) chain this1 bound this2 w2 r1 w3 e w4
              G eq_refl I A T).
Defined.

End AssetOperationScenarios.

(* ================================================================== *)
(** * Further properties of the operation result resolver               *)
(* ================================================================== *)

Section ResultResolverBounds.
Import Js AbstractClient.

Variable this : Client.
Variable options : ResultOptions.t.

#[local] Abbreviation M := (result_maxNumberOfRetries this options).
#[local] Abbreviation F := (result_frequency this options).
#[local] Abbreviation url := (result_url this options).

(** ** Whatever the node does *)

Lemma poll_total m f u n : forall fuel retries w,
  (Z.to_nat (m + 1 - retries) <= n)%nat -> (n < fuel)%nat ->
  exists res w',
    poll fuel m f u retries w = Some (res, w')
    /\ node w' = node w
    /\ (result_calls w <= result_calls w')%nat
    /\ (result_calls w' <= result_calls w + Z.to_nat (m + 1 - retries))%nat
    /\ resolve_calls w' = resolve_calls w
    /\ search_result_calls w' = search_result_calls w.
Proof.
  induction n as [|n IH]; intros fuel retries w N L;
    (destruct fuel as [|fuel]; [lia|]).
  - exists (Throw retries_exhausted), w.
    split; [apply poll_exhausted; lia|]. repeat split; lia.
  - destruct (Z.lt_ge_cases m retries) as [G|G].
    + exists (Throw retries_exhausted), w.
      split; [now apply poll_exhausted|]. repeat split; lia.
    + destruct (next_result w) as [r|e] eqn:E.
      * destruct (String.eqb_spec (status r) STATUSES.pending) as [P|P].
        -- rewrite (poll_pending _ _ _ _ _ _ r) by auto.
           destruct (IH fuel (retries + 1)%Z (after_poll f u w))
             as (res & w' & E' & Nd & C1 & C2 & C3 & C4); [lia | lia |].
           exists res, w'. split; [exact E'|].
           rewrite after_poll_calls in *.
           repeat split; try assumption; try lia.
        -- exists (Return r), (after_poll f u w).
           split; [now apply poll_settled|].
           rewrite after_poll_calls. repeat split; lia.
      * exists (Throw e), (after_poll f u w).
        split; [now apply poll_rejected|].
        rewrite after_poll_calls. repeat split; lia.
Qed.

Lemma getResult_run w :
  exists res w',
    (forall fuel, (Z.to_nat (M + 1) < fuel)%nat ->
       _getResult fuel this options w = Some (res, w'))
    /\ node w' = node w
    /\ (result_calls w' <= result_calls w + Z.to_nat (M + 1))%nat
    /\ resolve_calls w' = resolve_calls w
    /\ search_result_calls w' = search_result_calls w.
Proof.
  unfold _getResult. cbn [sleepForMilliseconds].
  destruct (negb (truthy (ResultOptions.handler_id options))
            || negb (truthy (ResultOptions.operation options))).
  - eexists. eexists. split; [intros; reflexivity|]. cbn. repeat split; lia.
  - destruct (poll_total M F url (Z.to_nat (M + 1)) (S (Z.to_nat (M + 1))) 0
                (advance (timer_delay 500) w))
      as (res & w' & E & Nd & _ & C2 & C3 & C4); [f_equal; lia | lia |].
    assert (E' : forall fuel, (Z.to_nat (M + 1) < fuel)%nat ->
                 poll fuel M F url 0 (advance (timer_delay 500) w)
                 = Some (res, w')).
    { intros fuel L. eapply poll_fuel_mono; [exact E | lia]. }
    replace (M + 1 - 0)%Z with (M + 1)%Z in C2 by lia.
    cbn [advance node result_calls resolve_calls search_result_calls]
      in Nd, C2, C3, C4.
    destruct res as [r|e].
    + destruct (status r =? STATUSES.failed) eqn:Fl.
      * exists (Throw (operation_failed (ResultOptions.operation options) r)), w'.
        split; [intros fuel L; now rewrite (E' fuel L), Fl|].
        repeat split; assumption.
      * exists (Return r), w'.
        split; [intros fuel L; now rewrite (E' fuel L), Fl|].
        repeat split; assumption.
    + exists (Throw e), w'.
      split; [intros fuel L; now rewrite (E' fuel L)|].
      repeat split; assumption.
Qed.

(** X13.  With a retry bound [M] that is an integer, as all numbers are
    in this development (the code also takes [Infinity] for a bound, which
    is never exceeded), _getResult ends whatever the node answers: allowed
    more turns than there are retries, it gives one and the same outcome,
    after at most [M + 1] requests to the result endpoint of the node (and
    none to the other endpoints). *)
Theorem getResult_at_most_M_plus_1_polls w :
  exists res w',
    (forall fuel, (Z.to_nat (M + 1) < fuel)%nat ->
       _getResult fuel this options w = Some (res, w'))
    /\ (result_calls w' <= result_calls w + Z.to_nat (M + 1))%nat
    /\ resolve_calls w' = resolve_calls w
    /\ search_result_calls w' = search_result_calls w.
Proof.
  destruct (getResult_run w) as (res & w' & E & _ & C).
  exists res, w'. split; [exact E | exact C].
Qed.

(** ** The first answer that is not PENDING *)

Hypothesis handler_given : truthy (ResultOptions.handler_id options) = true.
Hypothesis operation_given : truthy (ResultOptions.operation options) = true.

Lemma getResult_poll fuel w :
  _getResult fuel this options w
  = match poll fuel M F url 0 (advance (timer_delay 500) w) with
    | None => None
    | Some (Throw e, w') => Some (Throw e, w')
    | Some (Return r, w') =>
        if status r =? STATUSES.failed
        then Some (Throw (operation_failed (ResultOptions.operation options) r), w')
        else Some (Return r, w')
    end.
Proof.
  unfold _getResult. cbn [sleepForMilliseconds].
  rewrite handler_given, operation_given. reflexivity.
Qed.

Lemma after_polls_node f u k : forall w,
  node (ClientRequests.after_polls f u k w) = node w.
Proof. induction k as [|k IH]; intros w; [reflexivity|]. cbn. now rewrite IH. Qed.

Lemma after_polls_calls f u k : forall w,
  result_calls (ClientRequests.after_polls f u k w) = (result_calls w + k)%nat.
Proof.
  induction k as [|k IH]; intros w; cbn [ClientRequests.after_polls]; [lia|].
  rewrite IH, after_poll_calls. lia.
Qed.

Lemma poll_after_pending m f u k : forall fuel retries w,
  ClientRequests.pending_first k w ->
  (retries + Z.of_nat k <= m + 1)%Z -> (k <= fuel)%nat ->
  poll fuel m f u retries w
  = poll (fuel - k) m f u (retries + Z.of_nat k)
      (ClientRequests.after_polls f u k w).
Proof.
  induction k as [|k IH]; intros fuel retries w P R L.
  - now rewrite Nat.sub_0_r, Z.add_0_r.
  - destruct fuel as [|fuel]; [lia|].
    destruct (P 0%nat) as (r & E & St); [lia|]. rewrite Nat.add_0_r in E.
    rewrite (poll_pending _ _ _ _ _ _ r) by (auto; lia).
    rewrite IH; [| |lia|lia].
    + cbn [Nat.sub ClientRequests.after_polls]. f_equal. lia.
    + intros i Hi. destruct (P (S i)) as (ri & Ei & Si); [lia|].
      exists ri. rewrite after_poll_node, after_poll_calls.
      replace (S (result_calls w) + i)%nat with (result_calls w + S i)%nat
        by lia. auto.
Qed.

(** X14.  The first answer of the node that is not PENDING decides the
    outcome of _getResult, provided it comes within the [M + 1] polls
    allowed: after [k] PENDING answers, with [k <= M],
    - a rejected request raises the rejection at once, without another poll;
    - an answer with status FAILED raises the error that carries its
      message;
    - an answer with any other status, COMPLETED or not, is returned as it
      is.
    In each case exactly [k + 1] polls have been made. *)
Theorem getResult_first_settled_answer k w :
  (Z.of_nat k <= M)%Z ->
  ClientRequests.pending_first k w ->
  exists w',
    result_calls w' = (result_calls w + k + 1)%nat
    /\ (forall e, ClientRequests.answer_after k w = Throw e ->
         forall fuel, (k < fuel)%nat ->
           _getResult fuel this options w = Some (Throw e, w'))
    /\ (forall r, ClientRequests.answer_after k w = Return r ->
         status r = "FAILED" ->
         forall fuel, (k < fuel)%nat ->
           _getResult fuel this options w
           = Some (Throw (operation_failed
                            (ResultOptions.operation options) r), w'))
    /\ (forall r, ClientRequests.answer_after k w = Return r ->
         status r <> "PENDING" -> status r <> "FAILED" ->
         forall fuel, (k < fuel)%nat ->
           _getResult fuel this options w = Some (Return r, w')).
Proof.
  intros K P.
  set (w0 := advance (timer_delay 500) w).
  set (wk := ClientRequests.after_polls F url k w0).
  assert (P0 : ClientRequests.pending_first k w0) by exact P.
  assert (Step : forall fuel, (k < fuel)%nat ->
            poll fuel M F url 0 w0
            = poll (S (fuel - S k)) M F url (Z.of_nat k) wk).
  { intros fuel L. rewrite (poll_after_pending M F url k fuel 0 w0 P0);
      [|lia|lia].
    replace (fuel - k)%nat with (S (fuel - S k)) by lia.
    now rewrite Z.add_0_l. }
  assert (Next : next_result wk = ClientRequests.answer_after k w).
  { unfold next_result, ClientRequests.answer_after, wk.
    now rewrite after_polls_node, after_polls_calls. }
  exists (after_poll F url wk). split; [|split; [|split]].
  - rewrite after_poll_calls. unfold wk. rewrite after_polls_calls.
    cbn. lia.
  - intros e E fuel L. rewrite getResult_poll. fold w0. rewrite (Step fuel L).
    rewrite (poll_rejected _ _ _ _ _ _ e); [reflexivity | lia | congruence].
  - intros r E Fl fuel L. rewrite getResult_poll. fold w0.
    rewrite (Step fuel L).
    rewrite (poll_settled _ _ _ _ _ _ r);
      [ | lia | congruence | rewrite Fl; discriminate ].
    rewrite Fl. reflexivity.
  - intros r E NP NF fuel L. rewrite getResult_poll. fold w0.
    rewrite (Step fuel L).
    rewrite (poll_settled _ _ _ _ _ _ r); [ | lia | congruence | exact NP ].
    destruct (String.eqb_spec (status r) STATUSES.failed); [contradiction|].
    reflexivity.
Qed.

End ResultResolverBounds.

Section ResultResolverBoundScenarios.
Import Js AbstractClient.

(** A node that answers PENDING once and then with a status of its own. *)
Lemma getResult_first_settled_answer_witness :
  let unknown := {| status := "QUEUED"; message := JUndefined;
                    data := JStr "partial" |} in
  let w := fresh (node_with_results [pending_result; unknown]) in
  (Z.of_nat 1 <= result_maxNumberOfRetries default_client resolve_options)%Z
  /\ ClientRequests.pending_first 1 w
  /\ exists w',
      _getResult 2 default_client resolve_options w = Some (Return unknown, w')
      /\ result_calls w' = 2%nat.
Proof.
  intros unknown w.
  assert (K : (Z.of_nat 1
               <= result_maxNumberOfRetries default_client resolve_options)%Z)
    by (vm_compute; discriminate).
  assert (P : ClientRequests.pending_first 1 w).
  { intros i Hi. exists pending_result.
    destruct i; [split; reflexivity | lia]. }
  split; [exact K|]. split; [exact P|].
  destruct (getResult_first_settled_answer default_client resolve_options
              eq_refl eq_refl 1 w K P) as (w' & C & _ & _ & H).
  exists w'. split; [|exact C].
  apply (H unknown); [reflexivity | discriminate | discriminate | lia].
Defined.

End ResultResolverBoundScenarios.

(* ================================================================== *)
(** * Further properties of the streaming search poller                 *)
(* ================================================================== *)

Section SearchPollerBounds.
Import Js AbstractClient.

Variable cb : SearchResult -> Outcome unit.

Lemma search_poll_callback_throws fuel d t f u w p e :
  next_search_result w = Return p -> cb p = Throw e ->
  search_poll (S fuel) d t f u cb w = Some (Throw e, after_search_tick f u w).
Proof.
  intros E C. rewrite (after_search_tick_return _ _ _ _ E).
  cbn [search_poll]. rewrite search_tick, E, C. reflexivity.
Qed.

Lemma after_search_tick_others f u w :
  resolve_calls (after_search_tick f u w) = resolve_calls w
  /\ result_calls (after_search_tick f u w) = result_calls w.
Proof.
  unfold after_search_tick. rewrite search_tick.
  destruct (next_search_result w); split; reflexivity.
Qed.

Lemma after_search_tick_delivered_any f u w :
  delivered (after_search_tick f u w)
  = (List.rev (ClientRequests.fetched (node w) (search_result_calls w) 1)
     ++ delivered w)%list.
Proof.
  unfold after_search_tick. rewrite search_tick.
  cbn [ClientRequests.fetched]. fold (next_search_result w).
  destruct (next_search_result w); reflexivity.
Qed.

Lemma fetched_app nd n : forall from m,
  ClientRequests.fetched nd from (n + m)
  = (ClientRequests.fetched nd from n
     ++ ClientRequests.fetched nd (from + n) m)%list.
Proof.
  induction n as [|n IH]; intros from m.
  - cbn. now rewrite Nat.add_0_r.
  - cbn [Nat.add ClientRequests.fetched].
    rewrite IH. replace (S from + n)%nat with (from + S n)%nat by lia.
    destruct (outcome (search_result_script nd from)); reflexivity.
Qed.

(** The run of the loop from [w], whatever the node and the callback do. *)
Lemma search_poll_total d t f u n : forall fuel w,
  (d - now w <= Z.of_nat n * timer_delay (f * 1000))%Z -> (n < fuel)%nat ->
  exists res w',
    search_poll fuel d t f u cb w = Some (res, w')
    /\ node w' = node w
    /\ (search_result_calls w < search_result_calls w')%nat
    /\ (search_result_calls w' <= search_result_calls w + Nat.max n 1)%nat
    /\ delivered w'
       = (List.rev (ClientRequests.fetched (node w) (search_result_calls w)
                 (search_result_calls w' - search_result_calls w))
          ++ delivered w)%list
    /\ resolve_calls w' = resolve_calls w
    /\ result_calls w' = result_calls w
    /\ (forall p, res = Return p -> hd_error (delivered w') = Some p).
Proof.
  induction n as [|n IH]; intros fuel w N L;
    (destruct fuel as [|fuel]; [lia|]);
    pose proof (after_search_tick_now f u w) as T;
    pose proof (timer_delay_positive (f * 1000)) as Pos;
    pose proof (after_search_tick_others f u w) as [O1 O2];
    pose proof (after_search_tick_delivered_any f u w) as Dl;
    pose proof (after_search_tick_calls f u w) as Cl;
    pose proof (after_search_tick_node f u w) as Nd;
    assert (One : (search_result_calls (after_search_tick f u w)
                   - search_result_calls w = 1)%nat) by lia;
    (destruct (next_search_result w) as [p|e] eqn:E;
     [ destruct (cb p) as [[]|e] eqn:C | ]).
  (* n = 0 *)
  - rewrite (search_poll_tick _ _ _ _ _ _ _ p E C).
    unfold timeoutFlag.
    destruct (Z.leb_spec d (now (after_search_tick f u w))); [|lia].
    cbn [negb andb].
    exists (Return p), (after_search_tick f u w).
    rewrite One. repeat split; auto; try lia.
    intros q Hq. injection Hq as <-.
    now rewrite (after_search_tick_delivered _ _ _ _ E).
  - exists (Throw e), (after_search_tick f u w).
    rewrite (search_poll_callback_throws _ _ _ _ _ _ p e E C), One.
    repeat split; auto; try lia. discriminate.
  - exists (Throw e), (after_search_tick f u w).
    rewrite (search_poll_rejected _ _ _ _ _ _ _ e E), One.
    repeat split; auto; try lia. discriminate.
  (* n > 0 *)
  - rewrite (search_poll_tick _ _ _ _ _ _ _ p E C).
    destruct (negb (timeoutFlag d (after_search_tick f u w))
              && (t >? count p)%Z) eqn:Go.
    + apply andb_true_iff in Go. destruct Go as [Fl _].
      apply negb_true_iff in Fl. unfold timeoutFlag in Fl.
      apply Z.leb_gt in Fl.
      destruct n as [|n]; [nia|].
      destruct (IH fuel (after_search_tick f u w))
        as (res & w' & E' & Nd' & C1 & C2 & D' & R1 & R2 & H'); [nia | lia |].
      exists res, w'. rewrite E'.
      rewrite Nd, Cl in *.
      repeat split; auto; try lia; try congruence.
      rewrite D', Dl, app_assoc, <- rev_app_distr.
      replace (search_result_calls w' - search_result_calls w)%nat
        with (1 + (search_result_calls w' - S (search_result_calls w)))%nat
        by lia.
      rewrite fetched_app.
      replace (search_result_calls w + 1)%nat with (S (search_result_calls w))
        by lia.
      reflexivity.
    + exists (Return p), (after_search_tick f u w).
      rewrite One. repeat split; auto; try lia.
      intros q Hq. injection Hq as <-.
      now rewrite (after_search_tick_delivered _ _ _ _ E).
  - exists (Throw e), (after_search_tick f u w).
    rewrite (search_poll_callback_throws _ _ _ _ _ _ p e E C), One.
    repeat split; auto; try lia. discriminate.
  - exists (Throw e), (after_search_tick f u w).
    rewrite (search_poll_rejected _ _ _ _ _ _ _ e E), One.
    repeat split; auto; try lia. discriminate.
Qed.

(** ** _getSearchResult itself *)

Variable this : Client.
Variable options : SearchOptions.t.
Hypothesis handler_given : truthy (SearchOptions.handler_id options) = true.

#[local] Abbreviation T := (search_numberOfResults this options).
#[local] Abbreviation S_ := (search_timeoutInSeconds this options).
#[local] Abbreviation F := (search_frequency this options).
#[local] Abbreviation url := (search_url this options).

Lemma getSearchResult_poll fuel w :
  _getSearchResult fuel this options cb w
  = search_poll fuel (search_deadline this options w) T F url cb w.
Proof. unfold _getSearchResult. rewrite handler_given. reflexivity. Qed.

Lemma getSearchResult_run w n :
  (timer_delay (S_ * 1000) <= Z.of_nat n * timer_delay (F * 1000))%Z ->
  exists res w',
    (forall fuel, (n < fuel)%nat ->
       _getSearchResult fuel this options cb w = Some (res, w'))
    /\ (search_result_calls w < search_result_calls w')%nat
    /\ (search_result_calls w' <= search_result_calls w + n)%nat
    /\ delivered w'
       = (List.rev (ClientRequests.fetched (node w) (search_result_calls w)
                      (search_result_calls w' - search_result_calls w))
          ++ delivered w)%list
    /\ resolve_calls w' = resolve_calls w
    /\ result_calls w' = result_calls w
    /\ (forall p, res = Return p -> hd_error (delivered w') = Some p).
Proof.
  intros N.
  pose proof (timer_delay_positive (S_ * 1000)) as P1.
  pose proof (timer_delay_positive (F * 1000)) as P2.
  assert (N1 : (1 <= n)%nat) by (destruct n; [lia|lia]).
  destruct (search_poll_total (search_deadline this options w) T F url n
              (S n) w) as (res & w' & E & _ & C1 & C2 & D & R1 & R2 & H);
    [unfold search_deadline; lia | lia |].
  exists res, w'. rewrite Nat.max_l in C2 by lia.
  repeat split; auto.
  intros fuel L. rewrite getSearchResult_poll.
  eapply search_poll_fuel_mono; [exact E | lia].
Qed.

(** X15.  _getSearchResult always ends, whatever the node answers and
    whatever the callback does: given at least as many turns [n] as sleeps
    fit into the timeout, it gives one outcome, after at least one and at
    most [n] requests to the search endpoint, and none to the others.  In
    particular a search is polled once even when the timeout or the result
    target is already met. *)
Theorem getSearchResult_always_ends w n :
  (timer_delay (S_ * 1000) <= Z.of_nat n * timer_delay (F * 1000))%Z ->
  exists res w',
    (forall fuel, (n < fuel)%nat ->
       _getSearchResult fuel this options cb w = Some (res, w'))
    /\ (search_result_calls w < search_result_calls w')%nat
    /\ (search_result_calls w' <= search_result_calls w + n)%nat
    /\ resolve_calls w' = resolve_calls w
    /\ result_calls w' = result_calls w.
Proof.
  intros N.
  destruct (getSearchResult_run w n N)
    as (res & w' & E & C1 & C2 & _ & R1 & R2 & _).
  exists res, w'. auto.
Qed.

(** X16.  The callback of a search is handed every payload the node
    answers with, once, in the order of the answers, whether the search
    ends with a payload or with an error; and a payload that is returned
    is the one the callback was handed last. *)
Theorem getSearchResult_hands_over_every_payload w n :
  (timer_delay (S_ * 1000) <= Z.of_nat n * timer_delay (F * 1000))%Z ->
  exists res w',
    (forall fuel, (n < fuel)%nat ->
       _getSearchResult fuel this options cb w = Some (res, w'))
    /\ delivered w'
       = (List.rev (ClientRequests.fetched (node w) (search_result_calls w)
                      (search_result_calls w' - search_result_calls w))
          ++ delivered w)%list
    /\ (forall p, res = Return p -> hd_error (delivered w') = Some p).
Proof.
  intros N.
  destruct (getSearchResult_run w n N)
    as (res & w' & E & _ & _ & D & _ & _ & H).
  exists res, w'. auto.
Qed.

End SearchPollerBounds.

Section SearchPollerBoundScenarios.
Import Js AbstractClient.

Lemma getSearchResult_always_ends_witness :
  exists res w',
    _getSearchResult 6 default_client search_options quiet_callback
      (fresh ClientRequests.failing_search_node) = Some (res, w')
    /\ (0 < search_result_calls w')%nat
    /\ (search_result_calls w' <= 5)%nat.
Proof.
  destruct (getSearchResult_always_ends quiet_callback default_client
              search_options eq_refl
              (fresh ClientRequests.failing_search_node) 5)
    as (res & w' & E & C1 & C2 & _); [vm_compute; discriminate|].
  exists res, w'. split; [apply E; lia|]. split; [exact C1 | exact C2].
Defined.

Lemma getSearchResult_hands_over_every_payload_witness :
  exists w',
    _getSearchResult 6 default_client search_options quiet_callback
      (fresh ClientRequests.failing_search_node)
    = Some (Throw (Error "socket hang up"), w')
    /\ delivered w' = [payload_of 50; payload_of 5].
Proof.
  destruct (getSearchResult_hands_over_every_payload quiet_callback
              default_client search_options eq_refl
              (fresh ClientRequests.failing_search_node) 5)
    as (res & w' & E & D & _); [vm_compute; discriminate|].
  exists w'.
  pose proof (E 6%nat (Nat.lt_succ_diag_r 5)) as E6.
  assert (R : _getSearchResult 6 default_client search_options quiet_callback
                (fresh ClientRequests.failing_search_node)
              = Some (Throw (Error "socket hang up"), w')
              /\ search_result_calls w' = 3%nat).
  { vm_compute in E6. injection E6 as <- <-. split; reflexivity. }
  destruct R as [R C]. split; [exact R|].
  rewrite D, C. reflexivity.
Defined.

End SearchPollerBoundScenarios.

(* ================================================================== *)
(** * Properties of resolve and of the validation loop                  *)
(* ================================================================== *)

Section ValidatorFacts.
Import Js AbstractClient.

Variable this : Client.

#[local] Abbreviation B := (ClientRequests.polls_allowed this).

Lemma resolve_unfold fuel ids w :
  resolve fuel this ids w
  = match outcome (resolve_script (node w) (resolve_calls w)) with
    | Throw e => Some (Throw e, snd (_resolveRequest this ids w))
    | Return handler_id =>
        _getResult fuel this
          {| ResultOptions.handler_id := handler_id;
             ResultOptions.operation := JStr "resolve";
             ResultOptions.maxNumberOfRetries := None;
             ResultOptions.frequency := None |}
          (snd (_resolveRequest this ids w))
    end.
Proof.
  unfold resolve, _resolveRequest, axios_resolve.
  destruct (outcome (resolve_script (node w) (resolve_calls w))); reflexivity.
Qed.

Lemma resolve_run ids w :
  exists res w',
    (forall fuel, (B < fuel)%nat -> resolve fuel this ids w = Some (res, w'))
    /\ node w' = node w
    /\ resolve_calls w' = S (resolve_calls w)
    /\ (result_calls w' <= result_calls w + B)%nat
    /\ search_result_calls w' = search_result_calls w
    /\ (forall e,
          outcome (resolve_script (node w) (resolve_calls w)) = Throw e ->
          res = Throw e /\ result_calls w' = result_calls w).
Proof.
  destruct (outcome (resolve_script (node w) (resolve_calls w)))
    as [h|e] eqn:O.
  - destruct (getResult_run this
                {| ResultOptions.handler_id := h;
                   ResultOptions.operation := JStr "resolve";
                   ResultOptions.maxNumberOfRetries := None;
                   ResultOptions.frequency := None |}
                (snd (_resolveRequest this ids w)))
      as (res & w' & E & Nd & C1 & C2 & C3).
    exists res, w'.
    split; [intros fuel L; rewrite resolve_unfold, O; now apply E|].
    cbn in Nd, C1, C2, C3.
    split; [exact Nd|]. split; [exact C2|]. split; [exact C1|].
    split; [exact C3|]. intros e H. discriminate H.
  - exists (Throw e), (snd (_resolveRequest this ids w)).
    split; [intros fuel L; now rewrite resolve_unfold, O|].
    cbn. split; [reflexivity|]. split; [reflexivity|]. split; [lia|].
    split; [reflexivity|]. intros e' H. injection H as <-. now split.
Qed.


Lemma validate_assertions_run assertions : forall acc w,
  exists res w',
    (forall fuel, (B < fuel)%nat ->
       validate_assertions fuel this assertions acc w = Some (res, w'))
    /\ node w' = node w
    /\ (resolve_calls w' <= resolve_calls w + length assertions)%nat
    /\ (result_calls w' <= result_calls w + length assertions * B)%nat
    /\ search_result_calls w' = search_result_calls w
    /\ (forall l, res = Return l ->
          l = (acc ++ flat_map ClientRequests.records_of assertions)%list
          /\ resolve_calls w' = (resolve_calls w + length assertions)%nat).
Proof.
  induction assertions as [|a rest IH]; intros acc w.
  - exists (Return acc), w. split; [reflexivity|].
    cbn [length flat_map].
    split; [reflexivity|]. split; [lia|]. split; [lia|].
    split; [reflexivity|].
    intros l H. injection H as <-. rewrite app_nil_r. split; [reflexivity|lia].
  - destruct (resolve_run [JStr (assertionId a)] w)
      as (r & w1 & E & Nd & C1 & C2 & C3 & _).
    assert (Stop : forall e,
              (forall fuel, (B < fuel)%nat ->
                 _fetchRootHash fuel this (assertionId a) w
                 = Some (Throw e, w1)) ->
              exists res w',
                (forall fuel, (B < fuel)%nat ->
                   validate_assertions fuel this (a :: rest) acc w
                   = Some (res, w'))
                /\ node w' = node w
                /\ (resolve_calls w' <= resolve_calls w + length (a :: rest))%nat
                /\ (result_calls w' <= result_calls w + length (a :: rest) * B)%nat
                /\ search_result_calls w' = search_result_calls w
                /\ (forall l, res = Return l ->
                      l = (acc ++ flat_map ClientRequests.records_of (a :: rest))%list
                      /\ resolve_calls w'
                         = (resolve_calls w + length (a :: rest))%nat)).
    { intros e H. exists (Throw e), w1.
      split; [intros fuel L; cbn [validate_assertions]; now rewrite (H fuel L)|].
      cbn [length].
      split; [exact Nd|]. split; [lia|]. split; [lia|]. split; [exact C3|].
      intros l H0. discriminate H0. }
    destruct r as [result|e].
    + destruct (rootHash_of result (assertionId a)) as [rootHash|e] eqn:R.
      * destruct (IH (validate_proofs rootHash (proofs a) acc) w1)
          as (res & w' & E' & Nd' & D1 & D2 & D3 & H).
        exists res, w'.
        split.
        { intros fuel L. cbn [validate_assertions]. unfold _fetchRootHash.
          rewrite (E fuel L), R. now apply E'. }
        cbn [length flat_map].
        split; [congruence|]. split; [lia|]. split; [lia|].
        split; [congruence|].
        intros l H0. destruct (H l H0) as [-> ->].
        split; [|lia].
        rewrite validate_proofs_records, <- app_assoc. reflexivity.
      * apply (Stop e). intros fuel L. unfold _fetchRootHash.
        now rewrite (E fuel L), R.
    + apply (Stop e). intros fuel L. unfold _fetchRootHash.
      now rewrite (E fuel L).
Qed.

(** X18.  For a client whose [maxNumberOfRetries] is an integer, as all
    numbers are in this development, _performValidation ends, with at most
    one resolve request per assertion and at most [maxNumberOfRetries + 1]
    polls for each.  When it returns a list, it has resolved every assertion, and the
    list holds, assertion after assertion and entry after entry, one record
    per entry that has a proof and none for the others; an error for one
    assertion discards the records of the assertions before it. *)
Theorem performValidation_one_resolve_per_assertion assertions w :
  exists res w',
    (forall fuel, (B < fuel)%nat ->
       _performValidation fuel this assertions w = Some (res, w'))
    /\ (resolve_calls w' <= resolve_calls w + length assertions)%nat
    /\ (result_calls w' <= result_calls w + length assertions * B)%nat
    /\ (forall l, res = Return l ->
          l = flat_map ClientRequests.records_of assertions
          /\ resolve_calls w' = (resolve_calls w + length assertions)%nat).
Proof.
  destruct (validate_assertions_run assertions [] w)
    as (res & w' & E & _ & C1 & C2 & _ & H).
  exists res, w'. unfold _performValidation. auto.
Qed.

End ValidatorFacts.

Section ValidatorScenarios.
Import Js AbstractClient.

Example performValidation_two_assertions :
  exists w',
    _performValidation 7 default_client
      [one_leaf_assertion; ClientRequests.second_assertion]
      (fresh ClientRequests.two_assertion_node)
    = Some (Return [ {| validated_triple := triple one_leaf_entry;
                        valid := JUndefined |};
                     {| validated_triple := triple one_leaf_entry;
                        valid := JUndefined |};
                     {| validated_triple := triple one_leaf_entry;
                        valid := JUndefined |} ], w')
    /\ resolve_calls w' = 2%nat /\ result_calls w' = 2%nat.
Proof. eexists. split; [reflexivity|]. split; reflexivity. Qed.

Example performValidation_refused :
  exists w',
    _performValidation 7 default_client
      [one_leaf_assertion; ClientRequests.second_assertion]
      (fresh ClientRequests.refusing_node)
    = Some (Throw (Error "connect ECONNREFUSED"), w')
    /\ resolve_calls w' = 1%nat /\ result_calls w' = 0%nat.
Proof. eexists. split; [reflexivity|]. split; reflexivity. Qed.

(** The spread: a retry bound passed to resolve is the one the polls
    obey. *)
Example resolve_with_a_bound_of_its_own :
  match ClientRequests.resolve 10 default_client
          (Some {| ClientRequests.ResolveOptions.ids :=
                     JArr [JStr "assertion-1"];
                   ClientRequests.ResolveOptions.handler_id := None;
                   ClientRequests.ResolveOptions.operation := None;
                   ClientRequests.ResolveOptions.maxNumberOfRetries :=
                     Some 8%Z;
                   ClientRequests.ResolveOptions.frequency := None |})
          (fresh (node_with_results [])) with
  | Some (res, w') =>
      res = Throw retries_exhausted
      /\ resolve_calls w' = 1%nat /\ result_calls w' = 9%nat
  | None => False
  end.
Proof. vm_compute. repeat split. Qed.

End ValidatorScenarios.

(* ================================================================== *)
(** * Properties of the constructor and of the requests                 *)
(* ================================================================== *)

Section ClientRequestFacts.
Import Js AbstractClient.

Lemma nonneg_or_default_positive o dflt :
  (0 < dflt)%Z -> (0 < nonneg_or_default o dflt)%Z.
Proof.
  intros D. unfold nonneg_or_default, truthy_num, ge_zero, value_or.
  destruct o as [n|]; [|exact D].
  destruct (Z.eqb_spec n 0); cbn [negb andb]; [exact D|].
  destruct (Z.leb_spec 0 n); [lia | exact D].
Qed.

Lemma nonneg_or_default_kept n dflt :
  (0 < n)%Z -> nonneg_or_default (Some n) dflt = n.
Proof.
  intros H. unfold nonneg_or_default, truthy_num, ge_zero, value_or.
  destruct (Z.eqb_spec n 0); [lia|].
  destruct (Z.leb_spec 0 n); [reflexivity | lia].
Qed.

(** X19.  A client that the constructor builds has an endpoint and a port
    that are truthy, four settings that are all above zero, and keeps
    every setting above zero it was given. *)
Theorem constructor_settings_positive options this :
  constructor options = Return this ->
  (truthy (ConstructorOptions.endpoint options) = true
   /\ truthy (ConstructorOptions.port options) = true)
  /\ (0 < maxNumberOfRetries this /\ 0 < timeoutInSeconds this
      /\ 0 < numberOfResults this /\ 0 < frequency this)%Z
  /\ (forall n, (0 < n)%Z ->
        ConstructorOptions.maxNumberOfRetries options = Some n ->
        maxNumberOfRetries this = n)
  /\ (forall n, (0 < n)%Z ->
        ConstructorOptions.timeoutInSeconds options = Some n ->
        timeoutInSeconds this = n)
  /\ (forall n, (0 < n)%Z ->
        ConstructorOptions.numberOfResults options = Some n ->
        numberOfResults this = n)
  /\ (forall n, (0 < n)%Z ->
        ConstructorOptions.frequency options = Some n ->
        frequency this = n).
Proof.
  intros H. destruct (constructor_fields _ _ H) as (E1 & E2 & E3 & E4).
  split.
  { unfold constructor in H.
    destruct (truthy (ConstructorOptions.endpoint options));
      destruct (truthy (ConstructorOptions.port options));
      try discriminate H. now split. }
  rewrite E1, E2, E3, E4.
  split.
  { repeat split; apply nonneg_or_default_positive; reflexivity. }
  repeat split; intros n Hn ->; now apply nonneg_or_default_kept.
Qed.

Lemma constructor_settings_positive_witness :
  let options :=
    {| ConstructorOptions.endpoint := JStr "localhost";
       ConstructorOptions.port := JNum 8900;
       ConstructorOptions.useSSL := JBool true;
       ConstructorOptions.loglevel := JUndefined;
       ConstructorOptions.maxNumberOfRetries := Some 3%Z;
       ConstructorOptions.timeoutInSeconds := None;
       ConstructorOptions.numberOfResults := Some (-4)%Z;
       ConstructorOptions.frequency := Some 1%Z |} in
  exists this,
    constructor options = Return this
    /\ maxNumberOfRetries this = 3%Z /\ frequency this = 1%Z
    /\ (0 < timeoutInSeconds this)%Z /\ (0 < numberOfResults this)%Z.
Proof.
  intros options.
  destruct (constructor options) as [this|e] eqn:E; [|discriminate E].
  exists this.
  destruct (constructor_settings_positive options this E)
    as (_ & (_ & P2 & P3 & _) & K1 & _ & _ & K4).
  split; [reflexivity|].
  split; [apply (K1 3%Z); [lia | reflexivity]|].
  split; [apply (K4 1%Z); [lia | reflexivity]|].
  split; [exact P2 | exact P3].
Defined.

(** ** _searchRequest *)

Lemma endsWith_app (a b : string) : ClientRequests.endsWith (a ++ b) b = true.
Proof.
  induction a as [|c a IH].
  - change ("" ++ b) with b.
    destruct b; cbn [ClientRequests.endsWith]; now rewrite String.eqb_refl.
  - change (String c a ++ b) with (String c (a ++ b)).
    cbn [ClientRequests.endsWith]. rewrite IH. apply orb_true_r.
Qed.

(** X20.  A search for entities cannot switch prefix matching off: when
    the [prefix] option is [false] (or anything else that is falsy, or
    left out), the url of the request still ends with [&prefix=true],
    whatever the query and the limit are. *)
Theorem searchRequest_prefix_stays_true this q l p :
  truthy p = false ->
  ClientRequests.endsWith
    (ClientRequests.search_request_url this
       {| ClientRequests.query := q;
          ClientRequests.resultType := JStr "entities";
          ClientRequests.prefix := p;
          ClientRequests.limit := l |})
    "&prefix=true" = true.
Proof.
  intros P. unfold ClientRequests.search_request_url.
  cbn [ClientRequests.query ClientRequests.resultType ClientRequests.prefix
       ClientRequests.limit].
  rewrite P.
  change (ClientRequests.is_entities (JStr "entities")) with true.
  cbv iota.
  change ("&prefix=" ++ to_string (JBool true)) with "&prefix=true".
  rewrite <- !append_assoc.
  apply endsWith_app.
Qed.

Lemma searchRequest_prefix_stays_true_witness :
  truthy (JBool false) = false
  /\ ClientRequests.endsWith
       (ClientRequests.search_request_url default_client
          {| ClientRequests.query := JStr "tracac";
             ClientRequests.resultType := JStr "entities";
             ClientRequests.prefix := JBool false;
             ClientRequests.limit := JNum 0 |})
       "&prefix=true" = true.
Proof.
  split; [reflexivity|].
  apply (searchRequest_prefix_stays_true default_client (JStr "tracac")
           (JNum 0) (JBool false)).
  reflexivity.
Defined.

Example searchRequest_url_of_entities :
  ClientRequests.search_request_url default_client
    {| ClientRequests.query := JStr "tracac";
       ClientRequests.resultType := JStr "entities";
       ClientRequests.prefix := JBool false;
       ClientRequests.limit := JNum 0 |}
  = "http://localhost:8900/entities:search?query=tracac&limit=20&prefix=true".
Proof. reflexivity. Qed.

(** ** validate *)

(** X21.  validate never gives a validation result.  Whatever the
    node answers to the proofs request, the call ends with an error: the
    result of _getResult is not awaited, so that its status is read from
    the promise, where it is [undefined] and differs from COMPLETED.  With
    nquads given and a proofs request that succeeds, the error is the one
    of proofs that could not be got, and it is raised before the result
    endpoint is asked once. *)
Theorem validate_never_validates this request nquads retries frequency w :
  (exists e,
     fst (ClientRequests.validate this request nquads retries frequency w)
     = Throw e)
  /\ (forall handler_id w',
        truthy nquads = true ->
        request w = (Return handler_id, w') ->
        ClientRequests.validate this request nquads retries frequency w
        = (Throw (Error "Unable to get proofs for given nquads"), w')).
Proof.
  unfold ClientRequests.validate. split.
  - destruct (truthy nquads); cbn [negb]; [|eexists; reflexivity].
    destruct (request w) as [[h|e] w']; eexists; reflexivity.
  - intros h w' T R. rewrite T, R. reflexivity.
Qed.

End ClientRequestFacts.
